(** * MikroTik traffic monitor (app.py): shallow embedding and verified properties

    The development follows [src/app.py]: the display helpers [format_bytes]
    and [format_speed], the [MikroTikMonitor] thread class
    ([get_interface_stats], [save_to_db], one iteration of [run], [stop]) and
    the two socket handlers [connect_mikrotik_via_socket] and
    [disconnect_mikrotik], and the selection of rows behind the two report
    routes [get_report_data] and [download_report_pdf]. The HTML and PDF
    rendering of a report is not modelled.

    Modelling conventions.
    - A Python [int] is a [Z].
    - A Python [float] is an exact rational [Q]: the binary64 rounding of
      [time.time()], of [/] and of [*] is not modelled, so statements about
      rates are statements about the exact quotient.
    - A Python [str] is a [string]; a [dict] keyed by interface name is a
      [gmap string _].
    - What the outside world does during a call (the clock readings, the
      router's answers, whether a login succeeds) is an explicit argument.
      A reading or an answer that the code asks for once per interface is a
      function of the interface name.
    - The process is first followed through the events of [react], in which
      a request is handled between two iterations of the loop, and then
      through the moves of [act], in which a request may also arrive while
      the loop is at work: there [thread_lock] decides who goes on. *)

From Stdlib Require Import ZArith QArith Qround Lqa Lia Ascii String List.
From Stdlib Require Import DecimalString DecimalPos.
From stdpp Require Import gmap strings list fin_maps sorting.
Import ListNotations.

Local Open Scope Z_scope.
Local Open Scope string_scope.

(** ** Python numbers *)

(** [x < y] on floats. *)
Definition Qltb (x y : Q) : bool := negb (Qle_bool y x).

(** [int(x)] on a float: truncation toward zero. *)
Definition py_int_of_float (x : Q) : Z := Z.quot (Qnum x) (Z.pos (Qden x)).

(** [str(n)] on an int. *)
Definition py_str (n : Z) : string := NilZero.string_of_int (Z.to_int n).

(** Nearest integer, ties to the even one: the rounding of [:.2f]. *)
Definition round_half_even (x : Q) : Z :=
  let f := Qfloor x in
  match Qcompare (x - inject_Z f) (1 # 2) with
  | Lt => f
  | Gt => f + 1
  | Eq => if Z.even f then f else f + 1
  end.

(** The character of a digit [0..9]. *)
Definition digit (n : Z) : string :=
  String (ascii_of_nat (48 + Z.to_nat n)) EmptyString.

(** [f"{x:.2f}"]: sign, integer part, a dot and exactly two decimals, the
    exact value being rounded (Python rounds the binary64 nearest to it). *)
Definition fmt2 (x : Q) : string :=
  let n := Z.abs (round_half_even (x * 100)) in
  (if Qltb x 0 then "-" else "")
    ++ py_str (n / 100) ++ "." ++ digit ((n mod 100) / 10) ++ digit (n mod 10).

(** ** Helper functions *)

Fixpoint format_bytes_units (val : Q) (units : list string) : string :=
  match units with
  | unit :: rest =>
      if Qltb val 1024 then fmt2 val ++ " " ++ unit
      else format_bytes_units (val / 1024) rest
  | [] => fmt2 val ++ " PB"
  end.

(** [format_bytes(value)] for an int [value]; [float(value)] raises neither
    [ValueError] nor [TypeError] on an int, so the ["N/A"] branch is not
    reached. [float(value)] is taken to be [value] and [/] to be exact,
    which they are for a count below 2^53; from there on the code rounds
    the count to the nearest binary64 first. *)
Definition format_bytes (value : Z) : string :=
  format_bytes_units (inject_Z value) ["B"; "KB"; "MB"; "GB"; "TB"].

(** [format_speed(bps)] for a number [bps]. The two quotients are exact
    here; the code formats the binary64 nearest to the quotient, which can
    show another last digit where the exact quotient lies halfway between
    two hundredths. *)
Definition format_speed (bps : Q) : string :=
  let bps := py_int_of_float bps in
  if (1000000000 <=? bps)%Z then fmt2 (inject_Z bps / 1000000000) ++ " Gbps"
  else if (1000000 <=? bps)%Z then fmt2 (inject_Z bps / 1000000) ++ " Mbps"
  else py_str bps ++ " bps".

(** ** The router, as seen through [routeros_api] *)

(** A counter field of an interface item: absent, a text that [int(...)]
    accepts, or a text on which [int(...)] raises [ValueError]. *)
Inductive field := NoKey | IntText (n : Z) | BadText.

Record item := { rx_byte : field; tx_byte : field }.

(** What [iface_resource.get(name=iface)] does: raise, or return a list. *)
Inductive reply := Raises | Returns (result : list item).

(** [api.get_resource('/interface')]: [get ()] lists the interface names
    (or raises), [get_name] answers a query by name. *)
Record iface_resource := {
  get : option (list string);
  get_name : string -> reply
}.

(** The router during one call: [get_resource] raises ([None]) or works. *)
Record RouterOsApi := { get_resource : option iface_resource }.

(** How [RouterOsApiPool(...)] followed by [get_api()] ends. *)
Inductive login := PoolError | LoginError | LoggedIn.

(** [int(item.get(key, 0))]; [None] is the exception. *)
Definition py_int (f : field) : option Z :=
  match f with
  | NoKey => Some 0
  | IntText n => Some n
  | BadText => None
  end.

(** ** Samples, snapshot entries and history rows *)

Module Prev.
(** A value of [self.previous_stats]. *)
Record t := { rx_bytes : Z; tx_bytes : Z; timestamp : Q }.
End Prev.

Module Stat.
(** A value of the [stats] dict: display strings. *)
Record t := {
  rx_speed : string; tx_speed : string;
  rx_total : string; tx_total : string;
  timestamp : string
}.
End Stat.

Module Hist.
(** A row of the table [performance_history]. *)
Record t := {
  timestamp : string; interface : string;
  rx_speed : Q; tx_speed : Q; rx_total : Q; tx_total : Q
}.
End Hist.

Abbreviation previous_table := (gmap string Prev.t).
Abbreviation stats_dict := (gmap string Stat.t).

(** ** [MikroTikMonitor] *)

(** [self.connection]: a pool object whose session is open or closed. *)
Inductive pool := Open | Closed.

Record MikroTikMonitor := {
  ip : string;
  username : string;
  password : string;
  interval : Q;
  running : bool;
  connection : option pool;
  api : option unit;
  interfaces_to_monitor : list string;
  previous_stats : previous_table;
  last_db_save : Q;
  save_interval : Q;
  is_alive : bool   (* inherited from [threading.Thread] *)
}.

Definition set_running (b : bool) (m : MikroTikMonitor) : MikroTikMonitor :=
  {| ip := ip m; username := username m; password := password m;
     interval := interval m; running := b; connection := connection m;
     api := api m; interfaces_to_monitor := interfaces_to_monitor m;
     previous_stats := previous_stats m; last_db_save := last_db_save m;
     save_interval := save_interval m; is_alive := is_alive m |}.

Definition set_connection (c : option pool) (m : MikroTikMonitor) : MikroTikMonitor :=
  {| ip := ip m; username := username m; password := password m;
     interval := interval m; running := running m; connection := c;
     api := api m; interfaces_to_monitor := interfaces_to_monitor m;
     previous_stats := previous_stats m; last_db_save := last_db_save m;
     save_interval := save_interval m; is_alive := is_alive m |}.

Definition set_api (a : option unit) (m : MikroTikMonitor) : MikroTikMonitor :=
  {| ip := ip m; username := username m; password := password m;
     interval := interval m; running := running m; connection := connection m;
     api := a; interfaces_to_monitor := interfaces_to_monitor m;
     previous_stats := previous_stats m; last_db_save := last_db_save m;
     save_interval := save_interval m; is_alive := is_alive m |}.

Definition set_interfaces_to_monitor (l : list string) (m : MikroTikMonitor) : MikroTikMonitor :=
  {| ip := ip m; username := username m; password := password m;
     interval := interval m; running := running m; connection := connection m;
     api := api m; interfaces_to_monitor := l;
     previous_stats := previous_stats m; last_db_save := last_db_save m;
     save_interval := save_interval m; is_alive := is_alive m |}.

Definition set_previous_stats (p : previous_table) (m : MikroTikMonitor) : MikroTikMonitor :=
  {| ip := ip m; username := username m; password := password m;
     interval := interval m; running := running m; connection := connection m;
     api := api m; interfaces_to_monitor := interfaces_to_monitor m;
     previous_stats := p; last_db_save := last_db_save m;
     save_interval := save_interval m; is_alive := is_alive m |}.

Definition set_last_db_save (t : Q) (m : MikroTikMonitor) : MikroTikMonitor :=
  {| ip := ip m; username := username m; password := password m;
     interval := interval m; running := running m; connection := connection m;
     api := api m; interfaces_to_monitor := interfaces_to_monitor m;
     previous_stats := previous_stats m; last_db_save := t;
     save_interval := save_interval m; is_alive := is_alive m |}.

Definition set_is_alive (b : bool) (m : MikroTikMonitor) : MikroTikMonitor :=
  {| ip := ip m; username := username m; password := password m;
     interval := interval m; running := running m; connection := connection m;
     api := api m; interfaces_to_monitor := interfaces_to_monitor m;
     previous_stats := previous_stats m; last_db_save := last_db_save m;
     save_interval := save_interval m; is_alive := b |}.

(** [MikroTikMonitor.__init__(ip, username, password)], [interval=3]. *)
Definition init (ip_ username_ password_ : string) : MikroTikMonitor :=
  {| ip := ip_; username := username_; password := password_;
     interval := 3; running := true; connection := None; api := None;
     interfaces_to_monitor := []; previous_stats := ∅; last_db_save := 0;
     save_interval := 60; is_alive := false |}.

(** [connect]: the pool constructor may raise before [self.connection] is
    assigned, [get_api()] may raise after it. *)
Definition connect (o : login) (self : MikroTikMonitor) : bool * MikroTikMonitor :=
  match o with
  | PoolError => (false, self)
  | LoginError => (false, set_connection (Some Closed) self)
  | LoggedIn => (true, set_api (Some tt) (set_connection (Some Open) self))
  end.

(** [disconnect]: closes the pool if there is one. *)
Definition disconnect (self : MikroTikMonitor) : MikroTikMonitor :=
  match connection self with
  | Some _ => set_connection (Some Closed) self
  | None => self
  end.

(** [stop]. *)
Definition stop (self : MikroTikMonitor) : MikroTikMonitor :=
  disconnect (set_running false self).

(** [get_all_interfaces]; [o] is how a reconnection would end. *)
Definition get_all_interfaces (dev : RouterOsApi) (o : login)
    (self : MikroTikMonitor) : list string * MikroTikMonitor :=
  let '(ok, self) :=
    match api self with
    | Some _ => (true, self)
    | None => connect o self
    end in
  if ok then
    match get_resource dev with
    | Some r => match get r with Some names => (names, self) | None => ([], self) end
    | None => ([], self)
    end
  else ([], self).

(** *** [get_interface_stats] *)

(** [x / y] on floats: [None] is [ZeroDivisionError]. *)
Definition py_truediv (x y : Q) : option Q :=
  if Qeq_bool y 0 then None else Some (x / y)%Q.

(** Lines 129-136: the two rates, from the previous sample if there is one.
    They keep their initial value 0 without a previous sample, and when the
    elapsed time is not positive. [None] is an exception. *)
Definition rates (previous : previous_table) (iface : string) (current_time : Q)
    (current_rx_bytes current_tx_bytes : Z) : option (Q * Q) :=
  match previous !! iface with
  | Some prev_stats =>
      let time_diff := (current_time - Prev.timestamp prev_stats)%Q in
      if Qltb 0 time_diff then
        rx_bps ← py_truediv (inject_Z (current_rx_bytes - Prev.rx_bytes prev_stats)) time_diff;
        tx_bps ← py_truediv (inject_Z (current_tx_bytes - Prev.tx_bytes prev_stats)) time_diff;
        Some (rx_bps * 8, tx_bps * 8)%Q
      else Some (0, 0)%Q
  | None => Some (0, 0)%Q
  end.

(** The local variables of one loop iteration. *)
Record locals := {
  rx_speed : Q; tx_speed : Q;
  rx_total : Z; tx_total : Z
}.

(** Lines 118-119. *)
Definition locals0 : locals :=
  {| rx_speed := 0; tx_speed := 0; rx_total := 0; tx_total := 0 |}.

(** The sample stored by lines 138-142. *)
Definition sample (current_rx_bytes current_tx_bytes : Z) (current_time : Q) : Prev.t :=
  {| Prev.rx_bytes := current_rx_bytes; Prev.tx_bytes := current_tx_bytes;
     Prev.timestamp := current_time |}.

(** The [try] block of one iteration (lines 121-142) with its [except]
    clause, which only logs: the result is the locals and the table as the
    exception, if any, leaves them. A falsy [result] changes nothing. *)
Definition try_fetch (previous : previous_table) (iface : string) (current_time : Q)
    (r : reply) : locals * previous_table :=
  match r with
  | Raises => (locals0, previous)
  | Returns [] => (locals0, previous)
  | Returns (first :: _) =>
      match py_int (rx_byte first) with
      | None => (locals0, previous)
      | Some current_rx_bytes =>
          match py_int (tx_byte first) with
          | None => (locals0, previous)
          | Some current_tx_bytes =>
              match rates previous iface current_time current_rx_bytes current_tx_bytes with
              | None =>
                  ({| rx_speed := 0; tx_speed := 0;
                      rx_total := current_rx_bytes; tx_total := current_tx_bytes |},
                   previous)
              | Some (rx, tx) =>
                  ({| rx_speed := rx; tx_speed := tx;
                      rx_total := current_rx_bytes; tx_total := current_tx_bytes |},
                   <[iface := sample current_rx_bytes current_tx_bytes current_time]> previous)
              end
          end
      end
  end.

(** A reply from which both counters are read. *)
Definition fetched (r : reply) : bool :=
  match r with
  | Returns (first :: _) =>
      match py_int (rx_byte first), py_int (tx_byte first) with
      | Some _, Some _ => true
      | _, _ => false
      end
  | _ => false
  end.

(** [stats[iface] = {...}]: the locals, formatted. *)
Definition entry (l : locals) (hms : string) : Stat.t :=
  {| Stat.rx_speed := format_speed (rx_speed l);
     Stat.tx_speed := format_speed (tx_speed l);
     Stat.rx_total := format_bytes (rx_total l);
     Stat.tx_total := format_bytes (tx_total l);
     Stat.timestamp := hms |}.

(** One iteration of the [for] loop: the entry is built from whatever the
    locals hold after the [try] statement. *)
Definition poll_iface (r : iface_resource) (current_time : Q) (hms : string -> string)
    (acc : stats_dict * previous_table) (iface : string) : stats_dict * previous_table :=
  let '(stats, previous) := acc in
  let '(l, previous) := try_fetch previous iface current_time (get_name r iface) in
  (<[iface := entry l (hms iface)]> stats, previous).

(** [get_interface_stats(interfaces)]; [current_time] is the [time.time()]
    of line 114, read once, and [hms iface] is the
    [time.strftime("%H:%M:%S")] of line 152, read anew for each entry, when
    the entry of [iface] is built (for a name listed twice, at its last
    pass: the entry of an earlier pass is overwritten). Without an api
    object, or when [get_resource] raises, the outer [except] returns the
    empty dict. *)
Definition get_interface_stats (dev : RouterOsApi) (current_time : Q) (hms : string -> string)
    (interfaces : list string) (self : MikroTikMonitor) : stats_dict * MikroTikMonitor :=
  match api self, get_resource dev with
  | Some _, Some r =>
      let '(stats, previous) :=
        fold_left (poll_iface r current_time hms) interfaces (∅, previous_stats self) in
      (stats, set_previous_stats previous self)
  | _, _ => (∅, self)
  end.

(** *** [save_to_db] *)

(** The characters [str.split()] treats as blanks (in the ASCII range). *)
Definition is_space (c : ascii) : bool :=
  existsb (Ascii.eqb c)
    [" "; "009"; "010"; "011"; "012"; "013"; "028"; "029"; "030"; "031"]%char.

Fixpoint lstrip (s : string) : string :=
  match s with
  | String c rest => if is_space c then lstrip rest else s
  | EmptyString => EmptyString
  end.

Fixpoint first_word (s : string) : string :=
  match s with
  | String c rest => if is_space c then EmptyString else String c (first_word rest)
  | EmptyString => EmptyString
  end.

(** [s.split()[0]]; [None] is the [IndexError] of a blank string. *)
Definition split_0 (s : string) : option string :=
  match first_word (lstrip s) with
  | EmptyString => None
  | w => Some w
  end.

(** The text before the first dot, and the text after it if there is one. *)
Fixpoint cut_dot (s : string) : string * option string :=
  match s with
  | String c rest =>
      if Ascii.eqb c "." then (EmptyString, Some rest)
      else let '(a, b) := cut_dot rest in (String c a, b)
  | EmptyString => (EmptyString, None)
  end.

(** Digits, and optionally a dot followed by digits, as a number. *)
Definition unsigned_decimal (body : string) : option Q :=
  let '(whole, decimals) := cut_dot body in
  w ← NilZero.uint_of_string whole;
  match decimals with
  | None => Some (inject_Z (Z.of_uint w))
  | Some ds =>
      d ← NilEmpty.uint_of_string ds;
      Some (inject_Z (Z.of_uint w)
            + (Z.of_uint d # Pos.pow 10 (Pos.of_nat (String.length ds))))%Q
  end.

(** [float(s)] on plain decimal notation: an optional minus sign, digits,
    and optionally a dot followed by digits. [None] is [ValueError]; the
    other notations that Python accepts (exponents, [inf], [nan],
    underscores, surrounding blanks) are never produced by the formatters
    above. *)
Definition py_float (s : string) : option Q :=
  match s with
  | String c rest =>
      if Ascii.eqb c "-" then Qopp <$> unsigned_decimal rest
      else unsigned_decimal s
  | EmptyString => None
  end.

(** [float(text.split()[0]) if text != 'N/A' else 0]. *)
Definition numeric_prefix (text : string) : option Q :=
  if String.eqb text "N/A" then Some 0%Q
  else w ← split_0 text; py_float w.

(** The tuple bound to one [INSERT]. *)
Definition row_of (stamp iface : string) (data : Stat.t) : option Hist.t :=
  rx_speed_val ← numeric_prefix (Stat.rx_speed data);
  tx_speed_val ← numeric_prefix (Stat.tx_speed data);
  rx_total_val ← numeric_prefix (Stat.rx_total data);
  tx_total_val ← numeric_prefix (Stat.tx_total data);
  Some {| Hist.timestamp := stamp; Hist.interface := iface;
          Hist.rx_speed := rx_speed_val; Hist.tx_speed := tx_speed_val;
          Hist.rx_total := rx_total_val; Hist.tx_total := tx_total_val |}.

(** [save_to_db(stats)]: the rows committed, or [None] when a conversion
    raises before [commit]. [stamp iface] is the
    [time.strftime("%Y-%m-%d %H:%M:%S")] of line 171, read anew for each
    row, when the row of [iface] is inserted. The rows come in the order of
    [map_to_list], the table being read back sorted by timestamp only. *)
Definition save_to_db (stamp : string -> string) (stats : stats_dict) : option (list Hist.t) :=
  mapM (fun '(iface, data) => row_of (stamp iface) iface data) (map_to_list stats).

(** *** One iteration of [run] *)

(** What the world supplies during one iteration: the router's answers, the
    outcome of a reconnection, and the clock readings in program order. *)
Record tick := {
  router : RouterOsApi;
  relogin : login;
  time_stats : Q;            (* [time.time()] in [get_interface_stats] *)
  hms : string -> string;    (* [time.strftime("%H:%M:%S")], for each entry *)
  time_check : Q;            (* [time.time()] in the test of line 188 *)
  stamp : string -> string;  (* [time.strftime(...)] in [save_to_db], for each row *)
  time_saved : Q             (* [time.time()] of line 190 *)
}.

(** What an iteration does to the rest of the process, in program order. *)
Inductive effect :=
| SetLiveStats (stats : stats_dict)     (* [LIVE_STATS = stats] under the lock *)
| EmitLiveStats (stats : stats_dict)    (* [socketio.emit('live_stats', ...)] *)
| Insert (rows : list Hist.t)            (* [save_to_db]: rows committed *)
| Sleep (seconds : Q).                  (* [time.sleep(self.interval)] *)

Record iteration := {
  after : MikroTikMonitor;
  effects : list effect;
  completed : bool        (* [false]: [save_to_db] raised, the thread dies *)
}.

(** The test of line 188, [now] being its [time.time()]. *)
Definition save_due_at (now : Q) (self : MikroTikMonitor) : bool :=
  Qle_bool (save_interval self) (now - last_db_save self).

(** The body of [while self.running]. *)
Definition run_iteration (k : tick) (self : MikroTikMonitor) : iteration :=
  match api self with
  | Some _ =>
      let '(interfaces, self) :=
        match interfaces_to_monitor self with
        | [] => get_all_interfaces (router k) (relogin k) self
        | l => (l, self)
        end in
      let '(stats, self) :=
        get_interface_stats (router k) (time_stats k) (hms k) interfaces self in
      let broadcast := [SetLiveStats stats; EmitLiveStats stats] in
      if save_due_at (time_check k) self then
        match save_to_db (stamp k) stats with
        | Some rows =>
            {| after := set_last_db_save (time_saved k) self;
               effects := (broadcast ++ [Insert rows; Sleep (interval self)])%list;
               completed := true |}
        | None => {| after := self; effects := broadcast; completed := false |}
        end
      else
        {| after := self; effects := (broadcast ++ [Sleep (interval self)])%list;
           completed := true |}
  | None => {| after := self; effects := [Sleep (interval self)]; completed := true |}
  end.

(** ** The process: globals and socket handlers *)

Inductive status := success | error.

(** A message sent to the clients. *)
Inductive message :=
| connection_status (s : status) (text : string)
| live_stats (s : status) (stats : stats_dict).

(** The globals of the module, and what has left the process. [threads]
    holds every [MikroTikMonitor] object created so far, in creation order;
    [monitor_thread] refers to one of them by position. *)
Record process := {
  threads : list MikroTikMonitor;
  monitor_thread : option nat;
  LIVE_STATS : stats_dict;
  performance_history : list Hist.t;
  sent : list message
}.

(** The process when the module has been loaded. *)
Definition boot : process :=
  {| threads := []; monitor_thread := None; LIVE_STATS := ∅;
     performance_history := []; sent := [] |}.

Definition set_threads (l : list MikroTikMonitor) (w : process) : process :=
  {| threads := l; monitor_thread := monitor_thread w; LIVE_STATS := LIVE_STATS w;
     performance_history := performance_history w; sent := sent w |}.

Definition set_monitor_thread (i : option nat) (w : process) : process :=
  {| threads := threads w; monitor_thread := i; LIVE_STATS := LIVE_STATS w;
     performance_history := performance_history w; sent := sent w |}.

Definition emit (m : message) (w : process) : process :=
  {| threads := threads w; monitor_thread := monitor_thread w;
     LIVE_STATS := LIVE_STATS w;
     performance_history := performance_history w; sent := (sent w ++ [m])%list |}.

(** Apply a method to the object at position [i]. *)
Definition on_thread (i : nat) (f : MikroTikMonitor -> MikroTikMonitor)
    (w : process) : process :=
  set_threads (alter f i (threads w)) w.

(** [monitor_thread and monitor_thread.is_alive()], with the position. *)
Definition live_monitor (w : process) : option nat :=
  i ← monitor_thread w;
  m ← threads w !! i;
  if is_alive m then Some i else None.

(** The fields of the [connect_mikrotik] payload. *)
Record payload := {
  data_ip : string; data_username : string; data_password : string;
  data_interfaces : list string
}.

(** The steps of a handler, as recorded in its log. *)
Inductive step :=
| StopFlag (i : nat)        (* [self.running = False] *)
| Release (i : nat)         (* [self.disconnect()] *)
| Join (i : nat)            (* [monitor_thread.join()] returned: loop ended *)
| Construct (i : nat)       (* [monitor_thread = MikroTikMonitor(...)] *)
| Configure (i : nat)       (* [.interfaces_to_monitor = interfaces] *)
| Connect (i : nat) (ok : bool)
| Start (i : nat)           (* [.start()] *)
| Emit (m : message).

(** A handler runs under [thread_lock]: it transforms the process and logs
    each step with the process as it is right after that step. *)
Definition handler (A : Type) : Type := process -> A * process * list (step * process).

Definition ret {A} (a : A) : handler A := fun w => (a, w, []).

Definition bind {A B} (m : handler A) (f : A -> handler B) : handler B :=
  fun w =>
    let '(a, w1, log1) := m w in
    let '(b, w2, log2) := f a w1 in
    (b, w2, (log1 ++ log2)%list).

Definition perform (s : step) (f : process -> process) : handler unit :=
  fun w => (tt, f w, [(s, f w)]).

Definition read {A} (f : process -> A) : handler A := fun w => (f w, w, []).

Declare Scope handler_scope.
Delimit Scope handler_scope with handler.
Notation "x <- m ;; k" := (bind m (fun x => k))
  (at level 100, m at next level, right associativity) : handler_scope.
Notation "m ;; k" := (bind m (fun _ => k))
  (at level 100, right associativity) : handler_scope.

Local Open Scope handler_scope.

(** [monitor_thread.stop()] then [monitor_thread.join()], for a loop that
    is between two iterations: it sees the flag at its next test and ends,
    and [join()] returns. For a loop at work see [under_lock]. *)
Definition stop_and_join (i : nat) : handler unit :=
  perform (StopFlag i) (on_thread i (set_running false)) ;;
  perform (Release i) (on_thread i disconnect) ;;
  perform (Join i) (on_thread i (set_is_alive false)).

(** [connect_mikrotik_via_socket(data)]; [o] is how the login to the router
    ends. *)
Definition connect_mikrotik_via_socket (data : payload) (o : login) : handler unit :=
  old <- read live_monitor ;;
  match old with Some i => stop_and_join i | None => ret tt end ;;
  new <- read (fun w => length (threads w)) ;;
  perform (Construct new)
     (fun w => set_monitor_thread (Some new)
                 (set_threads (threads w ++ [init (data_ip data) (data_username data)
                                                   (data_password data)])%list w)) ;;
  perform (Configure new) (on_thread new (set_interfaces_to_monitor (data_interfaces data))) ;;
  let ok := match o with LoggedIn => true | _ => false end in
  perform (Connect new ok) (on_thread new (fun m => snd (connect o m))) ;;
  if ok then
    perform (Start new) (on_thread new (set_is_alive true)) ;;
    perform (Emit (connection_status success "Monitoring started"))
       (emit (connection_status success "Monitoring started"))
  else
    perform (Emit (connection_status error "Failed to connect to MikroTik"))
       (emit (connection_status error "Failed to connect to MikroTik")).

(** [disconnect_mikrotik()]. *)
Definition disconnect_mikrotik : handler unit :=
  old <- read live_monitor ;;
  match old with
  | Some i =>
      stop_and_join i ;;
      perform (Emit (connection_status success "Monitoring stopped"))
         (emit (connection_status success "Monitoring stopped"))
  | None => ret tt
  end.

(** An effect of an iteration, applied to the globals. *)
Definition apply_effect (w : process) (e : effect) : process :=
  match e with
  | SetLiveStats stats =>
      {| threads := threads w; monitor_thread := monitor_thread w;
         LIVE_STATS := stats;
         performance_history := performance_history w; sent := sent w |}
  | EmitLiveStats stats => emit (live_stats success stats) w
  | Insert rows =>
      {| threads := threads w; monitor_thread := monitor_thread w;
         LIVE_STATS := LIVE_STATS w;
         performance_history := (performance_history w ++ rows)%list; sent := sent w |}
  | Sleep _ => w
  end.

(** One iteration of the loop of thread [i], applied to the process. A
    thread that is not alive, or whose flag is down, does not iterate; a
    thread whose iteration raises is not alive afterwards. *)
Definition thread_iteration (i : nat) (k : tick) (w : process) : process :=
  match threads w !! i with
  | Some self =>
      if is_alive self && running self then
        let it := run_iteration k self in
        let self' := if completed it then after it else set_is_alive false (after it) in
        fold_left apply_effect (effects it) (on_thread i (fun _ => self') w)
      else w
  | None => w
  end.

(** What can happen to the process, each request being handled between
    two iterations of the loop. *)
Inductive event :=
| OnConnect (data : payload) (o : login)
| OnDisconnect
| Iterate (i : nat) (k : tick).

Definition react (w : process) (e : event) : process :=
  match e with
  | OnConnect data o => snd (fst (connect_mikrotik_via_socket data o w))
  | OnDisconnect => snd (fst (disconnect_mikrotik w))
  | Iterate i k => thread_iteration i k w
  end.

Definition run_events (l : list event) : process := fold_left react l boot.

(** A monitor that holds a device handle while its loop is alive. *)
Definition holds_handle (m : MikroTikMonitor) : bool :=
  is_alive m && match connection m with Some Open => true | _ => false end.

(** At most one loop is alive. *)
Definition at_most_one_live (w : process) : Prop :=
  forall i j mi mj,
    threads w !! i = Some mi -> threads w !! j = Some mj ->
    is_alive mi = true -> is_alive mj = true -> i = j.

(** At most one live loop holds a device handle. *)
Definition at_most_one_handle (w : process) : Prop :=
  forall i j mi mj,
    threads w !! i = Some mi -> threads w !! j = Some mj ->
    holds_handle mi = true -> holds_handle mj = true -> i = j.

(** No loop is alive. *)
Definition quiet (l : list MikroTikMonitor) : Prop :=
  forall j m, l !! j = Some m -> is_alive m = false.

(** No loop is alive, except possibly the one at position [i]. *)
Definition only_live (i : nat) (l : list MikroTikMonitor) : Prop :=
  forall j m, l !! j = Some m -> is_alive m = true -> j = i.

(** The invariant of the process: a loop that is alive is the one the
    global [monitor_thread] refers to. *)
Definition tidy (w : process) : Prop :=
  forall j m, threads w !! j = Some m -> is_alive m = true -> monitor_thread w = Some j.

(** The session at position [i] is over: flag down, handle released, loop
    ended. *)
Definition stopped (i : nat) (w : process) : Prop :=
  exists m, threads w !! i = Some m /\
            running m = false /\ connection m <> Some Open /\ is_alive m = false.

(** What holds of the process right after a logged step of a handler that
    found the session [old] alive: at most one live loop, at most one live
    loop with a handle and, from the [Join] on, the old session is over. *)
Definition orderly (old : option nat) (s : step) (w : process) : Prop :=
  at_most_one_live w /\ at_most_one_handle w /\
  match old, s with
  | Some i, (StopFlag _ | Release _) => True
  | Some i, _ => stopped i w
  | None, _ => True
  end.

(** The process once the handler has made the object at position [new]
    the current monitor: only that one may be alive, and the session [old]
    found alive at the start is over. *)
Definition replaced (old : option nat) (new : nat) (w : process) : Prop :=
  only_live new (threads w) /\ monitor_thread w = Some new /\
  forall i, old = Some i -> stopped i w /\ new <> i.


(** A handler started where [P] holds ends where [Q] holds of its result,
    and [I] holds right after each of its steps. *)
Definition hoare {A} (P : process -> Prop) (m : handler A)
    (Q : A -> process -> Prop) (I : step -> process -> Prop) : Prop :=
  forall w, P w ->
    Q (fst (fst (m w))) (snd (fst (m w))) /\
    Forall (fun sw => I (fst sw) (snd sw)) (snd (m w)).

(** Every live loop has its flag up, an open connection and an api
    object. *)
Definition healthy (l : list MikroTikMonitor) : Prop :=
  forall j m, l !! j = Some m -> is_alive m = true ->
              running m = true /\ connection m = Some Open /\ api m = Some tt.

(** The interfaces an iteration of [run] polls (line 180), and the snapshot
    it takes of them (line 181). *)
Definition polled_interfaces (k : tick) (self : MikroTikMonitor) : list string :=
  match interfaces_to_monitor self with
  | [] => fst (get_all_interfaces (router k) (relogin k) self)
  | l => l
  end.

Definition snapshot (k : tick) (self : MikroTikMonitor) : stats_dict :=
  fst (get_interface_stats (router k) (time_stats k) (hms k) (polled_interfaces k self) self).

(** ** Requests and iterations, interleaved *)

(** Lines 180-181 of an iteration: the interfaces, then their snapshot. *)
Definition poll (k : tick) (self : MikroTikMonitor) : stats_dict * MikroTikMonitor :=
  let '(interfaces, self) :=
    match interfaces_to_monitor self with
    | [] => get_all_interfaces (router k) (relogin k) self
    | l => (l, self)
    end in
  get_interface_stats (router k) (time_stats k) (hms k) interfaces self.

(** Lines 182-191 of an iteration, from the moment the loop has
    [thread_lock]. *)
Definition publish (k : tick) (stats : stats_dict) (self : MikroTikMonitor) : iteration :=
  let broadcast := [SetLiveStats stats; EmitLiveStats stats] in
  if save_due_at (time_check k) self then
    match save_to_db (stamp k) stats with
    | Some rows =>
        {| after := set_last_db_save (time_saved k) self;
           effects := (broadcast ++ [Insert rows; Sleep (interval self)])%list;
           completed := true |}
    | None => {| after := self; effects := broadcast; completed := false |}
    end
  else
    {| after := self; effects := (broadcast ++ [Sleep (interval self)])%list;
       completed := true |}.

(** [thread_lock] is held by a handler for its whole body, [join()]
    included, and by a loop for the assignment of line 184 only. A loop is
    therefore followed through an iteration in two moves: it polls (lines
    178-181, no lock), then it publishes (lines 182-191, which start by
    taking the lock). [polling] holds the loops that have passed the test
    of line 178 and have not yet been given the lock of line 182, each with
    its [stats]; [joining] is the loop for which a handler waits in
    [join()], the lock in its hand. *)
Record world := {
  globals : process;
  polling : gmap nat stats_dict;
  joining : option nat
}.

(** What can happen to the world: a request arrives, a loop passes the test
    of [while self.running] and polls, a loop that has polled asks for the
    lock and publishes. A request that arrives while the loop polls finds
    it at work whatever the poll has done so far: that is the request
    arriving after [Poll], and what the poll returns no longer matters, the
    loop never publishing it. A request that arrives while a loop is past
    line 184 has its handler wait in [join()] until the iteration is over:
    that is the request arriving after [Publish]. *)
Inductive move :=
| Start_request (data : payload) (o : login)
| Stop_request
| Poll (i : nat) (k : tick)
| Publish (i : nat) (k : tick).

(** Where a handler stops for good: at its first [join()] on a loop that is
    at work, since that loop will ask for the lock the handler holds. The
    result is that loop, the steps done before, and the process as they
    leave it. *)
Fixpoint blocked_at (busy : nat -> bool) (w : process) (log : list (step * process))
    : option (nat * list (step * process) * process) :=
  match log with
  | [] => None
  | (s, w') :: rest =>
      match (match s with Join i => if busy i then Some i else None | _ => None end) with
      | Some i => Some (i, [], w)
      | None =>
          match blocked_at busy w' rest with
          | Some (j, done, g) => Some (j, (s, w') :: done, g)
          | None => None
          end
      end
  end.

(** The loop [i] is in an iteration and has not published yet. *)
Definition at_work (w : world) (i : nat) : bool :=
  bool_decide (is_Some (polling w !! i)).

(** A handler, from [with thread_lock:] on. While a handler waits in
    [join()] the lock is never given to another one. *)
Definition under_lock (m : handler unit) (w : world) : world * list (step * process) :=
  match joining w with
  | Some _ => (w, [])
  | None =>
      match blocked_at (at_work w) (globals w) (snd (m (globals w))) with
      | Some (i, done, g) =>
          ({| globals := g; polling := polling w; joining := Some i |}, done)
      | None =>
          ({| globals := snd (fst (m (globals w))); polling := polling w; joining := None |},
           snd (m (globals w)))
      end
  end.

(** The loop of thread [i] passes the test of line 178 and polls. *)
Definition begin_iteration (i : nat) (k : tick) (w : world) : world :=
  match threads (globals w) !! i, polling w !! i with
  | Some self, None =>
      if is_alive self && running self then
        match api self with
        | Some _ =>
            let '(stats, self) := poll k self in
            {| globals := on_thread i (fun _ => self) (globals w);
               polling := <[i := stats]> (polling w);
               joining := joining w |}
        | None => w
        end
      else w
  | _, _ => w
  end.

(** The loop of thread [i] is given the lock and goes through lines
    182-191; it is not given it while a handler waits in [join()]. *)
Definition end_iteration (i : nat) (k : tick) (w : world) : world :=
  match joining w, polling w !! i, threads (globals w) !! i with
  | None, Some stats, Some self =>
      let it := publish k stats self in
      let self' := if completed it then after it else set_is_alive false (after it) in
      {| globals := fold_left apply_effect (effects it)
                      (on_thread i (fun _ => self') (globals w));
         polling := delete i (polling w);
         joining := None |}
  | _, _, _ => w
  end.

(** One move. *)
Definition act (w : world) (mv : move) : world :=
  match mv with
  | Start_request data o => fst (under_lock (connect_mikrotik_via_socket data o) w)
  | Stop_request => fst (under_lock disconnect_mikrotik w)
  | Poll i k => begin_iteration i k w
  | Publish i k => end_iteration i k w
  end.

(** The world when the module has been loaded. *)
Definition booted : world := {| globals := boot; polling := ∅; joining := None |}.

(** The world after the moves [l], from the loading of the module. *)
Definition run_moves (l : list move) : world := fold_left act l booted.

(** An event of [react], as moves: the iteration of [Iterate] is one that
    no request interrupts. *)
Definition moves_of (e : event) : list move :=
  match e with
  | OnConnect data o => [Start_request data o]
  | OnDisconnect => [Stop_request]
  | Iterate i k => [Poll i k; Publish i k]
  end.

(** The invariant of the world: the process is tidy, a loop at work is
    alive, and a handler waits in [join()] only for a loop at work. *)
Definition sound (w : world) : Prop :=
  tidy (globals w) /\
  (forall i, is_Some (polling w !! i) ->
             exists m, threads (globals w) !! i = Some m /\ is_alive m = true) /\
  (forall i, joining w = Some i -> is_Some (polling w !! i)).

(** ** Reports *)

(** [timestamp BETWEEN ? AND ?] on TEXT values, compared byte by byte. A
    bound that the request does not give is NULL, and selects no row. *)
Definition between (start_date end_date : option string) (row : Hist.t) : bool :=
  match start_date, end_date with
  | Some lo, Some hi =>
      String.leb lo (Hist.timestamp row) && String.leb (Hist.timestamp row) hi
  | _, _ => false
  end.

(** [ORDER BY timestamp]. *)
Definition by_timestamp (a b : Hist.t) : Prop :=
  String.le (Hist.timestamp a) (Hist.timestamp b).

#[local] Instance by_timestamp_dec : RelDecision by_timestamp.
Proof. intros a b. unfold by_timestamp. apply _. Defined.

(** The rows of [SELECT * FROM performance_history WHERE timestamp BETWEEN
    ? AND ? ORDER BY timestamp]. The order among rows of equal timestamp is
    the engine's choice; it is here the one of a merge sort, and nothing
    proved below depends on it. *)
Definition select_report (start_date end_date : option string)
    (table : list Hist.t) : list Hist.t :=
  merge_sort by_timestamp (List.filter (between start_date end_date) table).

(** [get_report_data()]: the ["data"] of the JSON answer, whose ["status"]
    is always ["success"]. *)
Definition get_report_data (start_date end_date : option string) (w : process) : list Hist.t :=
  select_report start_date end_date (performance_history w).

(** [download_report_pdf()]: status 404 without a row, else the document
    made from the rows. *)
Inductive pdf_response := not_found_404 | pdf_document (report_data : list Hist.t).

Definition download_report_pdf (start_date end_date : option string) (w : process) : pdf_response :=
  match get_report_data start_date end_date w with
  | [] => not_found_404
  | report_data => pdf_document report_data
  end.

(** ** The shape of the display strings *)

(** A decimal digit, as [uint_of_char] reads it. *)
Definition is_digit (c : ascii) : bool :=
  match uint_of_char c (Some Decimal.Nil) with Some _ => true | None => false end.

Fixpoint all_digits (s : string) : bool :=
  match s with
  | String c rest => is_digit c && all_digits rest
  | EmptyString => true
  end.

(** The numbers the formatters print: an optional minus sign, at least one
    digit, and optionally a dot followed by digits. *)
Definition sign_text (negative : bool) : string := if negative then "-" else "".

Definition decimals_text (decimals : option string) : string :=
  match decimals with Some d => "." ++ d | None => "" end.

Definition number_text (negative : bool) (c : ascii) (u : string)
    (decimals : option string) : string :=
  sign_text negative ++ String c u ++ decimals_text decimals.

Definition well_formed (c : ascii) (u : string) (decimals : option string) : Prop :=
  all_digits (String c u) = true /\
  match decimals with Some d => all_digits d = true | None => True end.

Fixpoint no_space (s : string) : bool :=
  match s with
  | String c rest => negb (is_space c) && no_space rest
  | EmptyString => true
  end.

(** * Properties *)

(** ** Python numbers *)

Lemma Qltb_lt (x y : Q) : Qltb x y = true <-> (x < y)%Q.
Proof.
  unfold Qltb. rewrite negb_true_iff, <- not_true_iff_false, Qle_bool_iff.
  split; [apply Qnot_le_lt | apply Qlt_not_le].
Qed.

Lemma Qltb_ge (x y : Q) : Qltb x y = false <-> (y <= x)%Q.
Proof. unfold Qltb. rewrite negb_false_iff. apply Qle_bool_iff. Qed.

Lemma py_truediv_nonzero (x y : Q) : ~ (y == 0)%Q -> py_truediv x y = Some (x / y)%Q.
Proof.
  intros Hy. unfold py_truediv.
  destruct (Qeq_bool y 0) eqn:E; [|reflexivity].
  apply Qeq_bool_iff in E. contradiction.
Qed.

Lemma Qlt_0_nonzero (d : Q) : (0 < d)%Q -> ~ (d == 0)%Q.
Proof. intros Hd E. rewrite E in Hd. exact (Qlt_irrefl 0 Hd). Qed.

(** ** The rate computation *)

Section Rates.
Variables (previous : previous_table) (iface : string) (current_time : Q).

Lemma rates_first_sample rx tx :
  previous !! iface = None -> rates previous iface current_time rx tx = Some (0, 0)%Q.
Proof. intros H. unfold rates. now rewrite H. Qed.

Lemma rates_no_elapsed_time prev rx tx :
  previous !! iface = Some prev ->
  (current_time - Prev.timestamp prev <= 0)%Q ->
  rates previous iface current_time rx tx = Some (0, 0)%Q.
Proof.
  intros H Hd. unfold rates. rewrite H. cbv zeta.
  apply Qltb_ge in Hd. now rewrite Hd.
Qed.

Lemma rates_elapsed_time prev rx tx :
  previous !! iface = Some prev ->
  (0 < current_time - Prev.timestamp prev)%Q ->
  rates previous iface current_time rx tx =
    Some (inject_Z (rx - Prev.rx_bytes prev) / (current_time - Prev.timestamp prev) * 8,
          inject_Z (tx - Prev.tx_bytes prev) / (current_time - Prev.timestamp prev) * 8)%Q.
Proof.
  intros H Hd. unfold rates. rewrite H. cbv zeta.
  rewrite (proj2 (Qltb_lt _ _) Hd).
  now rewrite !py_truediv_nonzero by (apply Qlt_0_nonzero, Hd).
Qed.

(** The guard of line 132 keeps the division from ever raising. *)
Lemma rates_never_raise rx tx :
  is_Some (rates previous iface current_time rx tx).
Proof.
  destruct (previous !! iface) as [prev|] eqn:H.
  - destruct (Qlt_le_dec 0 (current_time - Prev.timestamp prev)) as [Hd|Hd].
    + erewrite rates_elapsed_time by eassumption. eauto.
    + erewrite rates_no_elapsed_time by eassumption. eauto.
  - rewrite rates_first_sample by assumption. eauto.
Qed.

Lemma try_fetch_read first rest rx tx :
  py_int (rx_byte first) = Some rx -> py_int (tx_byte first) = Some tx ->
  exists rx_s tx_s,
    rates previous iface current_time rx tx = Some (rx_s, tx_s) /\
    try_fetch previous iface current_time (Returns (first :: rest)) =
      ({| rx_speed := rx_s; tx_speed := tx_s; rx_total := rx; tx_total := tx |},
       <[iface := sample rx tx current_time]> previous).
Proof.
  intros Hrx Htx. unfold try_fetch. rewrite Hrx, Htx.
  destruct (rates_never_raise rx tx) as [[rx_s tx_s] E].
  exists rx_s, tx_s. now rewrite E.
Qed.

Lemma try_fetch_not_fetched r :
  fetched r = false -> try_fetch previous iface current_time r = (locals0, previous).
Proof.
  destruct r as [|[|first rest]]; simpl; try reflexivity.
  destruct (py_int (rx_byte first)); [|reflexivity].
  destruct (py_int (tx_byte first)); [discriminate|reflexivity].
Qed.
End Rates.

Lemma scaled_quotient (n : Z) (d : Q) :
  (0 < d)%Q -> (inject_Z n / d * 8 == inject_Z n * 8 / d)%Q.
Proof. intros Hd. field. now apply Qlt_0_nonzero. Qed.

Lemma scaled_quotient_sign (n : Z) (d : Q) :
  (0 < d)%Q ->
  ((0 <= n)%Z -> (0 <= inject_Z n / d * 8)%Q) /\
  ((n < 0)%Z -> (inject_Z n / d * 8 < 0)%Q).
Proof.
  intros Hd. split; intros Hn.
  - apply Qmult_le_0_compat; [|discriminate].
    apply Qle_shift_div_l; [assumption|].
    rewrite Qmult_0_l. rewrite Zle_Qle in Hn. exact Hn.
  - assert (E : (inject_Z n / d * 8 == - (inject_Z (- n) / d * 8))%Q).
    { rewrite inject_Z_opp. field. now apply Qlt_0_nonzero. }
    rewrite E. apply (Qopp_lt_compat 0). apply Qmult_lt_0_compat; [|reflexivity].
    apply Qlt_shift_div_l; [assumption|].
    rewrite Qmult_0_l. assert (H : (0 < - n)%Z) by lia.
    rewrite Zlt_Qlt in H. exact H.
Qed.

(** The locals after a [try] block that read both counters while a previous
    sample existed and time had advanced. *)
Lemma try_fetch_elapsed_time (previous : previous_table) iface prev current_time
    first rest rx tx :
  previous !! iface = Some prev ->
  py_int (rx_byte first) = Some rx -> py_int (tx_byte first) = Some tx ->
  (0 < current_time - Prev.timestamp prev)%Q ->
  try_fetch previous iface current_time (Returns (first :: rest)) =
    ({| rx_speed := inject_Z (rx - Prev.rx_bytes prev) / (current_time - Prev.timestamp prev) * 8;
        tx_speed := inject_Z (tx - Prev.tx_bytes prev) / (current_time - Prev.timestamp prev) * 8;
        rx_total := rx; tx_total := tx |},
     <[iface := sample rx tx current_time]> previous).
Proof.
  intros Hp Hrx Htx Hd.
  destruct (try_fetch_read previous iface current_time first rest rx tx Hrx Htx)
    as (rx_s & tx_s & Hr & ->).
  rewrite (rates_elapsed_time _ _ _ prev) in Hr by assumption.
  now injection Hr as <- <-.
Qed.

(** C4. For two successive samples of one interface, with a current counter
    that is not below the previous one and a positive elapsed time
    [deltaT], the rate is [(current - previous) * 8 / deltaT] bits per
    second, which is not negative; for rx and, symmetrically, for tx. *)
Theorem rate_of_successive_samples (previous : previous_table) iface prev current_time
    first rest rx tx :
  previous !! iface = Some prev ->
  py_int (rx_byte first) = Some rx -> py_int (tx_byte first) = Some tx ->
  (0 < current_time - Prev.timestamp prev)%Q ->
  let deltaT := (current_time - Prev.timestamp prev)%Q in
  let l := fst (try_fetch previous iface current_time (Returns (first :: rest))) in
  ((Prev.rx_bytes prev <= rx)%Z ->
     (rx_speed l == inject_Z (rx - Prev.rx_bytes prev) * 8 / deltaT)%Q /\ (0 <= rx_speed l)%Q)
  /\
  ((Prev.tx_bytes prev <= tx)%Z ->
     (tx_speed l == inject_Z (tx - Prev.tx_bytes prev) * 8 / deltaT)%Q /\ (0 <= tx_speed l)%Q).
Proof.
  intros Hp Hrx Htx Hd deltaT l. subst l deltaT.
  rewrite (try_fetch_elapsed_time _ _ prev _ _ _ rx tx) by assumption. simpl.
  split; intros Hle; (split; [now apply scaled_quotient|]);
    apply scaled_quotient_sign; [assumption|lia|assumption|lia].
Qed.

Lemma rate_of_successive_samples_witness :
  let previous : previous_table := {[ "ether1" := sample 1000 500 100 ]} in
  let l := fst (try_fetch previous "ether1" 102
                  (Returns [{| rx_byte := IntText 3000; tx_byte := IntText 700 |}])) in
  ((1000 <= 3000)%Z -> (rx_speed l == inject_Z (3000 - 1000) * 8 / (102 - 100))%Q /\ (0 <= rx_speed l)%Q)
  /\
  ((500 <= 700)%Z -> (tx_speed l == inject_Z (700 - 500) * 8 / (102 - 100))%Q /\ (0 <= tx_speed l)%Q).
Proof.
  apply (rate_of_successive_samples {[ "ether1" := sample 1000 500 100 ]} "ether1"
           (sample 1000 500 100) 102 {| rx_byte := IntText 3000; tx_byte := IntText 700 |}
           [] 3000 700); reflexivity.
Defined.

(** C1, as the code has it. When the current counter is strictly below the
    previous one, the rate is exactly 0 only if no time has elapsed; with a
    positive elapsed time [deltaT] it is the signed quotient
    [(current - previous) * 8 / deltaT], which is negative: nothing clamps
    it. For rx and, symmetrically, for tx. *)
Theorem rate_on_counter_reset (previous : previous_table) iface prev current_time
    first rest rx tx :
  previous !! iface = Some prev ->
  py_int (rx_byte first) = Some rx -> py_int (tx_byte first) = Some tx ->
  let deltaT := (current_time - Prev.timestamp prev)%Q in
  let l := fst (try_fetch previous iface current_time (Returns (first :: rest))) in
  ((rx < Prev.rx_bytes prev)%Z ->
     ((deltaT <= 0)%Q -> rx_speed l = 0%Q) /\
     ((0 < deltaT)%Q ->
        (rx_speed l == inject_Z (rx - Prev.rx_bytes prev) * 8 / deltaT)%Q /\ (rx_speed l < 0)%Q))
  /\
  ((tx < Prev.tx_bytes prev)%Z ->
     ((deltaT <= 0)%Q -> tx_speed l = 0%Q) /\
     ((0 < deltaT)%Q ->
        (tx_speed l == inject_Z (tx - Prev.tx_bytes prev) * 8 / deltaT)%Q /\ (tx_speed l < 0)%Q)).
Proof.
  intros Hp Hrx Htx deltaT l. subst l deltaT.
  assert (Hstill : (current_time - Prev.timestamp prev <= 0)%Q ->
                   fst (try_fetch previous iface current_time (Returns (first :: rest))) =
                     {| rx_speed := 0; tx_speed := 0; rx_total := rx; tx_total := tx |}).
  { intros Hd.
    destruct (try_fetch_read previous iface current_time first rest rx tx Hrx Htx)
      as (rx_s & tx_s & Hr & ->).
    rewrite (rates_no_elapsed_time _ _ _ prev) in Hr by assumption.
    now injection Hr as <- <-. }
  split; intros Hlt; split; intros Hd.
  - now rewrite Hstill.
  - rewrite (try_fetch_elapsed_time _ _ prev _ _ _ rx tx) by assumption. simpl.
    split; [now apply scaled_quotient|]. apply scaled_quotient_sign; [assumption|lia].
  - now rewrite Hstill.
  - rewrite (try_fetch_elapsed_time _ _ prev _ _ _ rx tx) by assumption. simpl.
    split; [now apply scaled_quotient|]. apply scaled_quotient_sign; [assumption|lia].
Qed.

Lemma rate_on_counter_reset_witness :
  let previous : previous_table := {[ "ether1" := sample 1000 500 100 ]} in
  let l := fst (try_fetch previous "ether1" 101
                  (Returns [{| rx_byte := IntText 0; tx_byte := IntText 100 |}])) in
  ((0 < 1000)%Z ->
     ((101 - 100 <= 0)%Q -> rx_speed l = 0%Q) /\
     ((0 < 101 - 100)%Q -> (rx_speed l == inject_Z (0 - 1000) * 8 / (101 - 100))%Q /\ (rx_speed l < 0)%Q))
  /\
  ((100 < 500)%Z ->
     ((101 - 100 <= 0)%Q -> tx_speed l = 0%Q) /\
     ((0 < 101 - 100)%Q -> (tx_speed l == inject_Z (100 - 500) * 8 / (101 - 100))%Q /\ (tx_speed l < 0)%Q)).
Proof.
  apply (rate_on_counter_reset {[ "ether1" := sample 1000 500 100 ]} "ether1"
           (sample 1000 500 100) 101 {| rx_byte := IntText 0; tx_byte := IntText 100 |}
           [] 0 100); reflexivity.
Defined.

(** C1, as stated, fails: the router restarted, its rx counter fell from
    1000 to 0 within one second, and the rate is -8000 bits per second,
    shown as ["-8000 bps"]. *)
Lemma counter_reset_gives_negative_rate :
  let previous : previous_table := {[ "ether1" := sample 1000 500 100 ]} in
  let l := fst (try_fetch previous "ether1" 101
                  (Returns [{| rx_byte := IntText 0; tx_byte := IntText 700 |}])) in
  previous !! "ether1" = Some (sample 1000 500 100) /\
  (0 < 1000)%Z /\
  (rx_speed l == -8000)%Q /\
  ~ (rx_speed l == 0)%Q /\
  format_speed (rx_speed l) = "-8000 bps".
Proof. vm_compute. repeat split. discriminate. Qed.

(** C5. When the elapsed time since the previous sample is zero or negative,
    the division is not performed: nothing raises, although a division by
    an elapsed time of 0 would; both rates keep the value 0, shown as
    ["0 bps"], and the sample still becomes the new baseline. *)
Theorem no_rate_without_elapsed_time (previous : previous_table) iface prev current_time
    first rest rx tx :
  previous !! iface = Some prev ->
  py_int (rx_byte first) = Some rx -> py_int (tx_byte first) = Some tx ->
  (current_time - Prev.timestamp prev <= 0)%Q ->
  rates previous iface current_time rx tx = Some (0, 0)%Q /\
  try_fetch previous iface current_time (Returns (first :: rest)) =
    ({| rx_speed := 0; tx_speed := 0; rx_total := rx; tx_total := tx |},
     <[iface := sample rx tx current_time]> previous) /\
  format_speed 0 = "0 bps" /\
  ((current_time - Prev.timestamp prev == 0)%Q ->
   forall x, py_truediv x (current_time - Prev.timestamp prev) = None).
Proof.
  intros Hp Hrx Htx Hd.
  pose proof (rates_no_elapsed_time previous iface current_time prev rx tx Hp Hd) as Hr.
  split; [exact Hr|]. split; [|split; [reflexivity|]]; cycle 1.
  { intros H0 x. unfold py_truediv. apply Qeq_bool_iff in H0. now rewrite H0. }
  destruct (try_fetch_read previous iface current_time first rest rx tx Hrx Htx)
    as (rx_s & tx_s & Hr' & ->).
  rewrite Hr in Hr'. now injection Hr' as <- <-.
Qed.

Lemma no_rate_without_elapsed_time_witness :
  let previous : previous_table := {[ "ether1" := sample 1000 500 100 ]} in
  rates previous "ether1" 100 3000 700 = Some (0, 0)%Q /\
  try_fetch previous "ether1" 100
    (Returns [{| rx_byte := IntText 3000; tx_byte := IntText 700 |}]) =
    ({| rx_speed := 0; tx_speed := 0; rx_total := 3000; tx_total := 700 |},
     <["ether1" := sample 3000 700 100]> previous) /\
  format_speed 0 = "0 bps" /\
  ((100 - 100 == 0)%Q -> forall x, py_truediv x (100 - 100) = None).
Proof.
  apply (no_rate_without_elapsed_time {[ "ether1" := sample 1000 500 100 ]} "ether1"
           (sample 1000 500 100) 100 {| rx_byte := IntText 3000; tx_byte := IntText 700 |}
           [] 3000 700); [reflexivity|reflexivity|reflexivity|discriminate].
Defined.

Section Batch.
Variables (r : iface_resource) (current_time : Q) (hms : string -> string).

Lemma try_fetch_other_key (previous : previous_table) iface reply other :
  iface <> other ->
  snd (try_fetch previous iface current_time reply) !! other = previous !! other.
Proof.
  intros Hne. unfold try_fetch.
  destruct reply as [|[|first rest]]; try reflexivity.
  destruct (py_int (rx_byte first)) as [rx|]; [|reflexivity].
  destruct (py_int (tx_byte first)) as [tx|]; [|reflexivity].
  destruct (rates previous iface current_time rx tx) as [[rx_s tx_s]|]; [|reflexivity].
  cbn [snd]. now apply lookup_insert_ne.
Qed.

Lemma poll_iface_stats acc iface :
  fst (poll_iface r current_time hms acc iface) =
    <[iface := entry (fst (try_fetch (snd acc) iface current_time (get_name r iface)))
                 (hms iface)]>
      (fst acc).
Proof.
  destruct acc as [stats previous]. unfold poll_iface. cbn [fst snd].
  now destruct (try_fetch previous iface current_time (get_name r iface)).
Qed.

Lemma poll_iface_previous acc iface :
  snd (poll_iface r current_time hms acc iface) =
    snd (try_fetch (snd acc) iface current_time (get_name r iface)).
Proof.
  destruct acc as [stats previous]. unfold poll_iface. cbn [fst snd].
  now destruct (try_fetch previous iface current_time (get_name r iface)).
Qed.

(** Every requested interface gets an entry. *)
Lemma fold_poll_present (interfaces : list string) acc iface :
  iface ∈ interfaces ->
  is_Some (fst (fold_left (poll_iface r current_time hms) interfaces acc) !! iface).
Proof.
  induction interfaces as [|x l IH] using rev_ind; intros Hin.
  - now apply elem_of_nil in Hin.
  - rewrite fold_left_app. cbn [fold_left]. rewrite poll_iface_stats.
    destruct (decide (x = iface)) as [->|Hne].
    + rewrite lookup_insert_eq. eauto.
    + rewrite lookup_insert_ne by assumption. apply IH.
      apply elem_of_app in Hin as [Hin|Hin]; [assumption|].
      apply list_elem_of_singleton in Hin. congruence.
Qed.

(** An interface whose counters were not read gets the zero entry. *)
Lemma fold_poll_not_fetched (interfaces : list string) acc iface :
  iface ∈ interfaces -> fetched (get_name r iface) = false ->
  fst (fold_left (poll_iface r current_time hms) interfaces acc) !! iface =
    Some (entry locals0 (hms iface)).
Proof.
  induction interfaces as [|x l IH] using rev_ind; intros Hin Hf.
  - now apply elem_of_nil in Hin.
  - rewrite fold_left_app. cbn [fold_left]. rewrite poll_iface_stats.
    destruct (decide (x = iface)) as [->|Hne].
    + rewrite lookup_insert_eq. now rewrite try_fetch_not_fetched.
    + rewrite lookup_insert_ne by assumption. apply IH; [|assumption].
      apply elem_of_app in Hin as [Hin|Hin]; [assumption|].
      apply list_elem_of_singleton in Hin. congruence.
Qed.

(** Only an interface that was requested and read has its sample replaced. *)
Lemma fold_poll_previous_frame (interfaces : list string) acc iface :
  iface ∉ interfaces \/ fetched (get_name r iface) = false ->
  snd (fold_left (poll_iface r current_time hms) interfaces acc) !! iface =
    snd acc !! iface.
Proof.
  induction interfaces as [|x l IH] using rev_ind; intros H; [reflexivity|].
  rewrite fold_left_app. cbn [fold_left]. rewrite poll_iface_previous.
  destruct (decide (x = iface)) as [->|Hne].
  - destruct H as [Hnin|Hf].
    + exfalso. apply Hnin. apply elem_of_app. right. now apply list_elem_of_singleton.
    + rewrite try_fetch_not_fetched by assumption. cbn [snd]. apply IH. now right.
  - rewrite try_fetch_other_key by assumption. apply IH.
    destruct H as [Hnin|Hf]; [left|now right].
    intros Hin. apply Hnin. apply elem_of_app. now left.
Qed.

(** Every entry of the snapshot is made by [entry]. *)
Lemma fold_poll_entries (interfaces : list string) acc :
  (forall i e, fst acc !! i = Some e -> exists l, e = entry l (hms i)) ->
  forall i e, fst (fold_left (poll_iface r current_time hms) interfaces acc) !! i = Some e ->
              exists l, e = entry l (hms i).
Proof.
  induction interfaces as [|x l IH] using rev_ind; intros Hacc i e; [apply Hacc|].
  rewrite fold_left_app. cbn [fold_left]. rewrite poll_iface_stats.
  destruct (decide (x = i)) as [->|Hne].
  - rewrite lookup_insert_eq. intros [= <-]. eauto.
  - rewrite lookup_insert_ne by assumption. now apply IH.
Qed.
(** The [try] block looks at the table only under the key [iface]. *)
Lemma try_fetch_local (p1 p2 : previous_table) iface reply :
  p1 !! iface = p2 !! iface ->
  fst (try_fetch p1 iface current_time reply) = fst (try_fetch p2 iface current_time reply) /\
  snd (try_fetch p1 iface current_time reply) !! iface =
    snd (try_fetch p2 iface current_time reply) !! iface.
Proof.
  intros H. unfold try_fetch, rates. rewrite H.
  destruct reply as [|[|first rest]]; try (now split).
  destruct (py_int (rx_byte first)) as [rx|]; [|now split].
  destruct (py_int (tx_byte first)) as [tx|]; [|now split].
  destruct (match p2 !! iface with Some _ => _ | None => _ end) as [[rx_s tx_s]|];
    cbn [fst snd]; [|now split].
  split; [reflexivity|]. now rewrite !lookup_insert_eq.
Qed.

Lemma fold_poll_stats_frame (interfaces : list string) acc iface :
  iface ∉ interfaces ->
  fst (fold_left (poll_iface r current_time hms) interfaces acc) !! iface = fst acc !! iface.
Proof.
  induction interfaces as [|x l IH] using rev_ind; intros H; [reflexivity|].
  rewrite fold_left_app. cbn [fold_left]. rewrite poll_iface_stats.
  rewrite not_elem_of_app in H. destruct H as [Hl Hx].
  rewrite lookup_insert_ne; [now apply IH|].
  intros ->. apply Hx. now apply list_elem_of_singleton.
Qed.

(** In a list without repetition, the entry of a requested interface is
    the one its [try] block produces from the table the call started with. *)
Lemma fold_poll_entry (interfaces : list string) acc iface :
  NoDup interfaces -> iface ∈ interfaces ->
  fst (fold_left (poll_iface r current_time hms) interfaces acc) !! iface =
    Some (entry (fst (try_fetch (snd acc) iface current_time (get_name r iface)))
            (hms iface)) /\
  snd (fold_left (poll_iface r current_time hms) interfaces acc) !! iface =
    snd (try_fetch (snd acc) iface current_time (get_name r iface)) !! iface.
Proof.
  intros Hnd. revert acc. induction Hnd as [|x l Hx Hnd IH]; intros acc Hin.
  - now apply elem_of_nil in Hin.
  - cbn [fold_left]. apply elem_of_cons in Hin as [->|Hin].
    + rewrite fold_poll_stats_frame by assumption.
      rewrite fold_poll_previous_frame by now left.
      rewrite poll_iface_stats, poll_iface_previous, lookup_insert_eq. now split.
    + assert (Hne : x <> iface) by (intros ->; contradiction).
      destruct (IH (poll_iface r current_time hms acc x) Hin) as [-> ->].
      rewrite poll_iface_previous.
      destruct (try_fetch_local
                  (snd (try_fetch (snd acc) x current_time (get_name r x))) (snd acc)
                  iface (get_name r iface)) as [-> ->]; [|now split].
      now apply try_fetch_other_key.
Qed.
(** Once the sample of this very call is in the table, every later pass
    over the interface sees no elapsed time. *)
Lemma fold_poll_same_call (interfaces : list string) acc iface first rest rx tx :
  get_name r iface = Returns (first :: rest) ->
  py_int (rx_byte first) = Some rx -> py_int (tx_byte first) = Some tx ->
  snd acc !! iface = Some (sample rx tx current_time) ->
  snd (fold_left (poll_iface r current_time hms) interfaces acc) !! iface =
    Some (sample rx tx current_time) /\
  (iface ∈ interfaces ->
   fst (fold_left (poll_iface r current_time hms) interfaces acc) !! iface =
     Some (entry {| rx_speed := 0; tx_speed := 0; rx_total := rx; tx_total := tx |}
             (hms iface))).
Proof.
  intros Hreply Hrx Htx Hacc.
  induction interfaces as [|x l IH] using rev_ind.
  - split; [exact Hacc|]. intros H. now apply elem_of_nil in H.
  - rewrite fold_left_app. cbn [fold_left]. rewrite poll_iface_stats, poll_iface_previous.
    destruct IH as [IHp IHs].
    destruct (decide (x = iface)) as [->|Hne].
    + rewrite Hreply.
      assert (Hd : (current_time - Prev.timestamp (sample rx tx current_time) <= 0)%Q)
        by (cbn; lra).
      destruct (try_fetch_read (snd (fold_left (poll_iface r current_time hms) l acc))
                  iface current_time first rest rx tx Hrx Htx) as (rx_s & tx_s & Hr & ->).
      rewrite (rates_no_elapsed_time _ _ _ _ rx tx IHp Hd) in Hr. injection Hr as <- <-.
      cbn [fst snd]. rewrite !lookup_insert_eq. now split.
    + rewrite try_fetch_other_key by assumption. split; [exact IHp|].
      intros Hin. rewrite lookup_insert_ne by assumption. apply IHs.
      apply elem_of_app in Hin as [Hin|Hin]; [assumption|].
      apply list_elem_of_singleton in Hin. congruence.
Qed.
End Batch.

Lemma get_interface_stats_polls dev r current_time hms interfaces self :
  api self = Some tt -> get_resource dev = Some r ->
  get_interface_stats dev current_time hms interfaces self =
    (fst (fold_left (poll_iface r current_time hms) interfaces (∅, previous_stats self)),
     set_previous_stats
       (snd (fold_left (poll_iface r current_time hms) interfaces (∅, previous_stats self)))
       self).
Proof.
  intros Ha Hr. unfold get_interface_stats. rewrite Ha, Hr.
  now destruct (fold_left _ _ _).
Qed.

(** The snapshot and the table after [get_interface_stats], for an
    interface requested once. *)
Lemma get_interface_stats_entry dev r current_time hms interfaces self iface :
  api self = Some tt -> get_resource dev = Some r ->
  NoDup interfaces -> iface ∈ interfaces ->
  let polled := get_interface_stats dev current_time hms interfaces self in
  let tried := try_fetch (previous_stats self) iface current_time (get_name r iface) in
  fst polled !! iface = Some (entry (fst tried) (hms iface)) /\
  previous_stats (snd polled) !! iface = snd tried !! iface.
Proof.
  intros Ha Hr Hnd Hin polled tried. subst polled tried.
  rewrite (get_interface_stats_polls dev r) by assumption. cbn [fst snd previous_stats set_previous_stats].
  apply (fold_poll_entry r current_time hms interfaces (∅, previous_stats self)); assumption.
Qed.

Lemma get_interface_stats_batch_failure dev current_time hms interfaces self :
  api self = None \/ get_resource dev = None ->
  get_interface_stats dev current_time hms interfaces self = (∅, self).
Proof.
  intros [H|H]; unfold get_interface_stats; rewrite H; [reflexivity|].
  now destruct (api self).
Qed.

(** The first pass over an interface without a previous sample. *)
Lemma fold_poll_first_sample r current_time hms (interfaces : list string)
    (previous : previous_table) iface first rest rx tx :
  iface ∈ interfaces -> previous !! iface = None ->
  get_name r iface = Returns (first :: rest) ->
  py_int (rx_byte first) = Some rx -> py_int (tx_byte first) = Some tx ->
  let polled := fold_left (poll_iface r current_time hms) interfaces (∅, previous) in
  fst polled !! iface =
    Some (entry {| rx_speed := 0; tx_speed := 0; rx_total := rx; tx_total := tx |}
            (hms iface)) /\
  snd polled !! iface = Some (sample rx tx current_time).
Proof.
  intros Hin Hnone Hreply Hrx Htx polled. subst polled.
  apply list_elem_of_split_l in Hin as (before & after & -> & Hbefore).
  rewrite fold_left_app. cbn [fold_left].
  set (acc0 := fold_left (poll_iface r current_time hms) before (∅, previous)).
  assert (H0 : snd acc0 !! iface = None).
  { subst acc0. rewrite fold_poll_previous_frame by now left. exact Hnone. }
  set (acc := poll_iface r current_time hms acc0 iface).
  assert (Hacc : fst acc !! iface =
                   Some (entry {| rx_speed := 0; tx_speed := 0;
                                  rx_total := rx; tx_total := tx |} (hms iface)) /\
                 snd acc !! iface = Some (sample rx tx current_time)).
  { subst acc. rewrite poll_iface_stats, poll_iface_previous, Hreply.
    destruct (try_fetch_read (snd acc0) iface current_time first rest rx tx Hrx Htx)
      as (rx_s & tx_s & Hr & ->).
    rewrite rates_first_sample in Hr by assumption. injection Hr as <- <-.
    cbn [fst snd]. now rewrite !lookup_insert_eq. }
  destruct Hacc as [Hs Hp].
  destruct (fold_poll_same_call r current_time hms after acc iface first rest rx tx
              Hreply Hrx Htx Hp) as [Hp' Hs'].
  split; [|exact Hp'].
  destruct (decide (iface ∈ after)) as [Hin|Hnin]; [now apply Hs'|].
  now rewrite fold_poll_stats_frame.
Qed.

(** C6. In a cycle whose batch goes through, an interface that is requested
    and has no entry in the previous-sample table of the monitor, and whose
    counters are read, is reported with the rates ["0 bps"], ["0 bps"], and
    the call leaves that observation in the table of the monitor under the
    name of the interface. The next cycle of the same monitor, made later,
    reads its rates off the difference with that stored sample, and stores
    its own observation in turn. *)
Theorem first_observation_is_baseline dev r current_time hms interfaces self iface
    first rest rx tx :
  api self = Some tt -> get_resource dev = Some r ->
  iface ∈ interfaces -> previous_stats self !! iface = None ->
  get_name r iface = Returns (first :: rest) ->
  py_int (rx_byte first) = Some rx -> py_int (tx_byte first) = Some tx ->
  let stats := fst (get_interface_stats dev current_time hms interfaces self) in
  let self' := snd (get_interface_stats dev current_time hms interfaces self) in
  stats !! iface =
    Some {| Stat.rx_speed := "0 bps"; Stat.tx_speed := "0 bps";
            Stat.rx_total := format_bytes rx; Stat.tx_total := format_bytes tx;
            Stat.timestamp := hms iface |} /\
  previous_stats self' !! iface = Some (sample rx tx current_time) /\
  forall dev' r' next_time hms' interfaces' first' rest' rx' tx',
    get_resource dev' = Some r' -> NoDup interfaces' -> iface ∈ interfaces' ->
    get_name r' iface = Returns (first' :: rest') ->
    py_int (rx_byte first') = Some rx' -> py_int (tx_byte first') = Some tx' ->
    (0 < next_time - current_time)%Q ->
    let next := get_interface_stats dev' next_time hms' interfaces' self' in
    exists l,
      fst next !! iface = Some (entry l (hms' iface)) /\
      (rx_speed l == inject_Z (rx' - rx) * 8 / (next_time - current_time))%Q /\
      (tx_speed l == inject_Z (tx' - tx) * 8 / (next_time - current_time))%Q /\
      previous_stats (snd next) !! iface = Some (sample rx' tx' next_time).
Proof.
  intros Ha Hr Hin Hnone Hreply Hrx Htx stats self'. subst stats self'.
  rewrite (get_interface_stats_polls dev r) by assumption.
  cbn [fst snd previous_stats set_previous_stats].
  destruct (fold_poll_first_sample r current_time hms interfaces (previous_stats self)
              iface first rest rx tx Hin Hnone Hreply Hrx Htx) as [Hs Hp].
  split; [exact Hs|]. split; [exact Hp|].
  intros dev' r' next_time hms' interfaces' first' rest' rx' tx'
    Hr' Hnd Hin' Hreply' Hrx' Htx' Hd.
  set (self' := set_previous_stats _ self) in *.
  assert (Ha' : api self' = Some tt) by exact Ha.
  destruct (get_interface_stats_entry dev' r' next_time hms' interfaces' self' iface
              Ha' Hr' Hnd Hin') as [Hs' Hp'].
  cbv zeta in Hs', Hp'. rewrite Hreply' in Hs', Hp'.
  assert (Hprev : previous_stats self' !! iface = Some (sample rx tx current_time))
    by exact Hp.
  rewrite (try_fetch_elapsed_time _ _ (sample rx tx current_time) _ _ _ rx' tx')
    in Hs', Hp' by assumption.
  cbn [fst snd] in Hs', Hp'. eexists. split; [exact Hs'|].
  cbn [rx_speed tx_speed Prev.rx_bytes Prev.tx_bytes Prev.timestamp sample].
  split; [now apply scaled_quotient|]. split; [now apply scaled_quotient|].
  rewrite Hp'. apply lookup_insert_eq.
Qed.

Lemma first_observation_is_baseline_witness :
  let r := {| get := None;
              get_name := fun _ => Returns [{| rx_byte := IntText 1000;
                                               tx_byte := IntText 500 |}] |} in
  let self := set_api (Some tt) (init "192.168.88.1" "admin" "") in
  let stats := fst (get_interface_stats {| get_resource := Some r |} 100
                      (fun _ => "12:00:00") ["ether1"; "ether2"] self) in
  let self' := snd (get_interface_stats {| get_resource := Some r |} 100
                      (fun _ => "12:00:00") ["ether1"; "ether2"] self) in
  stats !! "ether1" =
    Some {| Stat.rx_speed := "0 bps"; Stat.tx_speed := "0 bps";
            Stat.rx_total := format_bytes 1000; Stat.tx_total := format_bytes 500;
            Stat.timestamp := "12:00:00" |} /\
  previous_stats self' !! "ether1" = Some (sample 1000 500 100) /\
  forall dev' r' next_time hms' interfaces' first' rest' rx' tx',
    get_resource dev' = Some r' -> NoDup interfaces' -> "ether1" ∈ interfaces' ->
    get_name r' "ether1" = Returns (first' :: rest') ->
    py_int (rx_byte first') = Some rx' -> py_int (tx_byte first') = Some tx' ->
    (0 < next_time - 100)%Q ->
    let next := get_interface_stats dev' next_time hms' interfaces' self' in
    exists l,
      fst next !! "ether1" = Some (entry l (hms' "ether1")) /\
      (rx_speed l == inject_Z (rx' - 1000) * 8 / (next_time - 100))%Q /\
      (tx_speed l == inject_Z (tx' - 500) * 8 / (next_time - 100))%Q /\
      previous_stats (snd next) !! "ether1" = Some (sample rx' tx' next_time).
Proof.
  intros r self.
  apply (first_observation_is_baseline {| get_resource := Some r |} r 100
           (fun _ => "12:00:00") ["ether1"; "ether2"] self "ether1"
           {| rx_byte := IntText 1000; tx_byte := IntText 500 |} [] 1000 500);
    try reflexivity.
  apply elem_of_cons. now left.
Defined.

(** C2, as the code has it. In a cycle whose batch goes through (an api
    object, and [get_resource] answers), every requested interface has an
    entry in the snapshot. An interface whose counter fetch raises gets the
    entry built from the zero defaults, ["0 bps"], ["0 bps"], ["0.00 B"],
    ["0.00 B"], which is also the entry of an interface seen for the first
    time with both counters at 0: the failure cannot be told from an idle
    interface. *)
Theorem failed_fetch_reported_as_zero dev r current_time hms interfaces self iface :
  api self = Some tt -> get_resource dev = Some r ->
  iface ∈ interfaces -> get_name r iface = Raises ->
  let stats := fst (get_interface_stats dev current_time hms interfaces self) in
  (forall other, other ∈ interfaces -> is_Some (stats !! other)) /\
  stats !! iface =
    Some {| Stat.rx_speed := "0 bps"; Stat.tx_speed := "0 bps";
            Stat.rx_total := "0.00 B"; Stat.tx_total := "0.00 B";
            Stat.timestamp := hms iface |} /\
  forall previous : previous_table,
    previous !! iface = None ->
    entry (fst (try_fetch previous iface current_time
                  (Returns [{| rx_byte := IntText 0; tx_byte := IntText 0 |}]))) (hms iface) =
      {| Stat.rx_speed := "0 bps"; Stat.tx_speed := "0 bps";
         Stat.rx_total := "0.00 B"; Stat.tx_total := "0.00 B";
         Stat.timestamp := hms iface |}.
Proof.
  intros Ha Hr Hin Hraise stats. subst stats.
  rewrite (get_interface_stats_polls dev r) by assumption. cbn [fst].
  split; [|split].
  - intros other Hother. now apply fold_poll_present.
  - rewrite fold_poll_not_fetched; [reflexivity|assumption|].
    now rewrite Hraise.
  - intros previous Hnone. unfold try_fetch. cbn [py_int rx_byte tx_byte].
    now rewrite rates_first_sample.
Qed.

Lemma failed_fetch_reported_as_zero_witness :
  let r := {| get := Some ["ether1"; "ether2"; "ether3"];
              get_name := fun name =>
                if String.eqb name "ether2" then Raises
                else Returns [{| rx_byte := IntText 3000; tx_byte := IntText 700 |}] |} in
  let self := set_api (Some tt) (init "192.168.88.1" "admin" "") in
  let stats := fst (get_interface_stats {| get_resource := Some r |} 101 (fun _ => "12:00:00")
                      ["ether1"; "ether2"; "ether3"] self) in
  (forall other, other ∈ ["ether1"; "ether2"; "ether3"] -> is_Some (stats !! other)) /\
  stats !! "ether2" =
    Some {| Stat.rx_speed := "0 bps"; Stat.tx_speed := "0 bps";
            Stat.rx_total := "0.00 B"; Stat.tx_total := "0.00 B";
            Stat.timestamp := "12:00:00" |} /\
  forall previous : previous_table,
    previous !! "ether2" = None ->
    entry (fst (try_fetch previous "ether2" 101
                  (Returns [{| rx_byte := IntText 0; tx_byte := IntText 0 |}]))) "12:00:00" =
      {| Stat.rx_speed := "0 bps"; Stat.tx_speed := "0 bps";
         Stat.rx_total := "0.00 B"; Stat.tx_total := "0.00 B";
         Stat.timestamp := "12:00:00" |}.
Proof.
  apply (failed_fetch_reported_as_zero
           {| get_resource := Some {| get := Some ["ether1"; "ether2"; "ether3"];
                get_name := fun name =>
                  if String.eqb name "ether2" then Raises
                  else Returns [{| rx_byte := IntText 3000; tx_byte := IntText 700 |}] |} |}
           {| get := Some ["ether1"; "ether2"; "ether3"];
              get_name := fun name =>
                if String.eqb name "ether2" then Raises
                else Returns [{| rx_byte := IntText 3000; tx_byte := IntText 700 |}] |}
           101 (fun _ => "12:00:00") ["ether1"; "ether2"; "ether3"]
           (set_api (Some tt) (init "192.168.88.1" "admin" "")) "ether2");
    [reflexivity|reflexivity| |reflexivity].
  apply elem_of_cons. right. apply elem_of_cons. now left.
Defined.

(** C2, as stated, fails: of three requested interfaces the second one
    raises, and the snapshot still holds an entry for it, all zeros. *)
Lemma failed_fetch_is_not_absent :
  let r := {| get := Some ["ether1"; "ether2"; "ether3"];
              get_name := fun name =>
                if String.eqb name "ether2" then Raises
                else Returns [{| rx_byte := IntText 3000; tx_byte := IntText 700 |}] |} in
  let self := set_api (Some tt) (init "192.168.88.1" "admin" "") in
  let stats := fst (get_interface_stats {| get_resource := Some r |} 101 (fun _ => "12:00:00")
                      ["ether1"; "ether2"; "ether3"] self) in
  get_name r "ether2" = Raises /\
  stats !! "ether2" <> None /\
  stats !! "ether2" =
    Some {| Stat.rx_speed := "0 bps"; Stat.tx_speed := "0 bps";
            Stat.rx_total := "0.00 B"; Stat.tx_total := "0.00 B";
            Stat.timestamp := "12:00:00" |}.
Proof. vm_compute. repeat split. discriminate. Qed.

(** C10. When the counter fetch of an interface raises in a cycle, its entry
    in the previous-sample table is left as it was; more generally an entry
    changes only for an interface that was requested and whose counters
    were read. The next observation of the interface therefore computes its
    rates against the last sample that was read. *)
Theorem failed_fetch_keeps_previous_sample dev r current_time hms interfaces self iface :
  get_resource dev = Some r ->
  get_name r iface = Raises ->
  let self' := snd (get_interface_stats dev current_time hms interfaces self) in
  previous_stats self' !! iface = previous_stats self !! iface /\
  (forall other,
     previous_stats self' !! other <> previous_stats self !! other ->
     other ∈ interfaces /\ fetched (get_name r other) = true) /\
  forall prev next_time first rest rx tx,
    previous_stats self !! iface = Some prev ->
    py_int (rx_byte first) = Some rx -> py_int (tx_byte first) = Some tx ->
    (0 < next_time - Prev.timestamp prev)%Q ->
    let l := fst (try_fetch (previous_stats self') iface next_time (Returns (first :: rest))) in
    (rx_speed l == inject_Z (rx - Prev.rx_bytes prev) * 8 / (next_time - Prev.timestamp prev))%Q /\
    (tx_speed l == inject_Z (tx - Prev.tx_bytes prev) * 8 / (next_time - Prev.timestamp prev))%Q.
Proof.
  intros Hr Hraise self'.
  assert (Hframe : forall other,
             other ∉ interfaces \/ fetched (get_name r other) = false ->
             previous_stats self' !! other = previous_stats self !! other).
  { intros other Hother. subst self'.
    destruct (api self) as [[]|] eqn:Ha.
    - rewrite (get_interface_stats_polls dev r) by assumption. cbn [snd previous_stats set_previous_stats].
      now rewrite fold_poll_previous_frame.
    - rewrite get_interface_stats_batch_failure by now left. reflexivity. }
  assert (Hsame : previous_stats self' !! iface = previous_stats self !! iface).
  { apply Hframe. right. now rewrite Hraise. }
  split; [exact Hsame|]. split.
  - intros other Hchanged.
    destruct (decide (other ∈ interfaces)) as [Hin|Hnin];
      [|exfalso; apply Hchanged, Hframe; now left].
    destruct (fetched (get_name r other)) eqn:Hf; [now split|].
    exfalso. apply Hchanged, Hframe. now right.
  - intros prev next_time first rest rx tx Hprev Hrx Htx Hd l. subst l.
    rewrite (try_fetch_elapsed_time _ _ prev _ _ _ rx tx); [|congruence|assumption..].
    cbn [fst rx_speed tx_speed]. split; now apply scaled_quotient.
Qed.

Lemma failed_fetch_keeps_previous_sample_witness :
  let r := {| get := None;
              get_name := fun name =>
                if String.eqb name "ether2" then Raises
                else Returns [{| rx_byte := IntText 3000; tx_byte := IntText 700 |}] |} in
  let self := set_previous_stats {[ "ether2" := sample 1000 500 100 ]}
                (set_api (Some tt) (init "192.168.88.1" "admin" "")) in
  let self' := snd (get_interface_stats {| get_resource := Some r |} 103 (fun _ => "12:00:03")
                      ["ether1"; "ether2"] self) in
  previous_stats self' !! "ether2" = previous_stats self !! "ether2" /\
  (forall other,
     previous_stats self' !! other <> previous_stats self !! other ->
     other ∈ ["ether1"; "ether2"] /\ fetched (get_name r other) = true) /\
  forall prev next_time first rest rx tx,
    previous_stats self !! "ether2" = Some prev ->
    py_int (rx_byte first) = Some rx -> py_int (tx_byte first) = Some tx ->
    (0 < next_time - Prev.timestamp prev)%Q ->
    let l := fst (try_fetch (previous_stats self') "ether2" next_time
                    (Returns (first :: rest))) in
    (rx_speed l == inject_Z (rx - Prev.rx_bytes prev) * 8 / (next_time - Prev.timestamp prev))%Q /\
    (tx_speed l == inject_Z (tx - Prev.tx_bytes prev) * 8 / (next_time - Prev.timestamp prev))%Q.
Proof.
  apply (failed_fetch_keeps_previous_sample
           {| get_resource := Some {| get := None;
                get_name := fun name =>
                  if String.eqb name "ether2" then Raises
                  else Returns [{| rx_byte := IntText 3000; tx_byte := IntText 700 |}] |} |}
           {| get := None;
              get_name := fun name =>
                if String.eqb name "ether2" then Raises
                else Returns [{| rx_byte := IntText 3000; tx_byte := IntText 700 |}] |}
           103 (fun _ => "12:00:03") ["ether1"; "ether2"]
           (set_previous_stats {[ "ether2" := sample 1000 500 100 ]}
              (set_api (Some tt) (init "192.168.88.1" "admin" ""))) "ether2");
    reflexivity.
Defined.


(** ** The display strings, read back by [save_to_db] *)

Lemma append_nil_l (s : string) : "" ++ s = s.
Proof. reflexivity. Qed.

Lemma append_cons c (s t : string) : String c s ++ t = String c (s ++ t).
Proof. reflexivity. Qed.

Lemma digit_is_plain c :
  is_digit c = true ->
  is_space c = false /\ Ascii.eqb c "." = false /\ Ascii.eqb c "-" = false /\
  Ascii.eqb c "N" = false /\ forall d, is_Some (uint_of_char c (Some d)).
Proof.
  destruct c as [[|] [|] [|] [|] [|] [|] [|] [|]]; intros H;
    try discriminate H; repeat split; try reflexivity; intros d; simpl; eauto.
Qed.

Lemma string_of_uint_digits d : all_digits (NilEmpty.string_of_uint d) = true.
Proof. induction d; simpl; auto. Qed.

Lemma uint_of_digits s : all_digits s = true -> is_Some (NilEmpty.uint_of_string s).
Proof.
  induction s as [|c s IH]; simpl; [eauto|].
  intros [Hc Hs]%andb_prop. destruct (IH Hs) as [d ->].
  now apply digit_is_plain.
Qed.

Lemma cut_dot_digits s t :
  all_digits s = true ->
  cut_dot (s ++ t) = (s ++ fst (cut_dot t), snd (cut_dot t)).
Proof.
  induction s as [|c s IH]; intros H.
  - rewrite !append_nil_l. now destruct (cut_dot t).
  - apply andb_prop in H as [Hc Hs]. rewrite !append_cons. simpl.
    destruct (digit_is_plain c Hc) as (_ & -> & _).
    now rewrite (IH Hs).
Qed.

Lemma append_nil_r (s : string) : s ++ "" = s.
Proof. induction s as [|c s IH]; [reflexivity|]. now rewrite append_cons, IH. Qed.

Lemma cut_dot_decimals decimals :
  match decimals with Some d => all_digits d = true | None => True end ->
  cut_dot (decimals_text decimals) = ("", decimals).
Proof. destruct decimals; reflexivity. Qed.

Lemma unsigned_decimal_number c u decimals :
  well_formed c u decimals ->
  is_Some (unsigned_decimal (String c u ++ decimals_text decimals)).
Proof.
  intros [Hu Hd]. unfold unsigned_decimal.
  rewrite cut_dot_digits, cut_dot_decimals, append_nil_r by assumption. cbn [fst snd].
  destruct (uint_of_digits _ Hu) as [w Hw].
  change (NilZero.uint_of_string (String c u)) with (NilEmpty.uint_of_string (String c u)).
  rewrite Hw. cbn [mbind option_bind].
  destruct decimals as [d|]; [|eauto].
  destruct (uint_of_digits _ Hd) as [f ->]. cbn [mbind option_bind]. eauto.
Qed.

Lemma py_float_number negative c u decimals :
  well_formed c u decimals -> is_Some (py_float (number_text negative c u decimals)).
Proof.
  intros H. pose proof (unsigned_decimal_number c u decimals H) as [q Hq].
  destruct H as [[Hc _]%andb_prop _].
  destruct (digit_is_plain c Hc) as (_ & _ & Hminus & _).
  unfold number_text, sign_text, py_float. destruct negative.
  - rewrite append_cons, append_nil_l. cbn [Ascii.eqb Bool.eqb]. rewrite Hq. cbn. eauto.
  - rewrite append_nil_l. rewrite append_cons, Hminus, <- append_cons. eauto.
Qed.

Lemma no_space_append s t : no_space (s ++ t) = no_space s && no_space t.
Proof.
  induction s as [|c s IH]; [reflexivity|].
  rewrite append_cons. cbn [no_space]. now rewrite IH, andb_assoc.
Qed.

Lemma digits_no_space s : all_digits s = true -> no_space s = true.
Proof.
  induction s as [|c s IH]; [reflexivity|]. intros [Hc Hs]%andb_prop.
  cbn [no_space]. destruct (digit_is_plain c Hc) as (-> & _). now rewrite IH.
Qed.

Lemma number_no_space negative c u decimals :
  well_formed c u decimals -> no_space (number_text negative c u decimals) = true.
Proof.
  intros [Hu Hd]. unfold number_text. rewrite !no_space_append.
  rewrite (digits_no_space _ Hu).
  assert (no_space (sign_text negative) = true) as -> by now destruct negative.
  destruct decimals as [d|]; [|reflexivity].
  unfold decimals_text. rewrite no_space_append, (digits_no_space _ Hd). reflexivity.
Qed.

Lemma first_word_no_space s rest :
  no_space s = true -> first_word (s ++ String " " rest) = s.
Proof.
  induction s as [|c s IH]; [reflexivity|]. intros [Hc Hs]%andb_prop.
  rewrite append_cons. cbn [first_word]. apply negb_true_iff in Hc. rewrite Hc.
  now rewrite IH.
Qed.

(** A number followed by a blank and a unit is read back as that number. *)
Lemma numeric_prefix_number negative c u decimals unit :
  well_formed c u decimals ->
  numeric_prefix (number_text negative c u decimals ++ String " " unit) =
    py_float (number_text negative c u decimals).
Proof.
  intros H. pose proof (number_no_space negative c u decimals H) as Hns.
  destruct (number_text negative c u decimals) as [|a tok] eqn:E.
  { unfold number_text in E. destruct negative; discriminate E. }
  assert (Ha : Ascii.eqb a "N" = false /\ is_space a = false).
  { destruct H as [[Hc _]%andb_prop _].
    destruct (digit_is_plain c Hc) as (Hs & _ & _ & Hn & _).
    unfold number_text, sign_text in E. destruct negative.
    - injection E as <- _. now split.
    - rewrite append_nil_l, append_cons in E. injection E as <- _. now split. }
  destruct Ha as [HN Hsp].
  unfold numeric_prefix. rewrite append_cons.
  cbn [String.eqb]. rewrite HN.
  unfold split_0. cbn [lstrip]. rewrite Hsp.
  rewrite <- append_cons, first_word_no_space by assumption. reflexivity.
Qed.

Lemma uint_text d :
  exists c u, NilZero.string_of_uint d = String c u /\ all_digits (String c u) = true.
Proof.
  destruct d; try (eexists _, _; split; [reflexivity|]; cbn [all_digits];
                   now rewrite string_of_uint_digits).
  now exists "0"%char, "".
Qed.

Lemma py_str_number z :
  exists negative c u,
    py_str z = number_text negative c u None /\ well_formed c u None.
Proof.
  unfold py_str, number_text, well_formed, decimals_text.
  destruct z as [|p|p]; cbn [Z.to_int NilZero.string_of_int].
  - now exists false, "0"%char, "".
  - destruct (uint_text (Pos.to_uint p)) as (c & u & -> & H).
    exists false, c, u. now rewrite append_nil_r.
  - destruct (uint_text (Pos.to_uint p)) as (c & u & -> & H).
    exists true, c, u. now rewrite append_nil_r.
Qed.

Lemma digit_digits k : 0 <= k <= 9 -> all_digits (digit k) = true.
Proof.
  intros H.
  assert (k = 0 \/ k = 1 \/ k = 2 \/ k = 3 \/ k = 4 \/ k = 5 \/ k = 6 \/ k = 7 \/ k = 8 \/ k = 9)
    as Hk by lia.
  repeat (destruct Hk as [->|Hk]; [reflexivity|]). now subst.
Qed.

Lemma all_digits_append s t : all_digits (s ++ t) = all_digits s && all_digits t.
Proof.
  induction s as [|c s IH]; [reflexivity|].
  rewrite append_cons. cbn [all_digits]. now rewrite IH, andb_assoc.
Qed.

Lemma fmt2_number x :
  exists negative c u d,
    fmt2 x = number_text negative c u (Some d) /\ well_formed c u (Some d).
Proof.
  unfold fmt2. set (n := Z.abs (round_half_even (x * 100))).
  assert (Hn : 0 <= n) by apply Z.abs_nonneg.
  destruct (py_str_number (n / 100)) as (negative & c & u & Hstr & Hwf & _).
  assert (negative = false) as ->.
  { destruct negative; [|reflexivity]. exfalso.
    assert (0 <= n / 100) by (apply Z.div_pos; lia).
    unfold py_str in Hstr. destruct (n / 100) as [|p|p]; [discriminate Hstr| |lia].
    cbn [Z.to_int NilZero.string_of_int] in Hstr.
    destruct (uint_text (Pos.to_uint p)) as (c' & u' & E & [Hc' _]%andb_prop).
    rewrite E in Hstr. unfold number_text, sign_text in Hstr.
    rewrite append_cons in Hstr. injection Hstr as -> _. discriminate Hc'. }
  unfold number_text, sign_text, decimals_text in Hstr.
  rewrite append_nil_l, append_nil_r in Hstr.
  exists (Qltb x 0), c, u, (digit (n mod 100 / 10) ++ digit (n mod 10)).
  split.
  - unfold number_text, sign_text, decimals_text. now rewrite Hstr.
  - split; [assumption|]. rewrite all_digits_append.
    rewrite !digit_digits; [reflexivity| |].
    + pose proof (Z.mod_pos_bound n 10). lia.
    + pose proof (Z.mod_pos_bound n 100).
      split; [apply Z.div_pos; lia|]. apply Z.lt_succ_r.
      apply Z.div_lt_upper_bound; lia.
Qed.

Lemma format_speed_readable bps : is_Some (numeric_prefix (format_speed bps)).
Proof.
  unfold format_speed.
  destruct (1000000000 <=? _)%Z; [|destruct (1000000 <=? _)%Z].
  - destruct (fmt2_number (inject_Z (py_int_of_float bps) / 1000000000))
      as (negative & c & u & d & -> & H).
    change " Gbps" with (String " " "Gbps").
    rewrite numeric_prefix_number by assumption. now apply py_float_number.
  - destruct (fmt2_number (inject_Z (py_int_of_float bps) / 1000000))
      as (negative & c & u & d & -> & H).
    change " Mbps" with (String " " "Mbps").
    rewrite numeric_prefix_number by assumption. now apply py_float_number.
  - destruct (py_str_number (py_int_of_float bps)) as (negative & c & u & -> & H).
    change " bps" with (String " " "bps").
    rewrite numeric_prefix_number by assumption. now apply py_float_number.
Qed.

Lemma format_bytes_units_readable units val :
  is_Some (numeric_prefix (format_bytes_units val units)).
Proof.
  revert val. induction units as [|unit rest IH]; intros val; cbn [format_bytes_units].
  - destruct (fmt2_number val) as (negative & c & u & d & -> & H).
    change " PB" with (String " " "PB").
    rewrite numeric_prefix_number by assumption. now apply py_float_number.
  - destruct (Qltb val 1024); [|apply IH].
    destruct (fmt2_number val) as (negative & c & u & d & -> & H).
    change (" " ++ unit) with (String " " unit).
    rewrite numeric_prefix_number by assumption. now apply py_float_number.
Qed.

Lemma format_bytes_readable value : is_Some (numeric_prefix (format_bytes value)).
Proof. apply format_bytes_units_readable. Qed.

Lemma row_of_entry stamp iface l hms : is_Some (row_of stamp iface (entry l hms)).
Proof.
  unfold row_of, entry. cbn [Stat.rx_speed Stat.tx_speed Stat.rx_total Stat.tx_total].
  destruct (format_speed_readable (rx_speed l)) as [a ->].
  destruct (format_speed_readable (tx_speed l)) as [b ->].
  destruct (format_bytes_readable (rx_total l)) as [c ->].
  destruct (format_bytes_readable (tx_total l)) as [d ->].
  cbn. eauto.
Qed.

(** [save_to_db] commits a snapshot whose entries all come from [entry]. *)
Lemma save_to_db_commits stamp hms (stats : stats_dict) :
  (forall i e, stats !! i = Some e -> exists l, e = entry l (hms i)) ->
  is_Some (save_to_db stamp stats).
Proof.
  intros H. unfold save_to_db. apply mapM_is_Some. apply Forall_forall.
  intros [iface data] Hin. apply elem_of_map_to_list in Hin.
  destruct (H _ _ Hin) as [l ->]. apply row_of_entry.
Qed.

(** *** What the stored numbers are *)

Lemma unsigned_decimal_of_pos p :
  unsigned_decimal (NilZero.string_of_uint (Pos.to_uint p)) = Some (inject_Z (Z.pos p)).
Proof.
  destruct (uint_text (Pos.to_uint p)) as (c & u & E & H).
  unfold unsigned_decimal.
  rewrite <- (append_nil_r (NilZero.string_of_uint (Pos.to_uint p))) at 1.
  rewrite E at 1. rewrite cut_dot_digits by assumption. cbn [cut_dot fst snd].
  rewrite append_nil_r, <- E.
  rewrite NilZero.usu by apply Unsigned.to_uint_nonnil. cbn [mbind option_bind].
  unfold Z.of_uint. now rewrite Unsigned.of_to.
Qed.

Lemma py_float_py_str z : py_float (py_str z) = Some (inject_Z z).
Proof.
  unfold py_str. destruct z as [|p|p]; cbn [Z.to_int NilZero.string_of_int].
  - reflexivity.
  - destruct (uint_text (Pos.to_uint p)) as (c & u & E & [Hc _]%andb_prop).
    destruct (digit_is_plain c Hc) as (_ & _ & Hminus & _).
    unfold py_float. rewrite E, Hminus, <- E. apply unsigned_decimal_of_pos.
  - unfold py_float. cbn [Ascii.eqb Bool.eqb]. now rewrite unsigned_decimal_of_pos.
Qed.

(** X1. Below 1 Mbps the snapshot shows the rate as an integer followed by
    [" bps"], and [save_to_db] stores that integer: the rate in bits per
    second, cut toward zero. *)
Lemma low_rate_is_stored_in_bits_per_second bps :
  py_int_of_float bps < 1000000 ->
  format_speed bps = py_str (py_int_of_float bps) ++ " bps" /\
  numeric_prefix (format_speed bps) = Some (inject_Z (py_int_of_float bps)).
Proof.
  intros H. unfold format_speed.
  destruct (Z.leb_spec 1000000000 (py_int_of_float bps)); [lia|].
  destruct (Z.leb_spec 1000000 (py_int_of_float bps)); [lia|].
  split; [reflexivity|].
  destruct (py_str_number (py_int_of_float bps)) as (negative & c & u & E & Hwf).
  rewrite E. change " bps" with (String " " "bps").
  rewrite numeric_prefix_number by assumption. rewrite <- E. apply py_float_py_str.
Qed.

Lemma low_rate_is_stored_in_bits_per_second_witness :
  format_speed (1999985 # 2) = py_str (py_int_of_float (1999985 # 2)) ++ " bps" /\
  numeric_prefix (format_speed (1999985 # 2)) =
    Some (inject_Z (py_int_of_float (1999985 # 2))).
Proof. apply (low_rate_is_stored_in_bits_per_second (1999985 # 2)). reflexivity. Defined.

Lemma two_digits_value a b :
  0 <= a <= 9 -> 0 <= b <= 9 ->
  exists d, NilEmpty.uint_of_string (digit a ++ digit b) = Some d /\
            Z.of_uint d = 10 * a + b /\
            String.length (digit a ++ digit b) = 2%nat.
Proof.
  intros Ha Hb.
  assert (a = 0 \/ a = 1 \/ a = 2 \/ a = 3 \/ a = 4 \/ a = 5 \/ a = 6 \/ a = 7 \/ a = 8 \/ a = 9)
    as Ha' by lia.
  assert (b = 0 \/ b = 1 \/ b = 2 \/ b = 3 \/ b = 4 \/ b = 5 \/ b = 6 \/ b = 7 \/ b = 8 \/ b = 9)
    as Hb' by lia.
  repeat (destruct Ha' as [->|Ha']; [|]); try subst a;
    repeat (destruct Hb' as [->|Hb']; [|]); try subst b;
    eexists; (split; [reflexivity|split; reflexivity]).
Qed.

Lemma py_str_nonneg m :
  0 <= m ->
  exists c u d, py_str m = String c u /\ all_digits (String c u) = true /\
                NilZero.uint_of_string (String c u) = Some d /\ Z.of_uint d = m.
Proof.
  intros Hm. unfold py_str. destruct m as [|p|p]; [| |lia]; cbn [Z.to_int NilZero.string_of_int].
  - exists "0"%char, "", (Decimal.D0 Decimal.Nil). now repeat split.
  - destruct (uint_text (Pos.to_uint p)) as (c & u & E & H).
    exists c, u, (Pos.to_uint p). rewrite <- E. repeat split; try assumption.
    + rewrite E. exact H.
    + apply NilZero.usu, Unsigned.to_uint_nonnil.
    + unfold Z.of_uint. now rewrite Unsigned.of_to.
Qed.

Lemma unsigned_decimal_fixed m a b :
  0 <= m -> 0 <= a <= 9 -> 0 <= b <= 9 ->
  unsigned_decimal (py_str m ++ "." ++ digit a ++ digit b) =
    Some (inject_Z m + (10 * a + b # 100))%Q.
Proof.
  intros Hm Ha Hb.
  destruct (py_str_nonneg m Hm) as (c & u & d & -> & Hdig & Hd & <-).
  destruct (two_digits_value a b Ha Hb) as (f & Hf & <- & Hlen).
  unfold unsigned_decimal. rewrite cut_dot_digits by assumption.
  change ("." ++ ?t) with (String "." t). cbn [cut_dot Ascii.eqb Bool.eqb fst snd].
  rewrite append_nil_r, Hd. cbn [mbind option_bind].
  rewrite Hf. cbn [mbind option_bind]. now rewrite Hlen.
Qed.

Lemma round_half_even_near x :
  (inject_Z (round_half_even x) <= x + (1 # 2))%Q /\
  ((0 <= x)%Q -> 0 <= round_half_even x) /\
  ((x < 0)%Q -> round_half_even x <= 0).
Proof.
  pose proof (Qfloor_le x) as Hlo. pose proof (Qlt_floor x) as Hhi.
  assert (Hpos : (0 <= x)%Q -> 0 <= Qfloor x).
  { intros H. change 0 with (Qfloor 0). now apply Qfloor_resp_le. }
  assert (Hneg : (x < 0)%Q -> Qfloor x + 1 <= 0).
  { intros H. assert (inject_Z (Qfloor x) < inject_Z 0)%Q as H0
        by (eapply Qle_lt_trans; eassumption).
    rewrite <- Zlt_Qlt in H0. lia. }
  assert (Hup : forall f, (inject_Z (f + 1) == inject_Z f + 1)%Q)
    by (intros f; rewrite inject_Z_plus; reflexivity).
  rewrite Hup in Hhi.
  unfold round_half_even.
  destruct (Qcompare (x - inject_Z (Qfloor x)) (1 # 2)) eqn:E.
  - apply Qeq_alt in E.
    destruct (Z.even (Qfloor x)); rewrite ?Hup;
      (split; [lra|split; intros H; [specialize (Hpos H)|specialize (Hneg H)]; lia]).
  - apply Qlt_alt in E.
    split; [lra|split; intros H; [specialize (Hpos H)|specialize (Hneg H)]; lia].
  - apply Qgt_alt in E. rewrite Hup.
    split; [lra|split; intros H; [specialize (Hpos H)|specialize (Hneg H)]; lia].
Qed.

(** What [float] reads back from a [:.2f] text is the number rounded to
    hundredths. *)
Lemma fmt2_read_back x :
  exists q, py_float (fmt2 x) = Some q /\ (q == round_half_even (x * 100) # 100)%Q.
Proof.
  destruct (round_half_even_near (x * 100)) as (_ & Hpos & Hneg).
  unfold fmt2. set (R := round_half_even (x * 100)) in *. set (n := Z.abs R).
  assert (Hn : 0 <= n) by apply Z.abs_nonneg.
  assert (Hq : 0 <= n / 100) by (apply Z.div_pos; lia).
  assert (Ha : 0 <= n mod 100 / 10 <= 9).
  { pose proof (Z.mod_pos_bound n 100). split; [apply Z.div_pos; lia|].
    apply Z.lt_succ_r. apply Z.div_lt_upper_bound; lia. }
  assert (Hb : 0 <= n mod 10 <= 9) by (pose proof (Z.mod_pos_bound n 10); lia).
  pose proof (unsigned_decimal_fixed (n / 100) _ _ Hq Ha Hb) as Hread.
  assert (Hval : (inject_Z (n / 100) + (10 * (n mod 100 / 10) + n mod 10 # 100) == n # 100)%Q).
  { unfold Qeq, Qplus, inject_Z. cbn [Qnum Qden].
    pose proof (Z.div_mod n 100). pose proof (Z.div_mod (n mod 100) 10).
    assert ((n mod 100) mod 10 = n mod 10)
      by (apply Z.mod_mod_divide; now exists 10).
    lia. }
  destruct (Qltb x 0) eqn:Hsign.
  - eexists. split.
    { unfold py_float. rewrite append_cons, append_nil_l. cbn [Ascii.eqb Bool.eqb].
      rewrite Hread. reflexivity. }
    rewrite Hval. apply Qltb_lt in Hsign.
    assert (HR : (x * 100 < 0)%Q) by lra. specialize (Hneg HR).
    unfold Qeq, Qopp. cbn [Qnum Qden]. subst n. lia.
  - eexists. split.
    { destruct (py_str_nonneg (n / 100) Hq) as (c & u & d & E & [Hc _]%andb_prop & _).
      destruct (digit_is_plain c Hc) as (_ & _ & Hminus & _).
      rewrite append_nil_l. unfold py_float.
      rewrite E at 1. rewrite append_cons, Hminus. exact Hread. }
    rewrite Hval. apply Qltb_ge in Hsign.
    assert (HR : (0 <= x * 100)%Q) by lra. specialize (Hpos HR).
    unfold Qeq. cbn [Qnum Qden]. subst n. lia.
Qed.

Lemma numeric_prefix_fmt2 x unit :
  numeric_prefix (fmt2 x ++ String " " unit) = py_float (fmt2 x).
Proof.
  destruct (fmt2_number x) as (negative & c & u & d & E & H).
  rewrite E. now apply numeric_prefix_number.
Qed.

(** The number stored for a [:.2f] text exceeds the number printed by at
    most half a hundredth. *)
Lemma stored_fmt2_bound x unit :
  exists q, numeric_prefix (fmt2 x ++ String " " unit) = Some q /\
            (q == round_half_even (x * 100) # 100)%Q /\ (q <= x + (1 # 200))%Q.
Proof.
  destruct (fmt2_read_back x) as (q & Hq & Hv).
  exists q. rewrite numeric_prefix_fmt2. split; [exact Hq|]. split; [exact Hv|].
  destruct (round_half_even_near (x * 100)) as (Hnear & _).
  rewrite Hv. rewrite (Qmake_Qdiv (round_half_even (x * 100)) 100).
  change (inject_Z (Z.pos 100)) with 100%Q.
  apply Qle_shift_div_r; [reflexivity|]. lra.
Qed.

(** From 1 Mbps on, the stored speed is less than the rate in bits per
    second. *)
Lemma high_rate_is_stored_scaled bps :
  1000000 <= py_int_of_float bps ->
  exists q, numeric_prefix (format_speed bps) = Some q /\
            (q < inject_Z (py_int_of_float bps))%Q.
Proof.
  intros H. unfold format_speed. set (b := py_int_of_float bps) in *.
  assert (HB : (1000000 <= inject_Z b)%Q).
  { change 1000000%Q with (inject_Z 1000000). now rewrite <- Zle_Qle. }
  destruct (Z.leb_spec 1000000000 b) as [Hg|Hg];
    [|destruct (Z.leb_spec 1000000 b) as [_|Hm]; [|lia]].
  - change " Gbps" with (String " " "Gbps").
    destruct (stored_fmt2_bound (inject_Z b / 1000000000) "Gbps") as (q & Hq & _ & Hle).
    exists q. split; [exact Hq|]. eapply Qle_lt_trans; [exact Hle|].
    assert (inject_Z b / 1000000000 == inject_Z b * (1 # 1000000000))%Q as -> by (field).
    lra.
  - change " Mbps" with (String " " "Mbps").
    destruct (stored_fmt2_bound (inject_Z b / 1000000) "Mbps") as (q & Hq & _ & Hle).
    exists q. split; [exact Hq|]. eapply Qle_lt_trans; [exact Hle|].
    assert (inject_Z b / 1000000 == inject_Z b * (1 # 1000000))%Q as -> by (field).
    lra.
Qed.


Lemma stored_bytes_bound units val bound :
  (0 <= val)%Q -> (val <= bound)%Q ->
  exists q, numeric_prefix (format_bytes_units val units) = Some q /\
            (q <= bound + (1 # 200))%Q.
Proof.
  revert val. induction units as [|unit rest IH]; intros val H0 Hb; cbn [format_bytes_units].
  - change " PB" with (String " " "PB").
    destruct (stored_fmt2_bound val "PB") as (q & Hq & _ & Hle).
    exists q. split; [exact Hq|]. lra.
  - destruct (Qltb val 1024).
    + change (" " ++ unit) with (String " " unit).
      destruct (stored_fmt2_bound val unit) as (q & Hq & _ & Hle).
      exists q. split; [exact Hq|]. lra.
    + apply IH.
      * apply Qle_shift_div_l; [reflexivity|]. lra.
      * apply Qle_shift_div_r; [reflexivity|]. lra.
Qed.

(** From 1 KB on, the stored total is less than the count in bytes. *)
Lemma large_total_is_stored_scaled value :
  1024 <= value ->
  exists q, numeric_prefix (format_bytes value) = Some q /\ (q < inject_Z value)%Q.
Proof.
  intros H. unfold format_bytes.
  assert (HB : (1024 <= inject_Z value)%Q).
  { change 1024%Q with (inject_Z 1024). now rewrite <- Zle_Qle. }
  cbn [format_bytes_units]. rewrite (proj2 (Qltb_ge _ _) HB).
  destruct (stored_bytes_bound ["KB"; "MB"; "GB"; "TB"] (inject_Z value / 1024)
              (inject_Z value * (1 # 1024))) as (q & Hq & Hle).
  - apply Qle_shift_div_l; [reflexivity|]. lra.
  - assert (inject_Z value / 1024 == inject_Z value * (1 # 1024))%Q as -> by field. lra.
  - exists q. split; [exact Hq|]. lra.
Qed.


(** C3 on a concrete cycle. One interface went from 0 to 312500 bytes
    received and 124999 bytes sent within one second: 2500000 and 999992
    bits per second. The snapshot shows ["2.50 Mbps"] and ["999992 bps"],
    and the row written to the history holds 2.5 and 999992: the larger
    rate is stored as the smaller number, and the totals 312500 and 124999
    bytes are stored as 305.18 and 122.07. *)
Lemma stored_values_lose_their_unit :
  let self := set_previous_stats {[ "ether1" := sample 0 0 100 ]}
                (set_interfaces_to_monitor ["ether1"]
                   (set_api (Some tt) (init "192.168.88.1" "admin" ""))) in
  let device := {| get := None;
                   get_name := fun _ => Returns [{| rx_byte := IntText 312500;
                                                    tx_byte := IntText 124999 |}] |} in
  let k := {| router := {| get_resource := Some device |};
              relogin := PoolError; time_stats := 101; hms := fun _ => "12:00:01";
              time_check := 101; stamp := fun _ => "2025-01-01 12:00:01"; time_saved := 101 |} in
  let l := fst (try_fetch (previous_stats self) "ether1" 101 (get_name device "ether1")) in
  (rx_speed l == 2500000)%Q /\ (tx_speed l == 999992)%Q /\
  rx_total l = 312500 /\ tx_total l = 124999 /\
  entry l "12:00:01" =
    {| Stat.rx_speed := "2.50 Mbps"; Stat.tx_speed := "999992 bps";
       Stat.rx_total := "305.18 KB"; Stat.tx_total := "122.07 KB";
       Stat.timestamp := "12:00:01" |} /\
  match effects (run_iteration k self) with
  | [SetLiveStats _; EmitLiveStats _; Insert [row]; Sleep _] =>
      Hist.interface row = "ether1" /\
      (Hist.rx_speed row == 2.5)%Q /\ (Hist.tx_speed row == 999992)%Q /\
      (Hist.rx_total row == 305.18)%Q /\ (Hist.tx_total row == 122.07)%Q /\
      ~ (Hist.rx_speed row == 2500000)%Q /\ ~ (Hist.rx_total row == 312500)%Q
  | _ => False
  end.
Proof. vm_compute. repeat split; discriminate. Qed.

(** ** One iteration of [run] *)

Lemma get_interface_stats_entries dev current_time hms interfaces self i e :
  fst (get_interface_stats dev current_time hms interfaces self) !! i = Some e ->
  exists l, e = entry l (hms i).
Proof.
  unfold get_interface_stats.
  destruct (api self) as [a|]; [destruct (get_resource dev) as [r|]|];
    try (cbn [fst]; rewrite lookup_empty; discriminate).
  destruct (fold_left _ _ _) as [stats previous] eqn:E. cbn [fst]. intros H.
  apply (fold_poll_entries r current_time hms interfaces (∅, previous_stats self)).
  - intros j e'. cbn [fst]. rewrite lookup_empty. discriminate.
  - now rewrite E.
Qed.

Lemma get_interface_stats_keeps_schedule dev current_time hms interfaces self :
  let self' := snd (get_interface_stats dev current_time hms interfaces self) in
  save_interval self' = save_interval self /\ last_db_save self' = last_db_save self /\
  interval self' = interval self /\ is_alive self' = is_alive self /\
  connection self' = connection self /\ running self' = running self /\
  api self' = api self.
Proof.
  unfold get_interface_stats.
  destruct (api self) as [a|] eqn:Ha; [destruct (get_resource dev) as [r|]|];
    try (cbn; rewrite ?Ha; repeat split; reflexivity).
  destruct (fold_left _ _ _). cbn. rewrite ?Ha. repeat split; reflexivity.
Qed.

Lemma get_all_interfaces_connected dev o self :
  api self = Some tt -> snd (get_all_interfaces dev o self) = self.
Proof.
  intros Ha. unfold get_all_interfaces. rewrite Ha.
  destruct (get_resource dev) as [r|]; [destruct (get r)|]; reflexivity.
Qed.

(** The interfaces polled by an iteration: the configured ones, or all. *)
Lemma run_iteration_connected k self :
  api self = Some tt ->
  let interfaces :=
    match interfaces_to_monitor self with
    | [] => fst (get_all_interfaces (router k) (relogin k) self)
    | l => l
    end in
  let polled := get_interface_stats (router k) (time_stats k) (hms k) interfaces self in
  run_iteration k self =
    let broadcast := [SetLiveStats (fst polled); EmitLiveStats (fst polled)] in
    if save_due_at (time_check k) (snd polled) then
      match save_to_db (stamp k) (fst polled) with
      | Some rows =>
          {| after := set_last_db_save (time_saved k) (snd polled);
             effects := (broadcast ++ [Insert rows; Sleep (interval (snd polled))])%list;
             completed := true |}
      | None => {| after := snd polled; effects := broadcast; completed := false |}
      end
    else
      {| after := snd polled;
         effects := (broadcast ++ [Sleep (interval (snd polled))])%list;
         completed := true |}.
Proof.
  intros Ha interfaces polled. unfold run_iteration. rewrite Ha.
  assert (E : (match interfaces_to_monitor self with
               | [] => get_all_interfaces (router k) (relogin k) self
               | l => (l, self)
               end) = (interfaces, self)).
  { subst interfaces. destruct (interfaces_to_monitor self); [|reflexivity].
    rewrite <- (get_all_interfaces_connected (router k) (relogin k) self Ha) at 3.
    now destruct (get_all_interfaces _ _ _). }
  rewrite E. fold polled. now destruct polled.
Qed.

(** The effects of an iteration of the loop of a connected monitor. *)
Lemma run_iteration_effects k self :
  api self = Some tt ->
  let interfaces :=
    match interfaces_to_monitor self with
    | [] => fst (get_all_interfaces (router k) (relogin k) self)
    | l => l
    end in
  let stats := fst (get_interface_stats (router k) (time_stats k) (hms k) interfaces self) in
  let it := run_iteration k self in
  completed it = true /\
  ((save_interval self <= time_check k - last_db_save self)%Q ->
     exists rows,
       save_to_db (stamp k) stats = Some rows /\
       effects it = [SetLiveStats stats; EmitLiveStats stats; Insert rows;
                     Sleep (interval self)] /\
       last_db_save (after it) = time_saved k) /\
  (~ (save_interval self <= time_check k - last_db_save self)%Q ->
     effects it = [SetLiveStats stats; EmitLiveStats stats; Sleep (interval self)] /\
     last_db_save (after it) = last_db_save self) /\
  forall ip_ username_ password_, save_interval (init ip_ username_ password_) = 60%Q.
Proof.
  intros Ha interfaces stats it. subst it.
  rewrite (run_iteration_connected k self Ha). fold interfaces. cbv zeta.
  pose proof (get_interface_stats_keeps_schedule (router k) (time_stats k) (hms k)
                interfaces self) as (Hsi & Hls & Hi & _).
  fold stats.
  set (self' := snd (get_interface_stats (router k) (time_stats k) (hms k) interfaces self)) in *.
  destruct (save_to_db_commits (stamp k) (hms k) stats) as [rows Hrows].
  { intros i e. apply get_interface_stats_entries. }
  unfold save_due_at. rewrite Hsi, Hls, Hi, Hrows.
  destruct (Qle_bool (save_interval self) (time_check k - last_db_save self)) eqn:Hdue.
  - apply Qle_bool_iff in Hdue. cbn.
    split; [reflexivity|]. split; [|split; [intros Hn; contradiction|reflexivity]].
    intros _. exists rows. repeat split; reflexivity.
  - assert (Hnot : ~ (save_interval self <= time_check k - last_db_save self)%Q).
    { intros H. apply Qle_bool_iff in H. congruence. }
    cbn. split; [reflexivity|]. split; [intros H; contradiction|].
    split; [|reflexivity]. intros _. split; [reflexivity|exact Hls].
Qed.

(** ** The process *)

Lemma only_live_at_most_one i (w : process) :
  only_live i (threads w) -> at_most_one_live w /\ at_most_one_handle w.
Proof.
  intros H. split; intros a b ma mb Ha Hb Hla Hlb.
  - rewrite (H a ma Ha Hla). now rewrite (H b mb Hb Hlb).
  - apply andb_prop in Hla as [Hla _]. apply andb_prop in Hlb as [Hlb _].
    rewrite (H a ma Ha Hla). now rewrite (H b mb Hb Hlb).
Qed.

Lemma quiet_only_live i l : quiet l -> only_live i l.
Proof. intros H j m Hj Hl. rewrite (H j m Hj) in Hl. discriminate. Qed.

Lemma only_live_alter i f l : only_live i l -> only_live i (alter f i l).
Proof.
  intros H j m Hj Hl. destruct (decide (i = j)) as [|Hne]; [congruence|].
  rewrite list_lookup_alter_ne in Hj by assumption. exact (H j m Hj Hl).
Qed.

Lemma quiet_alter i f l :
  only_live i l -> (forall m, is_alive (f m) = false) -> quiet (alter f i l).
Proof.
  intros H Hf j m Hj. destruct (decide (i = j)) as [<-|Hne].
  - rewrite list_lookup_alter_eq in Hj. destruct (l !! i); [|discriminate].
    injection Hj as <-. apply Hf.
  - rewrite list_lookup_alter_ne in Hj by assumption.
    destruct (is_alive m) eqn:E; [|reflexivity]. now destruct (Hne (eq_sym (H j m Hj E))).
Qed.

Lemma quiet_snoc l m : quiet l -> only_live (length l) (l ++ [m]).
Proof.
  intros H j m' Hj Hl. destruct (decide (j < length l)%nat) as [Hlt|Hge].
  - rewrite lookup_app_l in Hj by assumption. rewrite (H j m' Hj) in Hl. discriminate.
  - apply lookup_lt_Some in Hj. rewrite length_app in Hj. cbn in Hj. lia.
Qed.

Lemma tidy_only_live (w : process) i :
  tidy w -> monitor_thread w = Some i -> only_live i (threads w).
Proof. intros H Hi j m Hj Hl. specialize (H j m Hj Hl). congruence. Qed.

Lemma tidy_quiet (w : process) : tidy w -> live_monitor w = None -> quiet (threads w).
Proof.
  intros H Hnone j m Hj. destruct (is_alive m) eqn:Hl; [|reflexivity].
  unfold live_monitor in Hnone. rewrite (H j m Hj Hl) in Hnone. cbn in Hnone.
  rewrite Hj in Hnone. cbn in Hnone. rewrite Hl in Hnone. discriminate.
Qed.

Lemma live_monitor_Some (w : process) i :
  live_monitor w = Some i ->
  monitor_thread w = Some i /\ exists m, threads w !! i = Some m /\ is_alive m = true.
Proof.
  unfold live_monitor. destruct (monitor_thread w) as [j|]; [|discriminate]. cbn.
  destruct (threads w !! j) as [m|] eqn:Hj; [|discriminate]. cbn.
  destruct (is_alive m) eqn:Hl; [|discriminate]. intros [= <-]. eauto.
Qed.

(** *** Rules for handlers *)

Section Rules.
Context {A B : Type} (I : step -> process -> Prop).

Lemma hoare_ret (a : A) (P : process -> Prop) (Q : A -> process -> Prop) :
  (forall w, P w -> Q a w) -> hoare P (ret a) Q I.
Proof. intros H w Hw. split; [now apply H|constructor]. Qed.

Lemma hoare_read (f : process -> A) (P : process -> Prop) (Q : A -> process -> Prop) :
  (forall w, P w -> Q (f w) w) -> hoare P (read f) Q I.
Proof. intros H w Hw. split; [now apply H|constructor]. Qed.

Lemma hoare_perform s f (P : process -> Prop) (Q : unit -> process -> Prop) :
  (forall w, P w -> Q tt (f w) /\ I s (f w)) -> hoare P (perform s f) Q I.
Proof.
  intros H w Hw. destruct (H w Hw) as [HQ HI].
  split; [exact HQ|]. repeat constructor. exact HI.
Qed.

Lemma hoare_bind (m : handler A) (k : A -> handler B) P R Q :
  hoare P m R I -> (forall a, hoare (R a) (k a) Q I) -> hoare P (bind m k) Q I.
Proof.
  intros Hm Hk w Hw. unfold bind.
  destruct (Hm w Hw) as [HR Hlog1]. destruct (m w) as [[a w1] log1]. cbn in HR, Hlog1.
  destruct (Hk a w1 HR) as [HQ Hlog2]. destruct (k a w1) as [[b w2] log2].
  cbn in HQ, Hlog2 |- *. split; [exact HQ|]. apply Forall_app. now split.
Qed.
End Rules.

(** *** Threads of the process after a step *)

Lemma on_thread_lookup_eq i f (w : process) m :
  threads w !! i = Some m -> threads (on_thread i f w) !! i = Some (f m).
Proof. intros H. cbn. now rewrite list_lookup_alter_eq, H. Qed.

Lemma on_thread_lookup_ne i j f (w : process) :
  i <> j -> threads (on_thread i f w) !! j = threads w !! j.
Proof. intros H. cbn. now apply list_lookup_alter_ne. Qed.

Lemma stopped_on_other_thread i new f (w : process) :
  new <> i -> stopped i w -> stopped i (on_thread new f w).
Proof.
  intros Hne (m & Hm & H). exists m. split; [|exact H].
  now rewrite on_thread_lookup_ne.
Qed.

Lemma orderly_only_live old s j (w : process) :
  only_live j (threads w) ->
  (forall i, old = Some i ->
     match s with StopFlag _ | Release _ => True | _ => stopped i w end) ->
  orderly old s w.
Proof.
  intros H Hs. destruct (only_live_at_most_one j w H) as [H1 H2].
  split; [exact H1|]. split; [exact H2|].
  destruct old as [i|]; [|now destruct s].
  specialize (Hs i eq_refl). now destruct s.
Qed.

Lemma orderly_stopped old s j (w : process) :
  only_live j (threads w) -> (forall i, old = Some i -> stopped i w) -> orderly old s w.
Proof.
  intros H Hs. apply (orderly_only_live old s j w H).
  intros i Hi. specialize (Hs i Hi). now destruct s.
Qed.

Section MoreRules.
Context {A : Type} (I : step -> process -> Prop).

Lemma hoare_pure (phi : Prop) (P : process -> Prop) (m : handler A) Q :
  (phi -> hoare P m Q I) -> hoare (fun w => phi /\ P w) m Q I.
Proof. intros H w [Hphi Hw]. now apply H. Qed.

Lemma hoare_consequence (P P' : process -> Prop) (m : handler A)
    (Q Q' : A -> process -> Prop) :
  (forall w, P w -> P' w) -> (forall a w, Q' a w -> Q a w) ->
  hoare P' m Q' I -> hoare P m Q I.
Proof.
  intros HP HQ H w Hw. destruct (H w (HP w Hw)) as [H1 H2]. split; [now apply HQ|exact H2].
Qed.
End MoreRules.

(** [stop()] is the first two steps of [stop_and_join]. *)
Lemma stop_in_two_steps i (w : process) :
  on_thread i disconnect (on_thread i (set_running false) w) = on_thread i stop w.
Proof.
  unfold on_thread, set_threads. cbn [threads monitor_thread LIVE_STATS performance_history sent].
  f_equal. apply list_alter_alter_eq.
Qed.

(** *** The handlers *)

(** [stop()] and [join()] on the only live loop leave no loop alive and the
    session over. *)
Lemma stop_and_join_spec i :
  hoare (fun w => only_live i (threads w) /\ is_Some (threads w !! i))
        (stop_and_join i)
        (fun _ w => quiet (threads w) /\ stopped i w)
        (orderly (Some i)).
Proof.
  unfold stop_and_join.
  apply hoare_bind with
    (R := fun _ w => only_live i (threads w) /\
                     exists m, threads w !! i = Some m /\ running m = false).
  { apply hoare_perform. intros w [Hlive [m Hm]].
    assert (Hlive' : only_live i (threads (on_thread i (set_running false) w)))
      by now apply only_live_alter.
    split; [split; [exact Hlive'|]|].
    - exists (set_running false m). split; [now apply on_thread_lookup_eq|reflexivity].
    - now apply (orderly_only_live _ _ i). }
  intros _. apply hoare_bind with
    (R := fun _ w => only_live i (threads w) /\
                     exists m, threads w !! i = Some m /\ running m = false /\
                               connection m <> Some Open).
  { apply hoare_perform. intros w [Hlive (m & Hm & Hrun)].
    assert (Hlive' : only_live i (threads (on_thread i disconnect w)))
      by now apply only_live_alter.
    split; [split; [exact Hlive'|]|].
    - exists (disconnect m). split; [now apply on_thread_lookup_eq|].
      unfold disconnect. destruct (connection m) eqn:E; cbn; rewrite ?E; split;
        first [assumption | discriminate].
    - now apply (orderly_only_live _ _ i). }
  intros _. apply hoare_perform. intros w [Hlive (m & Hm & Hrun & Hconn)].
  assert (Hquiet : quiet (threads (on_thread i (set_is_alive false) w)))
    by now apply quiet_alter.
  assert (Hstopped : stopped i (on_thread i (set_is_alive false) w)).
  { exists (set_is_alive false m). split; [now apply on_thread_lookup_eq|]. now repeat split. }
  split; [now split|].
  apply (orderly_only_live _ _ i); [now apply quiet_only_live|].
  now intros j [= <-].
Qed.

Lemma replaced_on_new old new f s :
  match s with StopFlag _ | Release _ => False | _ => True end ->
  hoare (replaced old new) (perform s (on_thread new f))
        (fun _ => replaced old new) (orderly old).
Proof.
  intros _. apply hoare_perform. intros w (Hlive & Hcur & Hold).
  assert (H : replaced old new (on_thread new f w)).
  { split; [now apply only_live_alter|]. split; [exact Hcur|].
    intros i Hi. destruct (Hold i Hi) as [Hs Hne]. split; [|exact Hne].
    now apply stopped_on_other_thread. }
  split; [exact H|]. destruct H as (Hlive' & _ & Hold').
  apply (orderly_stopped _ _ new); [exact Hlive'|]. intros i Hi. now apply Hold'.
Qed.

Lemma replaced_emit old new msg :
  hoare (replaced old new) (perform (Emit msg) (emit msg))
        (fun _ => replaced old new) (orderly old).
Proof.
  apply hoare_perform. intros w (Hlive & Hcur & Hold).
  assert (H : replaced old new (emit msg w)) by (split; [exact Hlive|now split]).
  split; [exact H|].
  apply (orderly_stopped _ _ new); [exact Hlive|]. intros i Hi. now apply Hold.
Qed.

Lemma replaced_tidy old new (w : process) : replaced old new w -> tidy w.
Proof. intros (Hlive & Hcur & _) j m Hj Hl. now rewrite (Hlive j m Hj Hl). Qed.

(** The connect handler keeps the process tidy, and every step of it is
    orderly. *)
Lemma connect_mikrotik_via_socket_spec data o old :
  hoare (fun w => tidy w /\ live_monitor w = old)
        (connect_mikrotik_via_socket data o)
        (fun _ w => tidy w) (orderly old).
Proof.
  unfold connect_mikrotik_via_socket.
  apply hoare_bind with
    (R := fun a w => a = old /\ tidy w /\ live_monitor w = old).
  { apply hoare_read. intros w [Ht Hl]. now repeat split. }
  intros a. apply hoare_pure. intros ->.
  apply hoare_bind with
    (R := fun _ w => quiet (threads w) /\ forall i, old = Some i -> stopped i w).
  { destruct old as [i|].
    - eapply hoare_consequence; [ | |exact (stop_and_join_spec i)]; cbv beta.
      + intros w [Ht Hl]. apply live_monitor_Some in Hl as (Hcur & m & Hm & _).
        split; [now apply tidy_only_live|eauto].
      + intros _ w [Hq Hs]. split; [exact Hq|]. now intros j [= <-].
    - apply hoare_ret. intros w [Ht Hl]. split; [now apply tidy_quiet|discriminate]. }
  intros _. apply hoare_bind with
    (R := fun new w => new = length (threads w) /\ quiet (threads w) /\
                       forall i, old = Some i -> stopped i w).
  { apply hoare_read. intros w [Hq Hs]. now repeat split. }
  intros new. apply hoare_bind with (R := fun _ => replaced old new).
  { apply hoare_perform. intros w (-> & Hq & Hs).
    set (w' := set_monitor_thread _ _).
    assert (H : replaced old (length (threads w)) w').
    { split; [now apply quiet_snoc|]. split; [reflexivity|].
      intros i Hi. destruct (Hs i Hi) as (m & Hm & Hm').
      pose proof (lookup_lt_Some _ _ _ Hm) as Hlt.
      split; [|lia]. exists m. split; [|exact Hm'].
      subst w'. cbn. now rewrite lookup_app_l. }
    split; [exact H|]. destruct H as (Hlive & _ & Hold).
    apply (orderly_stopped _ _ (length (threads w))); [exact Hlive|].
    intros i Hi. now apply Hold. }
  intros _. apply hoare_bind with (R := fun _ => replaced old new);
    [now apply replaced_on_new|].
  intros _. apply hoare_bind with (R := fun _ => replaced old new);
    [now apply replaced_on_new|].
  intros _.
  eapply hoare_consequence with (P' := replaced old new) (Q' := fun _ => replaced old new);
    [auto|intros _ w; apply replaced_tidy|].
  destruct o; try apply replaced_emit.
  apply hoare_bind with (R := fun _ => replaced old new); [now apply replaced_on_new|].
  intros _. apply replaced_emit.
Qed.

(** The disconnect handler keeps the process tidy as well. *)
Lemma disconnect_mikrotik_spec old :
  hoare (fun w => tidy w /\ live_monitor w = old)
        disconnect_mikrotik
        (fun _ w => tidy w) (orderly old).
Proof.
  unfold disconnect_mikrotik.
  apply hoare_bind with
    (R := fun a w => a = old /\ tidy w /\ live_monitor w = old).
  { apply hoare_read. intros w [Ht Hl]. now repeat split. }
  intros a. apply hoare_pure. intros ->.
  destruct old as [i|]; [|apply hoare_ret; now intros w [Ht _]].
  apply hoare_bind with (R := fun _ w => quiet (threads w) /\ stopped i w).
  { eapply hoare_consequence; [ | |exact (stop_and_join_spec i)]; cbv beta; [|auto].
    intros w [Ht Hl]. apply live_monitor_Some in Hl as (Hcur & m & Hm & _).
    split; [now apply tidy_only_live|eauto]. }
  intros _. apply hoare_perform. intros w [Hq Hs].
  split.
  - intros j m Hj Hl. cbn in Hj. rewrite (Hq j m Hj) in Hl. discriminate.
  - apply (orderly_stopped _ _ i); [now apply quiet_only_live|]. now intros j [= <-].
Qed.


(** *** Iterations of a loop, and reachable processes *)

Lemma run_iteration_alive k self :
  is_alive (after (run_iteration k self)) = is_alive self.
Proof.
  destruct (api self) as [[]|] eqn:Ha.
  - rewrite (run_iteration_connected k self Ha). cbv zeta.
    match goal with
    | |- context [get_interface_stats ?d ?t ?h ?l self] =>
        pose proof (get_interface_stats_keeps_schedule d t h l self) as (_ & _ & _ & Hl & _);
        set (polled := get_interface_stats d t h l self) in *
    end.
    destruct (save_due_at _ _); [destruct (save_to_db _ _)|]; cbn; exact Hl.
  - unfold run_iteration. now rewrite Ha.
Qed.

Lemma apply_effects_threads effs (w : process) :
  threads (fold_left apply_effect effs w) = threads w /\
  monitor_thread (fold_left apply_effect effs w) = monitor_thread w.
Proof.
  revert w. induction effs as [|e effs IH]; intros w; [now split|].
  cbn [fold_left]. destruct (IH (apply_effect w e)) as [-> ->].
  now destruct e.
Qed.

Lemma thread_iteration_tidy i k (w : process) : tidy w -> tidy (thread_iteration i k w).
Proof.
  intros Ht. unfold thread_iteration.
  destruct (threads w !! i) as [self|] eqn:Hi; [|exact Ht].
  destruct (is_alive self && running self) eqn:Hlive; [|exact Ht].
  apply andb_prop in Hlive as [Hlive _].
  intros j m. destruct (apply_effects_threads (effects (run_iteration k self))
                          (on_thread i (fun _ => if completed (run_iteration k self)
                                                 then after (run_iteration k self)
                                                 else set_is_alive false (after (run_iteration k self))) w))
    as [-> ->].
  cbn. intros Hj Hl. destruct (decide (i = j)) as [<-|Hne].
  - exact (Ht i self Hi Hlive).
  - rewrite list_lookup_alter_ne in Hj by assumption. exact (Ht j m Hj Hl).
Qed.

Lemma react_tidy (w : process) e : tidy w -> tidy (react w e).
Proof.
  intros Ht. destruct e as [data o| |i k]; cbn [react].
  - now apply (connect_mikrotik_via_socket_spec data o (live_monitor w) w).
  - now apply (disconnect_mikrotik_spec (live_monitor w) w).
  - now apply thread_iteration_tidy.
Qed.

(** Every process reached from the start is tidy. *)
Lemma run_events_tidy events : tidy (run_events events).
Proof.
  induction events as [|e events IH] using rev_ind.
  - intros j m Hj. cbn in Hj. rewrite lookup_nil in Hj. discriminate.
  - unfold run_events. rewrite fold_left_app. cbn [fold_left]. now apply react_tidy.
Qed.












(** C7, as the code has it. A stop request that finds no live monitor is a
    no-op: the handler returns without raising, performs no step, leaves
    every global as it was and sends no message, neither an error nor a
    success. *)
Theorem stop_without_session_is_silent (w : process) :
  live_monitor w = None ->
  disconnect_mikrotik w = (tt, w, []) /\ react w OnDisconnect = w /\
  sent (react w OnDisconnect) = sent w.
Proof.
  intros H.
  assert (E : disconnect_mikrotik w = (tt, w, [])).
  { unfold disconnect_mikrotik, bind, read. rewrite H. reflexivity. }
  cbn [react]. rewrite E. now repeat split.
Qed.

Lemma stop_without_session_is_silent_witness :
  disconnect_mikrotik boot = (tt, boot, []) /\ react boot OnDisconnect = boot /\
  sent (react boot OnDisconnect) = sent boot.
Proof. apply (stop_without_session_is_silent boot). reflexivity. Defined.

(** C7, as stated, fails: a stop request on the freshly started process,
    where no session exists, reports nothing; the success message of the
    handler is sent only after a live session was stopped. *)
Lemma stop_without_session_reports_nothing :
  live_monitor boot = None /\
  sent (react boot OnDisconnect) = [] /\
  ~ (exists text, connection_status success text ∈ sent (react boot OnDisconnect)) /\
  sent (run_events [OnConnect {| data_ip := "192.168.88.1"; data_username := "admin";
                                 data_password := ""; data_interfaces := [] |} LoggedIn;
                    OnDisconnect; OnDisconnect]) =
    [connection_status success "Monitoring started";
     connection_status success "Monitoring stopped"].
Proof.
  split; [reflexivity|]. split; [reflexivity|]. split; [|reflexivity].
  intros [text H]. cbn in H. now apply elem_of_nil in H.
Qed.

(** * Further properties *)

(** ** The display helpers *)

Lemma round_half_even_below x : (x - (1 # 2) <= inject_Z (round_half_even x))%Q.
Proof.
  pose proof (Qfloor_le x) as Hlo. pose proof (Qlt_floor x) as Hhi.
  assert (Hup : forall f, (inject_Z (f + 1) == inject_Z f + 1)%Q)
    by (intros f; rewrite inject_Z_plus; reflexivity).
  rewrite Hup in Hhi. unfold round_half_even.
  destruct (Qcompare (x - inject_Z (Qfloor x)) (1 # 2)) eqn:E.
  - apply Qeq_alt in E. destruct (Z.even (Qfloor x)); rewrite ?Hup; lra.
  - apply Qlt_alt in E. lra.
  - apply Qgt_alt in E. rewrite Hup. lra.
Qed.

Lemma round_half_even_integer n : round_half_even (inject_Z n) = n.
Proof.
  unfold round_half_even. rewrite Qfloor_Z.
  destruct (Qcompare (inject_Z n - inject_Z n) (1 # 2)) eqn:E; [|reflexivity|].
  - apply Qeq_alt in E. lra.
  - apply Qgt_alt in E. lra.
Qed.

(** X4. Reading back a number printed with two decimals gives the number
    rounded to hundredths, ties to even: it differs from the number printed
    by at most half a hundredth. *)
Theorem two_decimals_read_back x unit :
  exists q, numeric_prefix (fmt2 x ++ String " " unit) = Some q /\
            (q == round_half_even (x * 100) # 100)%Q /\
            (x - (1 # 200) <= q)%Q /\ (q <= x + (1 # 200))%Q.
Proof.
  destruct (stored_fmt2_bound x unit) as (q & Hq & Hv & Hle).
  exists q. split; [exact Hq|]. split; [exact Hv|]. split; [|exact Hle].
  pose proof (round_half_even_below (x * 100)) as Hnear.
  rewrite Hv. rewrite (Qmake_Qdiv (round_half_even (x * 100)) 100).
  change (inject_Z (Z.pos 100)) with 100%Q.
  apply Qle_shift_div_l; [reflexivity|]. lra.
Qed.

(** X5. A total below 1024 bytes (a negative one too) is shown in bytes, and
    the number stored for it is the count itself. *)
Theorem small_total_is_stored_in_bytes value :
  value < 1024 ->
  format_bytes value = fmt2 (inject_Z value) ++ " B" /\
  exists q, numeric_prefix (format_bytes value) = Some q /\ (q == inject_Z value)%Q.
Proof.
  intros H.
  assert (HB : (inject_Z value < 1024)%Q).
  { change 1024%Q with (inject_Z 1024). now rewrite <- Zlt_Qlt. }
  assert (E : format_bytes value = fmt2 (inject_Z value) ++ " B").
  { unfold format_bytes. cbn [format_bytes_units]. now rewrite (proj2 (Qltb_lt _ _) HB). }
  split; [exact E|]. rewrite E. change (" B") with (String " " "B").
  destruct (stored_fmt2_bound (inject_Z value) "B") as (q & Hq & Hv & _).
  exists q. split; [exact Hq|]. rewrite Hv.
  change (inject_Z value * 100)%Q with (inject_Z (value * 100)).
  rewrite round_half_even_integer.
  unfold Qeq, inject_Z. cbn [Qnum Qden]. lia.
Qed.

Lemma small_total_is_stored_in_bytes_witness :
  format_bytes 512 = fmt2 (inject_Z 512) ++ " B" /\
  exists q, numeric_prefix (format_bytes 512) = Some q /\ (q == inject_Z 512)%Q.
Proof. apply (small_total_is_stored_in_bytes 512). lia. Defined.

Lemma Qltb_Z a b : Qltb (inject_Z a) (inject_Z b) = (a <? b)%Z.
Proof.
  unfold Qltb, Qle_bool, inject_Z. cbn [Qnum Qden].
  rewrite !Z.mul_1_r. symmetry. apply Z.ltb_antisym.
Qed.

Lemma Qltb_div_1024 x c : Qltb (x / 1024) c = Qltb x (c * 1024).
Proof.
  assert (E : (x / 1024 == x * (1 # 1024))%Q) by field.
  destruct (Qltb x (c * 1024)) eqn:H.
  - apply Qltb_lt in H. apply Qltb_lt. rewrite E. lra.
  - apply Qltb_ge in H. apply Qltb_ge. rewrite E. lra.
Qed.

(** [format_bytes] without its loop: the unit changes at the powers of
    1024, in the exact arithmetic of this model. *)
Lemma format_bytes_picks_the_unit value :
  let v := inject_Z value in
  format_bytes value =
    if (value <? 1024)%Z then fmt2 v ++ " B"
    else if (value <? 1024 ^ 2)%Z then fmt2 (v / 1024) ++ " KB"
    else if (value <? 1024 ^ 3)%Z then fmt2 (v / 1024 / 1024) ++ " MB"
    else if (value <? 1024 ^ 4)%Z then fmt2 (v / 1024 / 1024 / 1024) ++ " GB"
    else if (value <? 1024 ^ 5)%Z then fmt2 (v / 1024 / 1024 / 1024 / 1024) ++ " TB"
    else fmt2 (v / 1024 / 1024 / 1024 / 1024 / 1024) ++ " PB".
Proof.
  intros v. subst v. unfold format_bytes. cbn [format_bytes_units].
  rewrite !Qltb_div_1024.
  change 1024%Q with (inject_Z 1024).
  rewrite <- !inject_Z_mult, !Qltb_Z.
  change (1024 * 1024 * 1024 * 1024 * 1024) with (1024 ^ 5).
  change (1024 * 1024 * 1024 * 1024) with (1024 ^ 4).
  change (1024 * 1024 * 1024) with (1024 ^ 3).
  change (1024 * 1024) with (1024 ^ 2).
  reflexivity.
Qed.

Lemma round_half_even_Qeq x y : (x == y)%Q -> round_half_even x = round_half_even y.
Proof.
  intros E. unfold round_half_even. rewrite (Qfloor_comp _ _ E).
  assert (E' : (x - inject_Z (Qfloor y) == y - inject_Z (Qfloor y))%Q) by now rewrite E.
  now rewrite (Qcompare_comp _ _ E' (1 # 2) (1 # 2) (Qeq_refl _)).
Qed.

Lemma Qltb_Qeq x y c : (x == y)%Q -> Qltb x c = Qltb y c.
Proof.
  intros E. unfold Qltb. f_equal.
  destruct (Qle_bool c y) eqn:H.
  - apply Qle_bool_iff. apply Qle_bool_iff in H. now rewrite E.
  - destruct (Qle_bool c x) eqn:H'; [|reflexivity].
    apply Qle_bool_iff in H'. rewrite E in H'. apply Qle_bool_iff in H'. congruence.
Qed.

Lemma fmt2_Qeq x y : (x == y)%Q -> fmt2 x = fmt2 y.
Proof.
  intros E. unfold fmt2. rewrite (Qltb_Qeq x y 0 E).
  assert (E' : (x * 100 == y * 100)%Q) by now rewrite E.
  now rewrite (round_half_even_Qeq _ _ E').
Qed.

(** A number that is not negative, printed with two decimals and a unit:
    the text is the stored number printed again, and the stored number is
    the number rounded to hundredths. *)
Lemma stored_fmt2_text x unit :
  (0 <= x)%Q ->
  exists q,
    fmt2 x = fmt2 q /\
    numeric_prefix (fmt2 x ++ String " " unit) = Some q /\
    (q == round_half_even (x * 100) # 100)%Q /\
    (x - (1 # 200) <= q)%Q /\ (q <= x + (1 # 200))%Q.
Proof.
  intros H0.
  destruct (stored_fmt2_bound x unit) as (q & Hq & Hv & Hle).
  exists q. split; [|split; [exact Hq|split; [exact Hv|split; [|exact Hle]]]].
  - assert (Hn : (q * 100 == inject_Z (round_half_even (x * 100)))%Q).
    { rewrite Hv, (Qmake_Qdiv (round_half_even (x * 100)) 100).
      change (inject_Z (Z.pos 100)) with 100%Q. field. }
    pose proof (round_half_even_below (x * 100)) as Hlow.
    assert (Hr : (0 <= round_half_even (x * 100))%Z).
    { destruct (Z.le_gt_cases 0 (round_half_even (x * 100))) as [H|H]; [exact H|].
      assert (H' : (round_half_even (x * 100) <= -1)%Z) by lia.
      rewrite Zle_Qle in H'. change (inject_Z (-1)) with (-1 # 1)%Q in H'. lra. }
    assert (Hq0 : (0 <= q)%Q).
    { rewrite Hv, (Qmake_Qdiv (round_half_even (x * 100)) 100).
      change (inject_Z (Z.pos 100)) with 100%Q.
      apply Qle_shift_div_l; [reflexivity|]. rewrite Zle_Qle in Hr.
      change (inject_Z 0) with 0%Q in Hr. lra. }
    unfold fmt2.
    rewrite (proj2 (Qltb_ge x 0) H0), (proj2 (Qltb_ge q 0) Hq0).
    now rewrite (round_half_even_Qeq _ _ Hn), round_half_even_integer.
  - pose proof (round_half_even_below (x * 100)) as Hlow.
    rewrite Hv, (Qmake_Qdiv (round_half_even (x * 100)) 100).
    change (inject_Z (Z.pos 100)) with 100%Q.
    apply Qle_shift_div_l; [reflexivity|]. lra.
Qed.

(** X2. From 1 Mbps on (and below 2^53 bits per second), the snapshot shows
    the rate in Mbps below 1 Gbps and in Gbps from there on, as a number
    with two decimals that is within 0.005 of that rate; [save_to_db]
    stores this number, which is less than the rate in bits per second. *)
Theorem high_rate_is_stored_in_mbps_or_gbps bps :
  let n := py_int_of_float bps in
  1000000 <= n < 2 ^ 53 ->
  let unit := if (n <? 1000000000)%Z then "Mbps" else "Gbps" in
  let rate := (inject_Z n / (if (n <? 1000000000)%Z then 1000000 else 1000000000))%Q in
  exists q,
    format_speed bps = fmt2 q ++ " " ++ unit /\
    numeric_prefix (format_speed bps) = Some q /\
    (rate - (1 # 200) <= q)%Q /\ (q <= rate + (1 # 200))%Q /\
    (q < inject_Z n)%Q.
Proof.
  intros n [H _] unit rate. subst unit rate. unfold format_speed. fold n.
  assert (HB : (1000000 <= inject_Z n)%Q).
  { change 1000000%Q with (inject_Z 1000000). now rewrite <- Zle_Qle. }
  destruct (Z.leb_spec 1000000000 n) as [Hg|Hg];
    [|destruct (Z.leb_spec 1000000 n) as [_|Hm]; [|lia]].
  - rewrite (proj2 (Z.ltb_ge n 1000000000)) by lia.
    change (" " ++ "Gbps") with (String " " "Gbps"). change " Gbps" with (String " " "Gbps").
    assert (E : (inject_Z n / 1000000000 == inject_Z n * (1 # 1000000000))%Q) by field.
    destruct (stored_fmt2_text (inject_Z n / 1000000000) "Gbps") as (q & Ht & Hq & _ & Hlo & Hhi).
    { rewrite E. lra. }
    exists q. rewrite <- Ht. split; [reflexivity|]. split; [exact Hq|].
    split; [exact Hlo|]. split; [exact Hhi|]. rewrite E in Hhi. lra.
  - rewrite (proj2 (Z.ltb_lt n 1000000000)) by lia.
    change (" " ++ "Mbps") with (String " " "Mbps"). change " Mbps" with (String " " "Mbps").
    assert (E : (inject_Z n / 1000000 == inject_Z n * (1 # 1000000))%Q) by field.
    destruct (stored_fmt2_text (inject_Z n / 1000000) "Mbps") as (q & Ht & Hq & _ & Hlo & Hhi).
    { rewrite E. lra. }
    exists q. rewrite <- Ht. split; [reflexivity|]. split; [exact Hq|].
    split; [exact Hlo|]. split; [exact Hhi|]. rewrite E in Hhi. lra.
Qed.

Lemma high_rate_is_stored_in_mbps_or_gbps_witness :
  exists q,
    format_speed 1015000 = fmt2 q ++ " " ++ "Mbps" /\
    numeric_prefix (format_speed 1015000) = Some q /\
    (inject_Z 1015000 / 1000000 - (1 # 200) <= q)%Q /\
    (q <= inject_Z 1015000 / 1000000 + (1 # 200))%Q /\
    (q < inject_Z 1015000)%Q.
Proof.
  apply (high_rate_is_stored_in_mbps_or_gbps 1015000). split; [|reflexivity].
  vm_compute. intros H. discriminate H.
Defined.

(** The number of times 1024 goes into a count. *)
Lemma log2_of_step value k :
  0 <= k -> 1024 ^ k <= value < 1024 ^ (k + 1) -> Z.log2 value / 10 = k.
Proof.
  intros Hk [Hlo Hhi].
  assert (Hpos : 0 < value) by (pose proof (Z.pow_pos_nonneg 1024 k); lia).
  change 1024 with (2 ^ 10) in Hlo, Hhi.
  rewrite <- Z.pow_mul_r in Hlo, Hhi by lia.
  apply Z.log2_le_pow2 in Hlo; [|exact Hpos].
  apply Z.log2_lt_pow2 in Hhi; [|exact Hpos].
  symmetry. apply (Z.div_unique _ 10 k (Z.log2 value - 10 * k)); lia.
Qed.

(** X3. From 1 KB on (and below 2^53 bytes), the count is divided by 1024
    once for every full power of 1024 it holds, which also picks the unit
    out of KB, MB, GB, TB and PB; the snapshot shows the quotient rounded to
    hundredths, ties to even, and [save_to_db] stores that number, which is
    within 0.005 of the quotient and less than the count in bytes. *)
Theorem large_total_is_stored_in_binary_units value :
  1024 <= value < 2 ^ 53 ->
  let k := Z.log2 value / 10 in
  let count := (inject_Z value / inject_Z (1024 ^ k))%Q in
  exists q,
    format_bytes value =
      fmt2 q ++ " " ++ nth (Z.to_nat k) ["B"; "KB"; "MB"; "GB"; "TB"] "PB" /\
    numeric_prefix (format_bytes value) = Some q /\
    (q == round_half_even (count * 100) # 100)%Q /\
    (count - (1 # 200) <= q)%Q /\ (q <= count + (1 # 200))%Q /\
    (q < inject_Z value)%Q.
Proof.
  intros [Hlo Hhi] k count.
  assert (HB : (1024 <= inject_Z value)%Q).
  { change 1024%Q with (inject_Z 1024). now rewrite <- Zle_Qle. }
  assert (Hstep : forall j x unit,
             Z.log2 value / 10 = j -> (1 <= j <= 5)%Z ->
             (x == inject_Z value / inject_Z (1024 ^ j))%Q ->
             format_bytes value = fmt2 x ++ String " " unit ->
             nth (Z.to_nat j) ["B"; "KB"; "MB"; "GB"; "TB"] "PB" = unit ->
             exists q,
               format_bytes value =
                 fmt2 q ++ " " ++ nth (Z.to_nat k) ["B"; "KB"; "MB"; "GB"; "TB"] "PB" /\
               numeric_prefix (format_bytes value) = Some q /\
               (q == round_half_even (count * 100) # 100)%Q /\
               (count - (1 # 200) <= q)%Q /\ (q <= count + (1 # 200))%Q /\
               (q < inject_Z value)%Q).
  { intros j x unit Hj Hrange Hx Hf Hu. subst k count. rewrite Hj, Hu, Hf.
    assert (Hp : (1024 <= inject_Z (1024 ^ j))%Q).
    { change 1024%Q with (inject_Z (1024 ^ 1)). rewrite <- Zle_Qle.
      apply Z.pow_le_mono_r; lia. }
    assert (Hx0 : (0 <= x)%Q /\ (x <= inject_Z value * (1 # 1024))%Q).
    { rewrite Hx. split.
      - apply Qle_shift_div_l; lra.
      - apply Qle_shift_div_r; [lra|].
        rewrite <- Qmult_assoc. rewrite <- (Qmult_1_r (inject_Z value)) at 1.
        apply Qmult_le_l; lra. }
    destruct Hx0 as [Hx0 Hx1].
    destruct (stored_fmt2_text x unit Hx0) as (q & Ht & Hq & Hv & Hl & Hh).
    exists q. rewrite <- Ht. split; [reflexivity|]. split; [exact Hq|].
    assert (Hx100 : (x * 100 == inject_Z value / inject_Z (1024 ^ j) * 100)%Q)
      by now rewrite Hx.
    rewrite <- (round_half_even_Qeq _ _ Hx100), <- Hx.
    split; [exact Hv|]. split; [exact Hl|]. split; [exact Hh|]. lra. }
  pose proof (format_bytes_picks_the_unit value) as Hf. cbv zeta in Hf.
  rewrite (proj2 (Z.ltb_ge value 1024)) in Hf by lia.
  destruct (Z.ltb_spec value (1024 ^ 2)) as [H2|H2].
  { apply (Hstep 1 (inject_Z value / 1024)%Q "KB"); try reflexivity; [|lia|exact Hf].
    apply log2_of_step; lia. }
  destruct (Z.ltb_spec value (1024 ^ 3)) as [H3|H3].
  { apply (Hstep 2 (inject_Z value / 1024 / 1024)%Q "MB"); try reflexivity;
      [|lia| |exact Hf]; [apply log2_of_step; lia|].
    change (inject_Z (1024 ^ 2)) with (1024 * 1024)%Q. field. }
  destruct (Z.ltb_spec value (1024 ^ 4)) as [H4|H4].
  { apply (Hstep 3 (inject_Z value / 1024 / 1024 / 1024)%Q "GB"); try reflexivity;
      [|lia| |exact Hf]; [apply log2_of_step; lia|].
    change (inject_Z (1024 ^ 3)) with (1024 * 1024 * 1024)%Q. field. }
  destruct (Z.ltb_spec value (1024 ^ 5)) as [H5|H5].
  { apply (Hstep 4 (inject_Z value / 1024 / 1024 / 1024 / 1024)%Q "TB"); try reflexivity;
      [|lia| |exact Hf]; [apply log2_of_step; lia|].
    change (inject_Z (1024 ^ 4)) with (1024 * 1024 * 1024 * 1024)%Q. field. }
  apply (Hstep 5 (inject_Z value / 1024 / 1024 / 1024 / 1024 / 1024)%Q "PB");
    try reflexivity; [|lia| |exact Hf]; [apply log2_of_step; lia|].
  change (inject_Z (1024 ^ 5)) with (1024 * 1024 * 1024 * 1024 * 1024)%Q. field.
Qed.

Lemma large_total_is_stored_in_binary_units_witness :
  exists q,
    format_bytes 312500 = fmt2 q ++ " " ++ "KB" /\
    numeric_prefix (format_bytes 312500) = Some q /\
    (q == round_half_even (inject_Z 312500 / inject_Z 1024 * 100) # 100)%Q /\
    (inject_Z 312500 / inject_Z 1024 - (1 # 200) <= q)%Q /\
    (q <= inject_Z 312500 / inject_Z 1024 + (1 # 200))%Q /\
    (q < inject_Z 312500)%Q.
Proof. apply (large_total_is_stored_in_binary_units 312500). lia. Defined.


(** X7. [stop] may be repeated: a second call changes nothing. After it the
    flag is down and no handle is held; on a monitor that never connected
    [disconnect] does nothing at all; the api object, the sample table and
    the state of the thread are left alone. *)
Theorem stop_is_idempotent (m : MikroTikMonitor) :
  stop (stop m) = stop m /\
  running (stop m) = false /\ holds_handle (stop m) = false /\
  (connection m = None -> connection (stop m) = None) /\
  (connection m = None -> disconnect m = m) /\
  api (stop m) = api m /\ previous_stats (stop m) = previous_stats m /\
  is_alive (stop m) = is_alive m.
Proof.
  unfold stop, disconnect, holds_handle. cbn.
  destruct (connection m) eqn:E; cbn; rewrite ?E; cbn; repeat split;
    try reflexivity; try discriminate; now rewrite ?andb_false_r.
Qed.

(** ** Snapshots *)

Section MoreBatch.
Variables (r : iface_resource) (current_time : Q) (hms : string -> string).

Lemma fold_poll_keys (interfaces : list string) acc iface :
  is_Some (fst (fold_left (poll_iface r current_time hms) interfaces acc) !! iface) <->
  iface ∈ interfaces \/ is_Some (fst acc !! iface).
Proof.
  induction interfaces as [|x l IH] using rev_ind.
  - cbn. rewrite elem_of_nil. tauto.
  - rewrite fold_left_app. cbn [fold_left]. rewrite poll_iface_stats.
    rewrite elem_of_app, list_elem_of_singleton.
    destruct (decide (x = iface)) as [->|Hne].
    + rewrite lookup_insert_eq. split; [intros _; left; now right|eauto].
    + rewrite lookup_insert_ne by assumption. rewrite IH.
      split; [tauto|]. intros [[H|H]|H]; [tauto|congruence|tauto].
Qed.

Lemma try_fetch_table (previous : previous_table) x reply iface :
  (is_Some (previous !! iface) ->
   is_Some (snd (try_fetch previous x current_time reply) !! iface)) /\
  forall e, snd (try_fetch previous x current_time reply) !! iface = Some e ->
            previous !! iface = Some e \/
            (x = iface /\ fetched reply = true /\ Prev.timestamp e = current_time).
Proof.
  assert (Hsame : (is_Some (previous !! iface) -> is_Some (previous !! iface)) /\
                  forall e, previous !! iface = Some e ->
                            previous !! iface = Some e \/
                            (x = iface /\ fetched reply = true /\
                             Prev.timestamp e = current_time))
    by (split; [tauto|intros e He; now left]).
  unfold try_fetch, fetched in *.
  destruct reply as [|[|first rest]]; try exact Hsame.
  destruct (py_int (rx_byte first)) as [rx|]; [|exact Hsame].
  destruct (py_int (tx_byte first)) as [tx|]; [|exact Hsame].
  destruct (rates previous x current_time rx tx) as [[rx_s tx_s]|]; [|exact Hsame].
  cbn [snd]. destruct (decide (x = iface)) as [->|Hne].
  - rewrite lookup_insert_eq. split; [eauto|]. intros e [= <-]. right. now repeat split.
  - rewrite lookup_insert_ne by assumption. exact Hsame.
Qed.

Lemma fold_poll_table (interfaces : list string) acc iface :
  (is_Some (snd acc !! iface) ->
   is_Some (snd (fold_left (poll_iface r current_time hms) interfaces acc) !! iface)) /\
  forall e, snd (fold_left (poll_iface r current_time hms) interfaces acc) !! iface = Some e ->
            snd acc !! iface = Some e \/
            (iface ∈ interfaces /\ fetched (get_name r iface) = true /\
             Prev.timestamp e = current_time).
Proof.
  induction interfaces as [|x l IH] using rev_ind;
    [split; [tauto|intros e He; now left]|].
  rewrite fold_left_app. cbn [fold_left]. rewrite poll_iface_previous.
  destruct IH as [IH1 IH2].
  destruct (try_fetch_table (snd (fold_left (poll_iface r current_time hms) l acc)) x
              (get_name r x) iface) as [H1 H2].
  split; [auto|]. intros e He.
  destruct (H2 e He) as [H|(-> & Hf & Ht)].
  - destruct (IH2 e H) as [H'|(Hin & Hf & Ht)]; [now left|].
    right. split; [|now split]. apply elem_of_app. now left.
  - right. split; [|now split]. apply elem_of_app. right. now apply list_elem_of_singleton.
Qed.

End MoreBatch.

(** X8. When the batch goes through, the snapshot has an entry for each
    requested interface and for no other name, and every entry carries the
    clock reading taken when it was built. *)
Theorem snapshot_covers_requested_interfaces dev r current_time hms interfaces self :
  api self = Some tt -> get_resource dev = Some r ->
  let stats := fst (get_interface_stats dev current_time hms interfaces self) in
  (forall iface, is_Some (stats !! iface) <-> iface ∈ interfaces) /\
  (forall iface e, stats !! iface = Some e -> Stat.timestamp e = hms iface).
Proof.
  intros Ha Hr stats. split.
  - intros iface. subst stats. rewrite (get_interface_stats_polls dev r) by assumption.
    cbn [fst]. rewrite fold_poll_keys. cbn [fst]. rewrite lookup_empty.
    split; [intros [H|[e H]]; [exact H|discriminate]|now left].
  - intros iface e He. apply get_interface_stats_entries in He as [l ->]. reflexivity.
Qed.

Lemma snapshot_covers_requested_interfaces_witness :
  let r := {| get := None;
              get_name := fun _ => Returns [{| rx_byte := IntText 3000;
                                               tx_byte := IntText 700 |}] |} in
  let self := set_api (Some tt) (init "192.168.88.1" "admin" "") in
  let stats := fst (get_interface_stats {| get_resource := Some r |} 101 (fun _ => "12:00:00")
                      ["ether1"; "ether2"] self) in
  (forall iface, is_Some (stats !! iface) <-> iface ∈ ["ether1"; "ether2"]) /\
  (forall iface e, stats !! iface = Some e -> Stat.timestamp e = "12:00:00").
Proof.
  intros r self.
  apply (snapshot_covers_requested_interfaces {| get_resource := Some r |} r 101
           (fun _ => "12:00:00") ["ether1"; "ether2"] self); reflexivity.
Defined.

(** X9. An interface named twice in the request is polled twice in the same
    call: the second pass finds the sample of the first, no time has
    elapsed, and the entry left in the snapshot shows the rates 0 whatever
    the counters are. *)
Theorem repeated_interface_reports_zero_rate dev r current_time hms self
    before after iface first rest rx tx :
  api self = Some tt -> get_resource dev = Some r ->
  get_name r iface = Returns (first :: rest) ->
  py_int (rx_byte first) = Some rx -> py_int (tx_byte first) = Some tx ->
  iface ∈ after ->
  fst (get_interface_stats dev current_time hms (before ++ iface :: after) self) !! iface =
    Some {| Stat.rx_speed := "0 bps"; Stat.tx_speed := "0 bps";
            Stat.rx_total := format_bytes rx; Stat.tx_total := format_bytes tx;
            Stat.timestamp := hms iface |}.
Proof.
  intros Ha Hr Hreply Hrx Htx Hin.
  rewrite (get_interface_stats_polls dev r) by assumption. cbn [fst].
  rewrite fold_left_app. cbn [fold_left].
  set (acc := poll_iface r current_time hms _ iface).
  assert (Hacc : snd acc !! iface = Some (sample rx tx current_time)).
  { subst acc. rewrite poll_iface_previous, Hreply.
    destruct (try_fetch_read (snd (fold_left (poll_iface r current_time hms) before
                                     (∅, previous_stats self)))
                iface current_time first rest rx tx Hrx Htx) as (rx_s & tx_s & _ & ->).
    cbn [snd]. apply lookup_insert_eq. }
  destruct (fold_poll_same_call r current_time hms after acc iface first rest rx tx
              Hreply Hrx Htx Hacc) as [_ H].
  now rewrite (H Hin).
Qed.

Lemma repeated_interface_reports_zero_rate_witness :
  let r := {| get := None;
              get_name := fun _ => Returns [{| rx_byte := IntText 3000;
                                               tx_byte := IntText 700 |}] |} in
  let self := set_previous_stats {[ "ether1" := sample 1000 200 100 ]}
                (set_api (Some tt) (init "192.168.88.1" "admin" "")) in
  fst (get_interface_stats {| get_resource := Some r |} 101 (fun _ => "12:00:01")
         ["ether1"; "ether1"] self) !! "ether1" =
    Some {| Stat.rx_speed := "0 bps"; Stat.tx_speed := "0 bps";
            Stat.rx_total := format_bytes 3000; Stat.tx_total := format_bytes 700;
            Stat.timestamp := "12:00:01" |}.
Proof.
  intros r self.
  apply (repeated_interface_reports_zero_rate {| get_resource := Some r |} r 101
           (fun _ => "12:00:01") self [] ["ether1"] "ether1"
           {| rx_byte := IntText 3000; tx_byte := IntText 700 |} [] 3000 700);
    try reflexivity.
  apply list_elem_of_singleton. reflexivity.
Defined.

(** X10. [get_interface_stats] never removes a sample from the table: an
    interface that had one still has one, and a sample found afterwards is
    either the old one or one taken during this call, for a requested
    interface. *)
Theorem previous_samples_are_never_dropped dev current_time hms interfaces self iface :
  let self' := snd (get_interface_stats dev current_time hms interfaces self) in
  (is_Some (previous_stats self !! iface) -> is_Some (previous_stats self' !! iface)) /\
  forall e, previous_stats self' !! iface = Some e ->
            previous_stats self !! iface = Some e \/
            (iface ∈ interfaces /\ Prev.timestamp e = current_time).
Proof.
  intros self'. subst self'. unfold get_interface_stats.
  destruct (api self) as [a|]; [destruct (get_resource dev) as [r|]|];
    try (cbn [snd]; split; [tauto|intros e He; now left]).
  destruct (fold_left _ _ _) as [stats previous] eqn:E. cbn [snd previous_stats set_previous_stats].
  destruct (fold_poll_table r current_time hms interfaces (∅, previous_stats self) iface)
    as [H1 H2].
  rewrite E in H1, H2. cbn [snd] in H1, H2. split; [exact H1|].
  intros e He. destruct (H2 e He) as [H|(Hin & _ & Ht)]; [now left|now right].
Qed.

Lemma save_to_db_rows stamp hms (stats : stats_dict) :
  (forall i e, stats !! i = Some e -> exists l, e = entry l (hms i)) ->
  exists rows,
    save_to_db stamp stats = Some rows /\
    length rows = size stats /\
    (forall row, row ∈ rows ->
       Hist.timestamp row = stamp (Hist.interface row) /\
       is_Some (stats !! Hist.interface row)) /\
    (forall iface, is_Some (stats !! iface) ->
       exists row, row ∈ rows /\ Hist.interface row = iface /\
                   Hist.timestamp row = stamp iface).
Proof.
  intros Hentries.
  destruct (save_to_db_commits stamp hms stats Hentries) as [rows Hrows].
  exists rows. split; [exact Hrows|].
  unfold save_to_db in Hrows. apply mapM_Some in Hrows.
  assert (Hrow : forall s iface data row, row_of s iface data = Some row ->
                   Hist.timestamp row = s /\ Hist.interface row = iface).
  { intros s iface data row H. unfold row_of in H.
    destruct (numeric_prefix (Stat.rx_speed data)); [|discriminate].
    destruct (numeric_prefix (Stat.tx_speed data)); [|discriminate].
    destruct (numeric_prefix (Stat.rx_total data)); [|discriminate].
    destruct (numeric_prefix (Stat.tx_total data)); [|discriminate].
    cbn in H. injection H as <-. now split. }
  split; [|split].
  - rewrite <- (Forall2_length _ _ _ Hrows). apply length_map_to_list.
  - intros row Hin. apply list_elem_of_lookup in Hin as [n Hn].
    destruct (Forall2_lookup_r _ _ _ _ _ Hrows Hn) as ([iface data] & Hx & Hf).
    destruct (Hrow _ _ _ _ Hf) as [Ht Hi]. rewrite Ht, Hi. split; [reflexivity|].
    apply list_elem_of_lookup_2 in Hx. apply elem_of_map_to_list in Hx. eauto.
  - intros iface [data Hd]. apply elem_of_map_to_list in Hd.
    apply list_elem_of_lookup in Hd as [n Hn].
    destruct (Forall2_lookup_l _ _ _ _ _ Hrows Hn) as (row & Hy & Hf).
    exists row. split; [now apply list_elem_of_lookup_2 in Hy|].
    destruct (Hrow _ _ _ _ Hf) as [Ht Hi]. now split.
Qed.


(** ** Iterations *)

Lemma run_iteration_keeps k self :
  api self = Some tt ->
  let self' := after (run_iteration k self) in
  running self' = running self /\ connection self' = connection self /\
  api self' = api self /\ is_alive self' = is_alive self /\
  interfaces_to_monitor self' = interfaces_to_monitor self /\
  interval self' = interval self /\ save_interval self' = save_interval self.
Proof.
  intros Ha. cbv zeta. rewrite (run_iteration_connected k self Ha). cbv zeta.
  match goal with
  | |- context [get_interface_stats ?d ?t ?h ?l self] =>
      assert (Hk : let p := snd (get_interface_stats d t h l self) in
                   running p = running self /\ connection p = connection self /\
                   api p = api self /\ is_alive p = is_alive self /\
                   interfaces_to_monitor p = interfaces_to_monitor self /\
                   interval p = interval self /\ save_interval p = save_interval self);
      [|set (polled := get_interface_stats d t h l self) in *]
  end.
  { cbv zeta. unfold get_interface_stats. rewrite Ha.
    destruct (get_resource (router k)) as [r|]; [|now repeat split].
    destruct (fold_left _ _ _). now repeat split. }
  cbv zeta in Hk.
  destruct (save_due_at _ _); [destruct (save_to_db _ _)|]; cbn; exact Hk.
Qed.

(** X12. When the router does not answer [get_resource], the iteration still
    completes: it publishes and broadcasts the empty snapshot, keeps the
    sample table, and if a save is due it writes no row and yet moves
    [last_db_save] forward. *)
Theorem unanswered_cycle_broadcasts_empty_snapshot k self :
  api self = Some tt -> get_resource (router k) = None ->
  let it := run_iteration k self in
  snapshot k self = ∅ /\
  completed it = true /\
  previous_stats (after it) = previous_stats self /\
  effects it =
    (if save_due_at (time_check k) self
     then [SetLiveStats ∅; EmitLiveStats ∅; Insert []; Sleep (interval self)]
     else [SetLiveStats ∅; EmitLiveStats ∅; Sleep (interval self)]) /\
  last_db_save (after it) =
    (if save_due_at (time_check k) self then time_saved k else last_db_save self).
Proof.
  intros Ha Hr it. subst it.
  assert (Hs : get_interface_stats (router k) (time_stats k) (hms k)
                 (polled_interfaces k self) self = (∅, self)).
  { apply get_interface_stats_batch_failure. now right. }
  assert (Hsnap : snapshot k self = ∅) by (unfold snapshot; now rewrite Hs).
  split; [exact Hsnap|].
  rewrite (run_iteration_connected k self Ha). cbv zeta.
  fold (polled_interfaces k self). rewrite Hs. cbn [fst snd].
  assert (Hsave : save_to_db (stamp k) ∅ = Some []).
  { unfold save_to_db. now rewrite map_to_list_empty. }
  rewrite Hsave. destruct (save_due_at (time_check k) self); cbn; now repeat split.
Qed.

Lemma unanswered_cycle_broadcasts_empty_snapshot_witness :
  let self := set_api (Some tt) (init "192.168.88.1" "admin" "") in
  let k := {| router := {| get_resource := None |};
              relogin := PoolError; time_stats := 100; hms := fun _ => "12:00:00";
              time_check := 100; stamp := fun _ => "2025-01-01 12:00:00"; time_saved := 101 |} in
  let it := run_iteration k self in
  snapshot k self = ∅ /\
  completed it = true /\
  previous_stats (after it) = previous_stats self /\
  effects it =
    (if save_due_at (time_check k) self
     then [SetLiveStats ∅; EmitLiveStats ∅; Insert []; Sleep (interval self)]
     else [SetLiveStats ∅; EmitLiveStats ∅; Sleep (interval self)]) /\
  last_db_save (after it) =
    (if save_due_at (time_check k) self then time_saved k else last_db_save self).
Proof.
  intros self k.
  apply (unanswered_cycle_broadcasts_empty_snapshot k self); reflexivity.
Defined.

(** X13. An iteration polls the configured interfaces when there are some,
    and otherwise the names the router lists (none when the listing raises);
    the snapshot it publishes and broadcasts first has one entry for each
    polled name and no other. *)
Theorem iteration_polls_configured_or_listed_interfaces k self r :
  api self = Some tt -> get_resource (router k) = Some r ->
  (interfaces_to_monitor self <> [] ->
     polled_interfaces k self = interfaces_to_monitor self) /\
  (interfaces_to_monitor self = [] ->
     polled_interfaces k self = match get r with Some names => names | None => [] end) /\
  (forall iface, is_Some (snapshot k self !! iface) <-> iface ∈ polled_interfaces k self) /\
  exists tail,
    effects (run_iteration k self) =
      SetLiveStats (snapshot k self) :: EmitLiveStats (snapshot k self) :: tail.
Proof.
  intros Ha Hr. split; [|split; [|split]].
  - intros H. unfold polled_interfaces. now destruct (interfaces_to_monitor self).
  - intros H. unfold polled_interfaces, get_all_interfaces. rewrite H, Ha, Hr.
    now destruct (get r).
  - intros iface. unfold snapshot.
    rewrite (get_interface_stats_polls (router k) r) by assumption. cbn [fst].
    rewrite fold_poll_keys. cbn [fst]. rewrite lookup_empty.
    split; [intros [H|[e H]]; [exact H|discriminate]|now left].
  - rewrite (run_iteration_connected k self Ha). cbv zeta.
    fold (polled_interfaces k self). fold (snapshot k self).
    destruct (save_due_at _ _); [|eauto].
    destruct (save_to_db_commits (stamp k) (hms k) (snapshot k self)) as [rows ->]; [|eauto].
    intros j e. apply get_interface_stats_entries.
Qed.

Lemma iteration_polls_configured_or_listed_interfaces_witness :
  let r := {| get := Some ["ether1"; "ether2"];
              get_name := fun _ => Returns [{| rx_byte := IntText 3000;
                                               tx_byte := IntText 700 |}] |} in
  let self := set_api (Some tt) (init "192.168.88.1" "admin" "") in
  let k := {| router := {| get_resource := Some r |};
              relogin := PoolError; time_stats := 100; hms := fun _ => "12:00:00";
              time_check := 100; stamp := fun _ => "2025-01-01 12:00:00"; time_saved := 101 |} in
  (interfaces_to_monitor self <> [] ->
     polled_interfaces k self = interfaces_to_monitor self) /\
  (interfaces_to_monitor self = [] ->
     polled_interfaces k self = match get r with Some names => names | None => [] end) /\
  (forall iface, is_Some (snapshot k self !! iface) <-> iface ∈ polled_interfaces k self) /\
  exists tail,
    effects (run_iteration k self) =
      SetLiveStats (snapshot k self) :: EmitLiveStats (snapshot k self) :: tail.
Proof.
  intros r self k.
  apply (iteration_polls_configured_or_listed_interfaces k self r); reflexivity.
Defined.

(** ** Requests *)

Lemma alter_last {A} (f : A -> A) (l : list A) (x : A) :
  alter f (List.length l) (l ++ [x])%list = (l ++ [f x])%list.
Proof. induction l as [|a l IH]; [reflexivity|]. cbn. now rewrite IH. Qed.

(** The process once the handler is past the old session. *)
Lemma past_old_session (w : process) :
  tidy w ->
  let w0 := snd (fst ((match live_monitor w with
                       | Some i => stop_and_join i
                       | None => ret tt
                       end) w)) in
  quiet (threads w0) /\ List.length (threads w0) = List.length (threads w) /\
  monitor_thread w0 = monitor_thread w /\ sent w0 = sent w /\
  LIVE_STATS w0 = LIVE_STATS w /\ performance_history w0 = performance_history w.
Proof.
  intros Ht w0. subst w0. destruct (live_monitor w) as [i|] eqn:Hl.
  - apply live_monitor_Some in Hl as (Hcur & _).
    pose proof (tidy_only_live w i Ht Hcur) as Hlive.
    cbn. rewrite !length_alter. repeat split.
    apply quiet_alter; [|reflexivity]. now do 2 apply only_live_alter.
  - cbn. repeat split. now apply tidy_quiet.
Qed.

Lemma quiet_healthy l : quiet l -> healthy l.
Proof. intros H j m Hj Hl. rewrite (H j m Hj) in Hl. discriminate. Qed.

(** The connect handler, from any tidy process. *)
Lemma connect_outcome (w : process) data o :
  tidy w ->
  let w' := react w (OnConnect data o) in
  let new := List.length (threads w) in
  let configured :=
    set_interfaces_to_monitor (data_interfaces data)
      (init (data_ip data) (data_username data) (data_password data)) in
  monitor_thread w' = Some new /\
  threads w' !! new =
    Some (match o with
          | LoggedIn => set_is_alive true (snd (connect o configured))
          | _ => snd (connect o configured)
          end) /\
  (forall j m, (j < new)%nat -> threads w' !! j = Some m -> is_alive m = false) /\
  List.length (threads w') = S new /\
  live_monitor w' = match o with LoggedIn => Some new | _ => None end /\
  sent w' =
    (sent w ++ [match o with
                | LoggedIn => connection_status success "Monitoring started"
                | _ => connection_status error "Failed to connect to MikroTik"
                end])%list /\
  LIVE_STATS w' = LIVE_STATS w /\ performance_history w' = performance_history w.
Proof.
  intros Ht w' new configured.
  pose proof (past_old_session w Ht) as H. cbv zeta in H.
  subst w' new. cbn [react]. unfold connect_mikrotik_via_socket, bind, read, perform.
  destruct ((match live_monitor w with Some i => stop_and_join i | None => ret tt end) w)
    as [[u w0] log0] eqn:E0.
  cbn [fst snd] in H. destruct H as (Hq & Hlen & Hcur & Hsent & Hlive & Hhist).
  rewrite <- Hlen, <- Hsent, <- Hlive, <- Hhist.
  assert (Hold : forall (x : MikroTikMonitor) j m,
             (j < List.length (threads w0))%nat ->
             (threads w0 ++ [x])%list !! j = Some m -> is_alive m = false).
  { intros x j m Hj Hm. rewrite lookup_app_l in Hm by assumption. exact (Hq j m Hm). }
  assert (Hnew : forall (x : MikroTikMonitor),
             (threads w0 ++ [x])%list !! List.length (threads w0) = Some x).
  { intros x. rewrite lookup_app_r by lia. now rewrite Nat.sub_diag. }
  assert (Hl : forall (x : MikroTikMonitor),
             List.length (threads w0 ++ [x])%list = S (List.length (threads w0))).
  { intros x. rewrite length_app. cbn. lia. }
  destruct o; cbn; rewrite ?alter_last; unfold live_monitor; cbn;
    rewrite ?Hnew, ?Hl; cbn; repeat split; try reflexivity; apply Hold.
Qed.

Lemma connect_healthy (w : process) data o :
  tidy w -> healthy (threads (react w (OnConnect data o))).
Proof.
  intros Ht. destruct (connect_outcome w data o Ht) as (_ & Hnew & Hold & Hlen & _).
  intros j m Hj Hl.
  destruct (decide (j < List.length (threads w))%nat) as [Hlt|Hge].
  - rewrite (Hold j m Hlt Hj) in Hl. discriminate.
  - pose proof (lookup_lt_Some _ _ _ Hj) as Hb. rewrite Hlen in Hb.
    assert (j = List.length (threads w)) as -> by lia.
    rewrite Hnew in Hj. injection Hj as <-.
    destruct o; [discriminate Hl|discriminate Hl|]. now repeat split.
Qed.

Lemma quiet_no_live_monitor (w : process) : quiet (threads w) -> live_monitor w = None.
Proof.
  intros Hq. unfold live_monitor. destruct (monitor_thread w) as [j|]; [|reflexivity]. cbn.
  destruct (threads w !! j) as [mj|] eqn:Hj; [|reflexivity]. cbn.
  now rewrite (Hq j mj Hj).
Qed.

(** The disconnect handler, from any tidy process with a live session. *)
Lemma disconnect_outcome (w : process) i :
  tidy w -> live_monitor w = Some i ->
  let w' := react w OnDisconnect in
  quiet (threads w') /\ stopped i w' /\ live_monitor w' = None /\
  monitor_thread w' = monitor_thread w /\
  sent w' = (sent w ++ [connection_status success "Monitoring stopped"])%list /\
  LIVE_STATS w' = LIVE_STATS w /\ performance_history w' = performance_history w /\
  react w' OnDisconnect = w'.
Proof.
  intros Ht Hl w'.
  pose proof Hl as (Hcur & m & Hm & Hlive)%live_monitor_Some.
  pose proof (tidy_only_live w i Ht Hcur) as Honly.
  assert (E : w' = emit (connection_status success "Monitoring stopped")
                     (on_thread i (set_is_alive false)
                        (on_thread i disconnect (on_thread i (set_running false) w)))).
  { subst w'. cbn [react]. unfold disconnect_mikrotik, bind, read. now rewrite Hl. }
  clearbody w'. subst w'.
  set (w' := emit _ _).
  assert (Hq : quiet (threads w')).
  { subst w'. cbn. apply quiet_alter; [|reflexivity]. now do 2 apply only_live_alter. }
  pose proof (quiet_no_live_monitor w' Hq) as Hnone.
  split; [exact Hq|]. split; [|split; [exact Hnone|]].
  - exists (set_is_alive false (disconnect (set_running false m))).
    subst w'. cbn. rewrite !list_lookup_alter_eq, Hm. cbn. split; [reflexivity|].
    unfold disconnect. cbn. destruct (connection m) eqn:Ec; cbn; rewrite ?Ec;
      repeat split; first [reflexivity|discriminate].
  - repeat split.
    cbn [react]. unfold disconnect_mikrotik, bind, read. now rewrite Hnone.
Qed.

(** ** Reachable processes *)

Lemma thread_iteration_healthy i k (w : process) :
  healthy (threads w) -> healthy (threads (thread_iteration i k w)).
Proof.
  intros H. unfold thread_iteration.
  destruct (threads w !! i) as [self|] eqn:Hi; [|exact H].
  destruct (is_alive self && running self) eqn:Hlive; [|exact H].
  apply andb_prop in Hlive as [Hlive _].
  match goal with
  | |- context [fold_left apply_effect ?e ?w0] =>
      destruct (apply_effects_threads e w0) as [-> _]
  end.
  cbn. intros j m Hj Hm. destruct (decide (i = j)) as [<-|Hne].
  - rewrite list_lookup_alter_eq, Hi in Hj. injection Hj as <-.
    destruct (H i self Hi Hlive) as (Hr & Hc & Ha).
    destruct (run_iteration_keeps k self Ha) as (Er & Ec & Ea & _).
    destruct (completed (run_iteration k self)); [|discriminate Hm].
    now rewrite Er, Ec, Ea.
  - rewrite list_lookup_alter_ne in Hj by assumption. exact (H j m Hj Hm).
Qed.

Lemma react_healthy (w : process) e :
  tidy w -> healthy (threads w) -> healthy (threads (react w e)).
Proof.
  intros Ht Hh. destruct e as [data o| |i k].
  - now apply connect_healthy.
  - destruct (live_monitor w) as [i|] eqn:Hl.
    + apply quiet_healthy. now apply (disconnect_outcome w i).
    + cbn [react]. unfold disconnect_mikrotik, bind, read. now rewrite Hl.
  - now apply thread_iteration_healthy.
Qed.

Lemma run_events_healthy events : healthy (threads (run_events events)).
Proof.
  induction events as [|e events IH] using rev_ind.
  - intros j m Hj. cbn in Hj. rewrite lookup_nil in Hj. discriminate.
  - unfold run_events. rewrite fold_left_app. cbn [fold_left].
    apply react_healthy; [apply run_events_tidy|exact IH].
Qed.



(** What an event adds to the history and to the messages sent. *)
Lemma react_appends (w : process) e :
  exists rows msgs,
    performance_history (react w e) = (performance_history w ++ rows)%list /\
    sent (react w e) = (sent w ++ msgs)%list.
Proof.
  destruct e as [data o| |i k]; cbn [react].
  - unfold connect_mikrotik_via_socket, stop_and_join, bind, read, perform, ret.
    exists []. rewrite app_nil_r.
    destruct (live_monitor w); destruct o; cbn; eexists; split; reflexivity.
  - unfold disconnect_mikrotik, stop_and_join, bind, read, perform, ret.
    exists []. rewrite app_nil_r.
    destruct (live_monitor w); cbn; [eexists; split; reflexivity|].
    exists []. now rewrite app_nil_r.
  - unfold thread_iteration.
    destruct (threads w !! i) as [self|];
      [|exists [], []; now rewrite !app_nil_r].
    destruct (is_alive self && running self);
      [|exists [], []; now rewrite !app_nil_r].
    set (w0 := on_thread i _ w).
    change (performance_history w) with (performance_history w0).
    change (sent w) with (sent w0).
    generalize (effects (run_iteration k self)) w0. clear.
    intros effs. induction effs as [|e effs IH]; intros w0.
    + exists [], []. now rewrite !app_nil_r.
    + cbn [fold_left]. destruct (IH (apply_effect w0 e)) as (rows & msgs & -> & ->).
      destruct e; cbn; rewrite <- ?app_assoc; eauto.
Qed.

(** X17. No event removes or changes a stored row or a message already sent:
    the history and the messages after more events extend those before. *)
Theorem history_and_messages_only_grow events more :
  performance_history (run_events events)
    `prefix_of` performance_history (run_events (events ++ more)) /\
  sent (run_events events) `prefix_of` sent (run_events (events ++ more)).
Proof.
  induction more as [|e more IH] using rev_ind.
  - rewrite app_nil_r. split; reflexivity.
  - rewrite app_assoc. unfold run_events at 2 4. rewrite fold_left_app. cbn [fold_left].
    fold (run_events (events ++ more)).
    destruct (react_appends (run_events (events ++ more)) e) as (rows & msgs & -> & ->).
    destruct IH as [IH1 IH2]. split.
    + etrans; [exact IH1|]. now apply prefix_app_r.
    + etrans; [exact IH2|]. now apply prefix_app_r.
Qed.

(** An iteration of a live, connected loop, seen from the process. *)
Lemma thread_iteration_outcome (w : process) i self k :
  threads w !! i = Some self -> is_alive self = true -> running self = true ->
  api self = Some tt ->
  let w' := thread_iteration i k w in
  let stats := snapshot k self in
  LIVE_STATS w' = stats /\
  sent w' = (sent w ++ [live_stats success stats])%list /\
  threads w' = alter (fun _ => after (run_iteration k self)) i (threads w) /\
  monitor_thread w' = monitor_thread w /\
  exists rows,
    save_to_db (stamp k) stats = Some rows /\
    performance_history w' =
      (performance_history w ++ if save_due_at (time_check k) self then rows else [])%list.
Proof.
  intros Hi Hl Hr Ha w' stats. subst w'. unfold thread_iteration. rewrite Hi, Hl, Hr.
  cbn [andb].
  destruct (run_iteration_effects k self Ha) as (Hc & Hdue & Hnot & _).
  fold (polled_interfaces k self) in Hdue, Hnot. fold (snapshot k self) in Hdue, Hnot.
  fold stats in Hdue, Hnot.
  rewrite Hc.
  destruct (save_to_db_commits (stamp k) (hms k) stats) as [rows Hrows].
  { intros j e. apply get_interface_stats_entries. }
  unfold save_due_at.
  destruct (Qle_bool (save_interval self) (time_check k - last_db_save self)) eqn:Hb.
  - apply Qle_bool_iff in Hb. destruct (Hdue Hb) as (rows' & Hrows' & -> & _).
    rewrite Hrows in Hrows'. injection Hrows' as <-.
    cbn. repeat split. exists rows. now split.
  - assert (Hn : ~ (save_interval self <= time_check k - last_db_save self)%Q).
    { intros H. apply Qle_bool_iff in H. congruence. }
    destruct (Hnot Hn) as (-> & _).
    cbn. repeat split. exists rows. split; [exact Hrows|]. now rewrite app_nil_r.
Qed.



(** ** Reports *)

#[local] Instance by_timestamp_total : Total by_timestamp.
Proof. intros a b. apply String.le_total. Qed.

#[local] Instance by_timestamp_trans : Transitive by_timestamp.
Proof. intros a b c. unfold by_timestamp. apply transitivity. Qed.

Lemma between_spec lo hi row :
  between (Some lo) (Some hi) row = true <->
  String.le lo (Hist.timestamp row) /\ String.le (Hist.timestamp row) hi.
Proof.
  unfold between, String.le. rewrite andb_true_iff.
  split; intros [H1 H2]; split; try (now apply Is_true_true); now apply Is_true_true.
Qed.

Lemma filter_none {A} (f : A -> bool) (l : list A) :
  (forall x, f x = false) -> List.filter f l = [].
Proof. intros H. induction l as [|a l IH]; [reflexivity|]. cbn. now rewrite H. Qed.

(** X19. A report holds exactly the stored rows whose timestamp lies between
    the two bounds, both included, each as often as it is stored, in
    ascending order of timestamp; a request without one of the bounds gets
    the empty report. *)
Theorem report_is_the_range_in_order start_date end_date (w : process) :
  let report := get_report_data start_date end_date w in
  report ≡ₚ List.filter (between start_date end_date) (performance_history w) /\
  StronglySorted by_timestamp report /\
  (forall row, row ∈ report <->
     row ∈ performance_history w /\
     exists lo hi, start_date = Some lo /\ end_date = Some hi /\
                   String.le lo (Hist.timestamp row) /\ String.le (Hist.timestamp row) hi) /\
  (start_date = None \/ end_date = None -> report = []).
Proof.
  intros report. subst report. unfold get_report_data, select_report.
  split; [apply merge_sort_Permutation|]. split; [apply StronglySorted_merge_sort; apply _|].
  split.
  - intros row. rewrite merge_sort_Permutation.
    rewrite list_elem_of_In, filter_In, <- list_elem_of_In.
    split; intros [Hin H]; (split; [exact Hin|]).
    + destruct start_date as [lo|], end_date as [hi|]; try discriminate H.
      exists lo, hi. apply between_spec in H. tauto.
    + destruct H as (lo & hi & -> & -> & H). now apply between_spec.
  - intros H. rewrite filter_none; [reflexivity|].
    intros row. destruct H as [-> | ->]; [reflexivity|now destruct start_date].
Qed.

(** X20. The document is refused with status 404 exactly when no stored row
    lies in the range; otherwise it is made from the rows of the report, of
    which there is at least one. *)
Theorem pdf_is_refused_without_rows start_date end_date (w : process) :
  (download_report_pdf start_date end_date w = not_found_404 <->
   forall row, row ∈ performance_history w -> between start_date end_date row = false) /\
  (forall report_data,
     download_report_pdf start_date end_date w = pdf_document report_data ->
     report_data = get_report_data start_date end_date w /\ report_data <> []).
Proof.
  unfold download_report_pdf.
  assert (Hnil : get_report_data start_date end_date w = [] <->
                 forall row, row ∈ performance_history w ->
                             between start_date end_date row = false).
  { unfold get_report_data, select_report. split.
    - intros E row Hin. destruct (between start_date end_date row) eqn:Hb; [|reflexivity].
      assert (Hr : row ∈ merge_sort by_timestamp
                     (List.filter (between start_date end_date) (performance_history w))).
      { rewrite merge_sort_Permutation, list_elem_of_In, filter_In, <- list_elem_of_In.
        now split. }
      rewrite E in Hr. now apply elem_of_nil in Hr.
    - intros H. apply Permutation_nil_r. rewrite merge_sort_Permutation.
      destruct (List.filter _ _) as [|row l] eqn:E; [reflexivity|].
      assert (Hin : In row (List.filter (between start_date end_date) (performance_history w)))
        by (rewrite E; now left).
      apply filter_In in Hin as [Hin Hb]. apply list_elem_of_In in Hin.
      rewrite (H row Hin) in Hb. discriminate. }
  split.
  - rewrite <- Hnil. destruct (get_report_data start_date end_date w); [tauto|].
    split; discriminate.
  - intros report_data. destruct (get_report_data start_date end_date w) eqn:E; [discriminate|].
    intros [= <-]. split; [reflexivity|discriminate].
Qed.

(** X21. After an iteration in which a save was due, a report over a range
    that contains the time stamp of every row of that save (each row has
    its own, read when it is inserted) holds a row for every interface of
    the snapshot, and still holds every row it held before. *)
Theorem saved_rows_are_reported events i self k lo hi :
  threads (run_events events) !! i = Some self -> is_alive self = true ->
  (save_interval self <= time_check k - last_db_save self)%Q ->
  (forall iface, is_Some (snapshot k self !! iface) ->
     String.le lo (stamp k iface) /\ String.le (stamp k iface) hi) ->
  let w := run_events events in
  let w' := react w (Iterate i k) in
  (forall iface, is_Some (snapshot k self !! iface) ->
     exists row, row ∈ get_report_data (Some lo) (Some hi) w' /\
                 Hist.interface row = iface /\ Hist.timestamp row = stamp k iface) /\
  (forall row, row ∈ get_report_data (Some lo) (Some hi) w ->
               row ∈ get_report_data (Some lo) (Some hi) w').
Proof.
  intros Hi Hl Hdue Hrange w w'.
  destruct (run_events_healthy events i self Hi Hl) as (Hr & _ & Ha).
  destruct (thread_iteration_outcome w i self k Hi Hl Hr Ha)
    as (_ & _ & _ & _ & rows & Hrows & Hhist).
  unfold save_due_at in Hhist. rewrite (proj2 (Qle_bool_iff _ _) Hdue) in Hhist.
  change (thread_iteration i k w) with w' in Hhist.
  assert (Hreport : forall (v : process) row,
             row ∈ get_report_data (Some lo) (Some hi) v <->
             row ∈ performance_history v /\ between (Some lo) (Some hi) row = true).
  { intros v row. unfold get_report_data, select_report.
    now rewrite merge_sort_Permutation, list_elem_of_In, filter_In, <- list_elem_of_In. }
  split.
  - intros iface Hin.
    destruct (save_to_db_rows (stamp k) (hms k) (snapshot k self)) as (rows' & Hrows' & _ & _ & Hall).
    { intros j e. apply get_interface_stats_entries. }
    rewrite Hrows in Hrows'. injection Hrows' as <-.
    destruct (Hall iface Hin) as (row & Hrow & Hif & Hts).
    exists row. split; [|now split]. apply Hreport. split.
    + rewrite Hhist. apply elem_of_app. now right.
    + apply between_spec. rewrite Hts. now apply Hrange.
  - intros row [Hin Hb]%Hreport. apply Hreport. split; [|exact Hb].
    rewrite Hhist. apply elem_of_app. now left.
Qed.

Lemma saved_rows_are_reported_witness :
  let data := {| data_ip := "192.168.88.1"; data_username := "admin";
                 data_password := ""; data_interfaces := ["ether1"] |} in
  let self := set_is_alive true
                (set_api (Some tt)
                   (set_connection (Some Open)
                      (set_interfaces_to_monitor ["ether1"]
                         (init "192.168.88.1" "admin" "")))) in
  let k := {| router := {| get_resource := Some {| get := None;
                get_name := fun _ => Returns [{| rx_byte := IntText 3000;
                                                 tx_byte := IntText 700 |}] |} |};
              relogin := PoolError; time_stats := 100; hms := fun _ => "12:00:00";
              time_check := 100; stamp := fun _ => "2025-01-01 12:00:00"; time_saved := 101 |} in
  let lo := "2025-01-01 00:00:00" in
  let hi := "2025-01-02 00:00:00" in
  let w := run_events [OnConnect data LoggedIn] in
  let w' := react w (Iterate 0 k) in
  (forall iface, is_Some (snapshot k self !! iface) ->
     exists row, row ∈ get_report_data (Some lo) (Some hi) w' /\
                 Hist.interface row = iface /\ Hist.timestamp row = stamp k iface) /\
  (forall row, row ∈ get_report_data (Some lo) (Some hi) w ->
               row ∈ get_report_data (Some lo) (Some hi) w').
Proof.
  intros data self k lo hi.
  apply (saved_rows_are_reported [OnConnect data LoggedIn] 0%nat self k lo hi);
    [reflexivity|reflexivity| |intros iface _; split; exact I].
  unfold Qle. cbn. lia.
Defined.

(** ** Requests and iterations, interleaved *)

Lemma run_iteration_poll_publish k self :
  is_Some (api self) ->
  run_iteration k self = publish k (fst (poll k self)) (snd (poll k self)).
Proof.
  intros [a Ha]. unfold run_iteration, poll, publish. rewrite Ha.
  destruct (match interfaces_to_monitor self with
            | [] => get_all_interfaces (router k) (relogin k) self
            | l => (l, self)
            end) as [interfaces self1].
  now destruct (get_interface_stats _ _ _ interfaces self1) as [stats self2].
Qed.

Lemma blocked_at_connect busy (g : process) data o :
  blocked_at busy g (snd (connect_mikrotik_via_socket data o g)) =
    match live_monitor g with
    | Some i =>
        if busy i
        then Some (i,
                   [(StopFlag i, on_thread i (set_running false) g);
                    (Release i, on_thread i disconnect (on_thread i (set_running false) g))],
                   on_thread i disconnect (on_thread i (set_running false) g))
        else None
    | None => None
    end.
Proof.
  unfold connect_mikrotik_via_socket, stop_and_join, bind, read, perform, ret.
  destruct (live_monitor g) as [i|]; destruct o; cbn; try destruct (busy i); reflexivity.
Qed.

Lemma blocked_at_disconnect busy (g : process) :
  blocked_at busy g (snd (disconnect_mikrotik g)) =
    match live_monitor g with
    | Some i =>
        if busy i
        then Some (i,
                   [(StopFlag i, on_thread i (set_running false) g);
                    (Release i, on_thread i disconnect (on_thread i (set_running false) g))],
                   on_thread i disconnect (on_thread i (set_running false) g))
        else None
    | None => None
    end.
Proof.
  unfold disconnect_mikrotik, stop_and_join, bind, read, perform, ret.
  destruct (live_monitor g) as [i|]; cbn; try destruct (busy i); reflexivity.
Qed.

Lemma poll_alive k self :
  is_Some (api self) -> is_alive (snd (poll k self)) = is_alive self.
Proof.
  intros [[] Ha]. unfold poll.
  destruct (interfaces_to_monitor self) as [|x l].
  - pose proof (get_all_interfaces_connected (router k) (relogin k) self Ha) as E.
    destruct (get_all_interfaces (router k) (relogin k) self) as [names self1].
    cbn [snd] in E. subst self1.
    now destruct (get_interface_stats_keeps_schedule (router k) (time_stats k) (hms k)
                    names self) as (_ & _ & _ & H & _).
  - now destruct (get_interface_stats_keeps_schedule (router k) (time_stats k) (hms k)
                    (x :: l) self) as (_ & _ & _ & H & _).
Qed.

Lemma stop_alive m : is_alive (stop m) = is_alive m.
Proof. unfold stop, disconnect. now destruct (connection (set_running false m)). Qed.

Lemma tidy_on_thread i f (w : process) :
  (forall m, is_alive (f m) = true -> is_alive m = true) -> tidy w -> tidy (on_thread i f w).
Proof.
  intros Hf Ht j m. cbn. destruct (decide (i = j)) as [<-|Hne].
  - rewrite list_lookup_alter_eq. destruct (threads w !! i) as [m0|] eqn:Hi; [|discriminate].
    intros [= <-] Hl. exact (Ht i m0 Hi (Hf m0 Hl)).
  - rewrite list_lookup_alter_ne by assumption. apply Ht.
Qed.

Lemma sound_live_monitor (w : world) j :
  sound w -> is_Some (polling w !! j) -> live_monitor (globals w) = Some j.
Proof.
  intros (Ht & Hp & _) Hj. destruct (Hp j Hj) as (m & Hm & Hl).
  unfold live_monitor. rewrite (Ht j m Hm Hl). cbn. rewrite Hm. cbn. now rewrite Hl.
Qed.

Lemma at_work_spec (w : world) i : at_work w i = true <-> is_Some (polling w !! i).
Proof. unfold at_work. apply bool_decide_eq_true. Qed.

Lemma at_work_not (w : world) i : at_work w i = false <-> polling w !! i = None.
Proof.
  unfold at_work. rewrite bool_decide_eq_false. rewrite <- eq_None_not_Some. tauto.
Qed.

(** What a handler does to the world, according to where the live loop,
    if there is one, finds itself. *)
Lemma under_lock_cases (m : handler unit) (w : world) :
  (forall busy g,
     blocked_at busy g (snd (m g)) =
       match live_monitor g with
       | Some i =>
           if busy i
           then Some (i,
                      [(StopFlag i, on_thread i (set_running false) g);
                       (Release i, on_thread i disconnect (on_thread i (set_running false) g))],
                      on_thread i disconnect (on_thread i (set_running false) g))
           else None
       | None => None
       end) ->
  joining w = None ->
  under_lock m w =
    match live_monitor (globals w) with
    | Some i =>
        if at_work w i
        then ({| globals := on_thread i stop (globals w); polling := polling w;
                 joining := Some i |},
              [(StopFlag i, on_thread i (set_running false) (globals w));
               (Release i, on_thread i stop (globals w))])
        else ({| globals := snd (fst (m (globals w))); polling := polling w;
                 joining := None |}, snd (m (globals w)))
    | None => ({| globals := snd (fst (m (globals w))); polling := polling w;
                  joining := None |}, snd (m (globals w)))
    end.
Proof.
  intros Hm Hj. unfold under_lock. rewrite Hj, Hm.
  destruct (live_monitor (globals w)) as [i|]; [|reflexivity].
  destruct (at_work w i); [|reflexivity]. now rewrite stop_in_two_steps.
Qed.

Lemma under_lock_sound (m : handler unit) (w : world) :
  (forall busy g,
     blocked_at busy g (snd (m g)) =
       match live_monitor g with
       | Some i =>
           if busy i
           then Some (i,
                      [(StopFlag i, on_thread i (set_running false) g);
                       (Release i, on_thread i disconnect (on_thread i (set_running false) g))],
                      on_thread i disconnect (on_thread i (set_running false) g))
           else None
       | None => None
       end) ->
  (forall g, tidy g -> tidy (snd (fst (m g)))) ->
  sound w -> sound (fst (under_lock m w)).
Proof.
  intros Hm Htidy Hs. destruct (joining w) as [j|] eqn:Hj.
  { unfold under_lock. now rewrite Hj. }
  rewrite (under_lock_cases m w Hm Hj).
  pose proof Hs as (Ht & Hp & _).
  assert (Hnone : forall i, is_Some (polling w !! i) ->
                            live_monitor (globals w) = Some i)
    by (intros i; now apply sound_live_monitor).
  destruct (live_monitor (globals w)) as [i|] eqn:Hl.
  - destruct (at_work w i) eqn:Hw; cbn [fst].
    + split; [|split]; cbn [globals polling joining].
      * apply tidy_on_thread; [|exact Ht]. intros m0. now rewrite stop_alive.
      * intros j Hpj. destruct (Hp j Hpj) as (m0 & Hm0 & Hl0). cbn.
        destruct (decide (i = j)) as [<-|Hne].
        -- exists (stop m0). rewrite list_lookup_alter_eq, Hm0. split; [reflexivity|].
           now rewrite stop_alive.
        -- exists m0. now rewrite list_lookup_alter_ne.
      * intros j [= <-]. now apply at_work_spec.
    + split; [|split]; cbn [globals polling joining].
      * now apply Htidy.
      * intros j Hpj. pose proof (Hnone j Hpj) as [= <-].
        apply at_work_not in Hw. rewrite Hw in Hpj. now destruct Hpj.
      * discriminate.
  - split; [|split]; cbn [fst globals polling joining].
    + now apply Htidy.
    + intros j Hpj. now pose proof (Hnone j Hpj).
    + discriminate.
Qed.

Lemma begin_iteration_sound i k (w : world) : sound w -> sound (begin_iteration i k w).
Proof.
  intros Hs. pose proof Hs as (Ht & Hp & Hj). unfold begin_iteration.
  destruct (threads (globals w) !! i) as [self|] eqn:Hi; [|exact Hs].
  destruct (polling w !! i) eqn:Hpi; [exact Hs|].
  destruct (is_alive self && running self) eqn:Hlive; [|exact Hs].
  apply andb_prop in Hlive as [Hlive _].
  destruct (api self) as [a|] eqn:Ha; [|exact Hs].
  pose proof (poll_alive k self (ex_intro _ a Ha)) as Hal.
  destruct (poll k self) as [stats self']. cbn [snd] in Hal.
  split; [|split]; cbn [globals polling joining].
  - intros j m. cbn. destruct (decide (i = j)) as [<-|Hne].
    + rewrite list_lookup_alter_eq, Hi. intros _ _. exact (Ht i self Hi Hlive).
    + rewrite list_lookup_alter_ne by assumption. apply Ht.
  - intros j Hpj. cbn. destruct (decide (i = j)) as [<-|Hne].
    + exists self'. rewrite list_lookup_alter_eq, Hi. split; [reflexivity|congruence].
    + rewrite lookup_insert_ne in Hpj by assumption.
      rewrite list_lookup_alter_ne by assumption. now apply Hp.
  - intros j Hjj. apply lookup_insert_is_Some'. right. now apply Hj.
Qed.

Lemma end_iteration_sound i k (w : world) : sound w -> sound (end_iteration i k w).
Proof.
  intros Hs. pose proof Hs as (Ht & Hp & Hj). unfold end_iteration.
  destruct (joining w) eqn:Hjw; [exact Hs|].
  destruct (polling w !! i) as [stats|] eqn:Hpi; [|exact Hs].
  destruct (threads (globals w) !! i) as [self|] eqn:Hi; [|exact Hs].
  destruct (Hp i (ex_intro _ stats Hpi)) as (m0 & Hm0 & Hl0).
  assert (m0 = self) as -> by congruence.
  set (it := publish k stats self).
  set (self' := if completed it then after it else set_is_alive false (after it)).
  split; [|split]; cbn [globals polling joining].
  - intros j m.
    destruct (apply_effects_threads (effects it) (on_thread i (fun _ => self') (globals w)))
      as [-> ->].
    cbn. destruct (decide (i = j)) as [<-|Hne].
    + intros _ _. exact (Ht i self Hi Hl0).
    + rewrite list_lookup_alter_ne by assumption. apply Ht.
  - intros j Hpj.
    destruct (apply_effects_threads (effects it) (on_thread i (fun _ => self') (globals w)))
      as [-> _].
    cbn. destruct (decide (i = j)) as [<-|Hne].
    + rewrite lookup_delete_eq in Hpj. now destruct Hpj.
    + rewrite lookup_delete_ne in Hpj by assumption.
      rewrite list_lookup_alter_ne by assumption. now apply Hp.
  - discriminate.
Qed.

Lemma connect_tidy data o (g : process) :
  tidy g -> tidy (snd (fst (connect_mikrotik_via_socket data o g))).
Proof. intros Ht. exact (react_tidy g (OnConnect data o) Ht). Qed.

Lemma disconnect_tidy (g : process) : tidy g -> tidy (snd (fst (disconnect_mikrotik g))).
Proof. intros Ht. exact (react_tidy g OnDisconnect Ht). Qed.

Lemma act_sound (w : world) mv : sound w -> sound (act w mv).
Proof.
  intros Hs. destruct mv as [data o| |i k|i k]; cbn [act].
  - apply under_lock_sound; [intros; apply blocked_at_connect|apply connect_tidy|exact Hs].
  - apply under_lock_sound; [intros; apply blocked_at_disconnect|apply disconnect_tidy|exact Hs].
  - now apply begin_iteration_sound.
  - now apply end_iteration_sound.
Qed.

Lemma booted_sound : sound booted.
Proof.
  split; [|split]; cbn.
  - intros j m Hj. destruct j; discriminate.
  - intros i [x Hx]. now rewrite lookup_empty in Hx.
  - discriminate.
Qed.

Lemma fold_act_sound moves (w : world) : sound w -> sound (fold_left act moves w).
Proof.
  revert w. induction moves as [|mv moves IH]; intros w Hs; [exact Hs|].
  cbn [fold_left]. apply IH. now apply act_sound.
Qed.

Lemma run_moves_sound moves : sound (run_moves moves).
Proof. apply fold_act_sound, booted_sound. Qed.

(** *** Requests between iterations *)

Lemma at_work_empty (g : process) i :
  at_work {| globals := g; polling := ∅; joining := None |} i = false.
Proof. apply at_work_not. apply lookup_empty. Qed.

Lemma alter_const {A} (l : list A) i x : l !! i = Some x -> alter (fun _ => x) i l = l.
Proof.
  intros H. apply list_eq. intros j. destruct (decide (i = j)) as [<-|Hne].
  - now rewrite list_lookup_alter_eq, H.
  - now rewrite list_lookup_alter_ne.
Qed.

Lemma on_thread_const i self (g : process) :
  threads g !! i = Some self -> on_thread i (fun _ => self) g = g.
Proof.
  intros H. unfold on_thread, set_threads. rewrite (alter_const _ _ _ H). now destruct g.
Qed.

Lemma on_thread_twice i (a b : MikroTikMonitor) (g : process) :
  on_thread i (fun _ => a) (on_thread i (fun _ => b) g) = on_thread i (fun _ => a) g.
Proof.
  unfold on_thread, set_threads.
  cbn [threads monitor_thread LIVE_STATS performance_history sent].
  f_equal. apply list_alter_alter_eq.
Qed.

(** An iteration that no request interrupts is [thread_iteration]. *)
Lemma poll_then_publish i k (g : process) :
  end_iteration i k (begin_iteration i k {| globals := g; polling := ∅; joining := None |}) =
    {| globals := thread_iteration i k g; polling := ∅; joining := None |}.
Proof.
  unfold begin_iteration, thread_iteration. cbn [globals polling joining].
  rewrite lookup_empty.
  destruct (threads g !! i) as [self|] eqn:Hi;
    [|unfold end_iteration; cbn [globals polling joining]; now rewrite lookup_empty].
  destruct (is_alive self && running self);
    [|unfold end_iteration; cbn [globals polling joining]; now rewrite lookup_empty].
  destruct (api self) as [a|] eqn:Ha.
  - rewrite (run_iteration_poll_publish k self) by eauto.
    destruct (poll k self) as [stats self1]. cbn [fst snd].
    unfold end_iteration. cbn [globals polling joining].
    rewrite lookup_insert_eq, (on_thread_lookup_eq i _ g self Hi).
    rewrite on_thread_twice, delete_insert_id by apply lookup_empty. reflexivity.
  - unfold end_iteration. cbn [globals polling joining]. rewrite lookup_empty.
    unfold run_iteration. rewrite Ha. cbn. now rewrite (on_thread_const i self g Hi).
Qed.

Lemma moves_of_react (g : process) e :
  fold_left act (moves_of e) {| globals := g; polling := ∅; joining := None |} =
    {| globals := react g e; polling := ∅; joining := None |}.
Proof.
  destruct e as [data o| |i k]; cbn [moves_of fold_left act react].
  - rewrite under_lock_cases; [|intros; apply blocked_at_connect|reflexivity].
    cbn [globals]. destruct (live_monitor g) as [j|]; [|reflexivity].
    now rewrite at_work_empty.
  - rewrite under_lock_cases; [|intros; apply blocked_at_disconnect|reflexivity].
    cbn [globals]. destruct (live_monitor g) as [j|]; [|reflexivity].
    now rewrite at_work_empty.
  - apply poll_then_publish.
Qed.

(** The runs of [run_events] are the runs in which every request arrives
    between two iterations. *)
Lemma run_events_interleaved events :
  run_moves (events ≫= moves_of) =
    {| globals := run_events events; polling := ∅; joining := None |}.
Proof.
  unfold run_moves, run_events, booted. generalize boot as g.
  induction events as [|e events IH]; intros g; [reflexivity|].
  cbn [mbind list_bind]. change (mbind moves_of events) with (events ≫= moves_of).
  rewrite fold_left_app, moves_of_react. cbn [fold_left]. apply IH.
Qed.

(** *** Requests that meet a loop at work *)

Lemma tidy_at_most_one (g : process) : tidy g -> at_most_one_live g /\ at_most_one_handle g.
Proof.
  intros Ht. split; intros a b ma mb Ha Hb Hla Hlb.
  - pose proof (Ht a ma Ha Hla). pose proof (Ht b mb Hb Hlb). congruence.
  - apply andb_prop in Hla as [Hla _]. apply andb_prop in Hlb as [Hlb _].
    pose proof (Ht a ma Ha Hla). pose proof (Ht b mb Hb Hlb). congruence.
Qed.

(** Once a handler waits in [join()] for a loop that waits for the lock,
    no request, and no loop, does anything any more. *)
Lemma stuck_for_good (w : world) i :
  sound w -> joining w = Some i -> forall more, fold_left act more w = w.
Proof.
  intros Hs Hj more. induction more as [|mv more IH]; [reflexivity|].
  cbn [fold_left]. enough (act w mv = w) as -> by exact IH.
  pose proof Hs as (Ht & Hp & Hjp).
  pose proof (sound_live_monitor w i Hs (Hjp i Hj)) as (Hcur & _)%live_monitor_Some.
  destruct mv as [data o| |j k|j k]; cbn [act].
  - unfold under_lock. now rewrite Hj.
  - unfold under_lock. now rewrite Hj.
  - unfold begin_iteration.
    destruct (threads (globals w) !! j) as [self|] eqn:Hself; [|reflexivity].
    destruct (polling w !! j) eqn:Hpj; [reflexivity|].
    destruct (is_alive self) eqn:Hl; [|reflexivity].
    pose proof (Ht j self Hself Hl) as Hcur'.
    assert (j = i) as -> by congruence.
    destruct (Hjp i Hj) as [x Hx]. congruence.
  - unfold end_iteration. now rewrite Hj.
Qed.

(** A request that finds the live loop at work: the handler lowers the
    flag, releases the handle, and waits in [join()] for ever. *)
Lemma request_meets_loop_at_work (m : handler unit) (w : world) i :
  (forall busy g,
     blocked_at busy g (snd (m g)) =
       match live_monitor g with
       | Some i =>
           if busy i
           then Some (i,
                      [(StopFlag i, on_thread i (set_running false) g);
                       (Release i, on_thread i disconnect (on_thread i (set_running false) g))],
                      on_thread i disconnect (on_thread i (set_running false) g))
           else None
       | None => None
       end) ->
  (forall g, tidy g -> tidy (snd (fst (m g)))) ->
  sound w -> live_monitor (globals w) = Some i -> joining w = None ->
  is_Some (polling w !! i) ->
  let w' := fst (under_lock m w) in
  let log := snd (under_lock m w) in
  (exists w1 w2, log = [(StopFlag i, w1); (Release i, w2)]) /\
  Forall (fun sw => orderly (Some i) (fst sw) (snd sw)) log /\
  joining w' = Some i /\
  List.length (threads (globals w')) = List.length (threads (globals w)) /\
  monitor_thread (globals w') = Some i /\
  (exists self, threads (globals w') !! i = Some self /\ is_alive self = true /\
                running self = false /\ connection self <> Some Open) /\
  sent (globals w') = sent (globals w) /\
  LIVE_STATS (globals w') = LIVE_STATS (globals w) /\
  performance_history (globals w') = performance_history (globals w) /\
  forall more, fold_left act more w' = w'.
Proof.
  intros Hm Htidy Hs Hl Hj Hp w' log. subst w' log.
  pose proof Hs as (Ht & _).
  pose proof Hl as (Hcur & self & Hself & Hlive)%live_monitor_Some.
  pose proof (tidy_only_live _ i Ht Hcur) as Honly.
  assert (Hs' : sound (fst (under_lock m w))) by now apply under_lock_sound.
  rewrite (under_lock_cases m w Hm Hj) in *. rewrite Hl in *.
  rewrite (proj2 (at_work_spec w i) Hp) in *. cbn [fst snd globals joining] in *.
  split; [eauto|]. split; [|split; [reflexivity|]].
  { apply Forall_cons. split; [|apply Forall_cons; split; [|constructor]]; cbn [fst snd].
    - apply (orderly_only_live (Some i) (StopFlag i) i); [now apply only_live_alter|].
      now intros j _.
    - apply (orderly_only_live (Some i) (Release i) i); [now apply only_live_alter|].
      now intros j _. }
  split; [cbn; now rewrite length_alter|]. split; [exact Hcur|].
  split.
  { exists (stop self). rewrite (on_thread_lookup_eq i stop _ self Hself).
    split; [reflexivity|]. rewrite stop_alive. split; [exact Hlive|].
    unfold stop, disconnect. cbn.
    destruct (connection self) eqn:Ec; cbn; rewrite ?Ec; split;
      first [reflexivity|discriminate]. }
  split; [reflexivity|]. split; [reflexivity|]. split; [reflexivity|].
  now apply (stuck_for_good _ i).
Qed.

(** The steps of the connect handler that finds the session [i] alive, as
    far as [join()] lets it go. *)
Lemma connect_log (g : process) data o i :
  tidy g -> live_monitor g = Some i ->
  let log := snd (connect_mikrotik_via_socket data o g) in
  (exists w1 w2 w3 w4 rest,
     log = (StopFlag i, w1) :: (Release i, w2) :: (Join i, w3)
             :: (Construct (List.length (threads g)), w4) :: rest /\
     stopped i w3 /\
     threads w4 = (threads w3 ++ [init (data_ip data) (data_username data)
                                    (data_password data)])%list) /\
  Forall (fun sw => orderly (Some i) (fst sw) (snd sw)) log.
Proof.
  intros Ht Hlive log.
  destruct (connect_mikrotik_via_socket_spec data o (Some i) g (conj Ht Hlive))
    as [_ Hlog].
  fold log in Hlog. split; [|exact Hlog].
  assert (Hshape : exists w1 w2 w3 w4 rest,
             log = (StopFlag i, w1) :: (Release i, w2) :: (Join i, w3)
                     :: (Construct (List.length (threads g)), w4) :: rest /\
             threads w4 = (threads w3 ++ [init (data_ip data) (data_username data)
                                            (data_password data)])%list).
  { subst log. unfold connect_mikrotik_via_socket, stop_and_join, bind, read, perform, ret.
    rewrite Hlive. cbn [on_thread threads set_threads].
    rewrite !length_alter.
    destruct o; cbn [app fst snd]; do 5 eexists; split; reflexivity. }
  destruct Hshape as (w1 & w2 & w3 & w4 & rest & Hshape & Hnew).
  exists w1, w2, w3, w4, rest. split; [exact Hshape|]. split; [|exact Hnew].
  rewrite Hshape in Hlog.
  apply Forall_cons in Hlog as [_ Hlog]. apply Forall_cons in Hlog as [_ Hlog].
  apply Forall_cons in Hlog as [(_ & _ & Hs) _]. exact Hs.
Qed.

(** X22. A start request that finds a session running and its loop between
    two iterations, in any interleaving of requests and iterations: the
    handler lowers the stop flag of the old monitor, releases its device
    handle and joins its loop, and only then constructs the new monitor; the
    old session is over from the join on, the handler returns, and before,
    after each of its steps and afterwards at most one loop is alive and at
    most one live loop holds a device handle. *)
Theorem start_request_between_iterations moves data o i :
  let w := run_moves moves in
  live_monitor (globals w) = Some i -> joining w = None -> polling w !! i = None ->
  let w' := fst (under_lock (connect_mikrotik_via_socket data o) w) in
  let log := snd (under_lock (connect_mikrotik_via_socket data o) w) in
  (exists w1 w2 w3 w4 rest,
     log = (StopFlag i, w1) :: (Release i, w2) :: (Join i, w3)
             :: (Construct (List.length (threads (globals w))), w4) :: rest /\
     stopped i w3 /\
     threads w4 = (threads w3 ++ [init (data_ip data) (data_username data)
                                    (data_password data)])%list) /\
  Forall (fun sw => orderly (Some i) (fst sw) (snd sw)) log /\
  joining w' = None /\
  at_most_one_live (globals w) /\ at_most_one_handle (globals w) /\
  at_most_one_live (globals w') /\ at_most_one_handle (globals w').
Proof.
  intros w Hl Hj Hp w' log.
  pose proof (run_moves_sound moves) as Hs. fold w in Hs.
  assert (Hs' : sound w').
  { apply under_lock_sound; [intros; apply blocked_at_connect|apply connect_tidy|exact Hs]. }
  pose proof Hs as (Ht & _). pose proof Hs' as (Ht' & _).
  destruct (tidy_at_most_one _ Ht) as [H1 H2].
  destruct (tidy_at_most_one _ Ht') as [H1' H2'].
  assert (E : under_lock (connect_mikrotik_via_socket data o) w =
                ({| globals := snd (fst (connect_mikrotik_via_socket data o (globals w)));
                    polling := polling w; joining := None |},
                 snd (connect_mikrotik_via_socket data o (globals w)))).
  { rewrite (under_lock_cases _ w (fun busy g => blocked_at_connect busy g data o) Hj), Hl.
    now rewrite (proj2 (at_work_not w i) Hp). }
  destruct (connect_log (globals w) data o i Ht Hl) as [Hshape Hord].
  subst log. rewrite E. cbn [snd].
  split; [exact Hshape|]. split; [exact Hord|].
  split; [subst w'; now rewrite E|]. now repeat split.
Qed.

Lemma start_request_between_iterations_witness :
  let data := {| data_ip := "192.168.88.1"; data_username := "admin";
                 data_password := ""; data_interfaces := ["ether1"] |} in
  let k := {| router := {| get_resource := Some {| get := None;
                get_name := fun _ => Returns [{| rx_byte := IntText 3000;
                                                 tx_byte := IntText 700 |}] |} |};
              relogin := PoolError; time_stats := 100; hms := fun _ => "12:00:00";
              time_check := 100; stamp := fun _ => "2025-01-01 12:00:00";
              time_saved := 101 |} in
  let w := run_moves [Start_request data LoggedIn; Poll 0 k; Publish 0 k] in
  let w' := fst (under_lock (connect_mikrotik_via_socket data LoggedIn) w) in
  let log := snd (under_lock (connect_mikrotik_via_socket data LoggedIn) w) in
  (exists w1 w2 w3 w4 rest,
     log = (StopFlag 0, w1) :: (Release 0, w2) :: (Join 0, w3)
             :: (Construct (List.length (threads (globals w))), w4) :: rest /\
     stopped 0 w3 /\
     threads w4 = (threads w3 ++ [init (data_ip data) (data_username data)
                                    (data_password data)])%list) /\
  Forall (fun sw => orderly (Some 0%nat) (fst sw) (snd sw)) log /\
  joining w' = None /\
  at_most_one_live (globals w) /\ at_most_one_handle (globals w) /\
  at_most_one_live (globals w') /\ at_most_one_handle (globals w').
Proof.
  intros data k.
  apply (start_request_between_iterations
           [Start_request data LoggedIn; Poll 0 k; Publish 0 k] data LoggedIn 0%nat);
    reflexivity.
Defined.

(** C8, where the code departs from it. A start request that finds a
    session running and its loop at work (past the test of
    [while self.running], not yet given the lock of line 182), in any
    interleaving of requests and iterations, [thread_lock] being free when
    the request arrives: the handler lowers the stop flag and releases the
    device handle, and then waits in [join()] for ever, the loop waiting
    for the lock the handler holds. The old loop is never joined and stays
    alive, no monitor is constructed, no message is sent, and no request or
    iteration that comes later changes anything. At most one loop is alive
    and at most one live loop holds a device handle all the same. *)
Theorem start_request_on_a_running_session moves data o i :
  let w := run_moves moves in
  live_monitor (globals w) = Some i -> joining w = None -> is_Some (polling w !! i) ->
  let w' := fst (under_lock (connect_mikrotik_via_socket data o) w) in
  let log := snd (under_lock (connect_mikrotik_via_socket data o) w) in
  (exists w1 w2, log = [(StopFlag i, w1); (Release i, w2)]) /\
  Forall (fun sw => orderly (Some i) (fst sw) (snd sw)) log /\
  joining w' = Some i /\
  List.length (threads (globals w')) = List.length (threads (globals w)) /\
  monitor_thread (globals w') = Some i /\
  (exists self, threads (globals w') !! i = Some self /\ is_alive self = true /\
                running self = false /\ connection self <> Some Open) /\
  sent (globals w') = sent (globals w) /\
  LIVE_STATS (globals w') = LIVE_STATS (globals w) /\
  performance_history (globals w') = performance_history (globals w) /\
  at_most_one_live (globals w') /\ at_most_one_handle (globals w') /\
  forall more, fold_left act more w' = w'.
Proof.
  intros w Hl Hj Hp w' log.
  pose proof (run_moves_sound moves) as Hs. fold w in Hs.
  assert (Hs' : sound w').
  { apply under_lock_sound; [intros; apply blocked_at_connect|apply connect_tidy|exact Hs]. }
  destruct Hs' as (Ht' & _). destruct (tidy_at_most_one _ Ht') as [H1' H2'].
  destruct (request_meets_loop_at_work (connect_mikrotik_via_socket data o) w i
              (fun busy g => blocked_at_connect busy g data o) (connect_tidy data o)
              Hs Hl Hj Hp)
    as (Hlog & Hord & Hjoin & Hlen & Hcur & Hself & Hsent & Hls & Hh & Hfix).
  fold w' in Hjoin, Hlen, Hcur, Hself, Hsent, Hls, Hh, Hfix. fold log in Hlog, Hord.
  repeat (split; [assumption|]). exact Hfix.
Qed.

Lemma start_request_on_a_running_session_witness :
  let data := {| data_ip := "192.168.88.1"; data_username := "admin";
                 data_password := ""; data_interfaces := ["ether1"] |} in
  let k := {| router := {| get_resource := Some {| get := None;
                get_name := fun _ => Returns [{| rx_byte := IntText 3000;
                                                 tx_byte := IntText 700 |}] |} |};
              relogin := PoolError; time_stats := 100; hms := fun _ => "12:00:00";
              time_check := 100; stamp := fun _ => "2025-01-01 12:00:00";
              time_saved := 101 |} in
  let w := run_moves [Start_request data LoggedIn; Poll 0 k] in
  let w' := fst (under_lock (connect_mikrotik_via_socket data LoggedIn) w) in
  let log := snd (under_lock (connect_mikrotik_via_socket data LoggedIn) w) in
  (exists w1 w2, log = [(StopFlag 0, w1); (Release 0, w2)]) /\
  Forall (fun sw => orderly (Some 0%nat) (fst sw) (snd sw)) log /\
  joining w' = Some 0%nat /\
  List.length (threads (globals w')) = List.length (threads (globals w)) /\
  monitor_thread (globals w') = Some 0%nat /\
  (exists self, threads (globals w') !! 0%nat = Some self /\ is_alive self = true /\
                running self = false /\ connection self <> Some Open) /\
  sent (globals w') = sent (globals w) /\
  LIVE_STATS (globals w') = LIVE_STATS (globals w) /\
  performance_history (globals w') = performance_history (globals w) /\
  at_most_one_live (globals w') /\ at_most_one_handle (globals w') /\
  forall more, fold_left act more w' = w'.
Proof.
  intros data k.
  apply (start_request_on_a_running_session [Start_request data LoggedIn; Poll 0 k]
           data LoggedIn 0%nat); [reflexivity|reflexivity|].
  eexists. reflexivity.
Defined.

(** The failing input, evaluated: after the second start request one
    monitor exists, the first, the handler waits for it, and the only
    message ever sent is that of the first start. *)
Lemma start_request_meets_polling_loop :
  let data := {| data_ip := "192.168.88.1"; data_username := "admin";
                 data_password := ""; data_interfaces := ["ether1"] |} in
  let k := {| router := {| get_resource := Some {| get := None;
                get_name := fun _ => Returns [{| rx_byte := IntText 3000;
                                                 tx_byte := IntText 700 |}] |} |};
              relogin := PoolError; time_stats := 100; hms := fun _ => "12:00:00";
              time_check := 100; stamp := fun _ => "2025-01-01 12:00:00";
              time_saved := 101 |} in
  let w := run_moves [Start_request data LoggedIn; Poll 0 k] in
  let w' := act w (Start_request data LoggedIn) in
  live_monitor (globals w) = Some 0%nat /\ is_Some (polling w !! 0%nat) /\
  joining w' = Some 0%nat /\
  List.length (threads (globals w')) = 1%nat /\
  sent (globals w') = [connection_status success "Monitoring started"] /\
  act (act w' (Publish 0 k)) Stop_request = w'.
Proof. vm_compute. repeat split. eauto. Qed.

(** X14. A start request that arrives while no loop is at work (none is
    alive, or the live one is between two iterations) replaces the current
    monitor by a newly constructed one, configured with the requested
    interfaces, and leaves every older loop ended. If the login succeeds the
    new loop is alive and one success message is sent; if it fails no loop
    is alive any more, even if a session was running before, and one error
    message is sent. The published snapshot and the history are not
    touched. *)
Theorem connect_request_outcome moves data o :
  let w := run_moves moves in
  joining w = None ->
  (forall i, live_monitor (globals w) = Some i -> polling w !! i = None) ->
  let w' := act w (Start_request data o) in
  let new := List.length (threads (globals w)) in
  let configured :=
    set_interfaces_to_monitor (data_interfaces data)
      (init (data_ip data) (data_username data) (data_password data)) in
  joining w' = None /\ polling w' = polling w /\
  monitor_thread (globals w') = Some new /\
  threads (globals w') !! new =
    Some (match o with
          | LoggedIn => set_is_alive true (snd (connect o configured))
          | _ => snd (connect o configured)
          end) /\
  (forall j m, (j < new)%nat -> threads (globals w') !! j = Some m -> is_alive m = false) /\
  List.length (threads (globals w')) = S new /\
  live_monitor (globals w') = match o with LoggedIn => Some new | _ => None end /\
  sent (globals w') =
    (sent (globals w) ++
       [match o with
        | LoggedIn => connection_status success "Monitoring started"
        | _ => connection_status error "Failed to connect to MikroTik"
        end])%list /\
  LIVE_STATS (globals w') = LIVE_STATS (globals w) /\
  performance_history (globals w') = performance_history (globals w).
Proof.
  intros w Hj Hidle w' new configured.
  pose proof (run_moves_sound moves) as (Ht & _). fold w in Ht.
  assert (E : w' = {| globals := react (globals w) (OnConnect data o);
                      polling := polling w; joining := None |}).
  { subst w'. cbn [act react].
    rewrite (under_lock_cases _ w (fun busy g => blocked_at_connect busy g data o) Hj).
    destruct (live_monitor (globals w)) as [i|] eqn:Hl; [|reflexivity].
    now rewrite (proj2 (at_work_not w i) (Hidle i eq_refl)). }
  rewrite E. cbn [globals polling joining].
  split; [reflexivity|]. split; [reflexivity|].
  exact (connect_outcome (globals w) data o Ht).
Qed.

Lemma connect_request_outcome_witness :
  let data := {| data_ip := "192.168.88.1"; data_username := "admin";
                 data_password := ""; data_interfaces := ["ether1"] |} in
  let k := {| router := {| get_resource := Some {| get := None;
                get_name := fun _ => Returns [{| rx_byte := IntText 3000;
                                                 tx_byte := IntText 700 |}] |} |};
              relogin := PoolError; time_stats := 100; hms := fun _ => "12:00:00";
              time_check := 100; stamp := fun _ => "2025-01-01 12:00:00";
              time_saved := 101 |} in
  let w := run_moves [Start_request data LoggedIn; Poll 0 k; Publish 0 k] in
  let w' := act w (Start_request data LoginError) in
  let new := List.length (threads (globals w)) in
  let configured :=
    set_interfaces_to_monitor (data_interfaces data)
      (init (data_ip data) (data_username data) (data_password data)) in
  joining w' = None /\ polling w' = polling w /\
  monitor_thread (globals w') = Some new /\
  threads (globals w') !! new = Some (snd (connect LoginError configured)) /\
  (forall j m, (j < new)%nat -> threads (globals w') !! j = Some m -> is_alive m = false) /\
  List.length (threads (globals w')) = S new /\
  live_monitor (globals w') = None /\
  sent (globals w') =
    (sent (globals w) ++
       [connection_status error "Failed to connect to MikroTik"])%list /\
  LIVE_STATS (globals w') = LIVE_STATS (globals w) /\
  performance_history (globals w') = performance_history (globals w).
Proof.
  intros data k.
  apply (connect_request_outcome [Start_request data LoggedIn; Poll 0 k; Publish 0 k]
           data LoginError); [reflexivity|].
  intros i H. vm_compute in H. injection H as <-. reflexivity.
Defined.

(** X15. A stop request that finds a live session and its loop between two
    iterations, in any interleaving of requests and iterations, ends it:
    afterwards no loop is alive, the session has its flag down and its
    handle released, the handler has returned, one success message has been
    sent, the last published snapshot and the history stay, and a second
    stop request changes nothing. *)
Theorem disconnect_request_outcome moves i :
  let w := run_moves moves in
  live_monitor (globals w) = Some i -> joining w = None -> polling w !! i = None ->
  let w' := act w Stop_request in
  joining w' = None /\ polling w' = polling w /\
  quiet (threads (globals w')) /\ stopped i (globals w') /\
  live_monitor (globals w') = None /\
  monitor_thread (globals w') = monitor_thread (globals w) /\
  sent (globals w') =
    (sent (globals w) ++ [connection_status success "Monitoring stopped"])%list /\
  LIVE_STATS (globals w') = LIVE_STATS (globals w) /\
  performance_history (globals w') = performance_history (globals w) /\
  act w' Stop_request = w'.
Proof.
  intros w Hl Hj Hp w'.
  pose proof (run_moves_sound moves) as Hs. fold w in Hs. pose proof Hs as (Ht & _).
  assert (E : w' = {| globals := react (globals w) OnDisconnect;
                      polling := polling w; joining := None |}).
  { subst w'. cbn [act react].
    rewrite (under_lock_cases _ w blocked_at_disconnect Hj), Hl.
    now rewrite (proj2 (at_work_not w i) Hp). }
  destruct (disconnect_outcome (globals w) i Ht Hl)
    as (Hq & Hst & Hnone & Hcur & Hsent & Hlive & Hhist & Hagain).
  rewrite E. cbn [globals polling joining].
  repeat (split; [first [reflexivity|assumption]|]).
  cbn [act]. rewrite under_lock_cases; [|exact blocked_at_disconnect|reflexivity].
  cbn [globals polling joining]. rewrite Hnone. cbn [fst]. f_equal. exact Hagain.
Qed.

Lemma disconnect_request_outcome_witness :
  let data := {| data_ip := "192.168.88.1"; data_username := "admin";
                 data_password := ""; data_interfaces := ["ether1"] |} in
  let k := {| router := {| get_resource := Some {| get := None;
                get_name := fun _ => Returns [{| rx_byte := IntText 3000;
                                                 tx_byte := IntText 700 |}] |} |};
              relogin := PoolError; time_stats := 100; hms := fun _ => "12:00:00";
              time_check := 100; stamp := fun _ => "2025-01-01 12:00:00";
              time_saved := 101 |} in
  let w := run_moves [Start_request data LoggedIn; Poll 0 k; Publish 0 k] in
  let w' := act w Stop_request in
  joining w' = None /\ polling w' = polling w /\
  quiet (threads (globals w')) /\ stopped 0 (globals w') /\
  live_monitor (globals w') = None /\
  monitor_thread (globals w') = monitor_thread (globals w) /\
  sent (globals w') =
    (sent (globals w) ++ [connection_status success "Monitoring stopped"])%list /\
  LIVE_STATS (globals w') = LIVE_STATS (globals w) /\
  performance_history (globals w') = performance_history (globals w) /\
  act w' Stop_request = w'.
Proof.
  intros data k.
  apply (disconnect_request_outcome [Start_request data LoggedIn; Poll 0 k; Publish 0 k]
           0%nat); reflexivity.
Defined.

(** X23. A stop request that finds a live session and its loop at work, in
    any interleaving of requests and iterations, [thread_lock] being free
    when the request arrives: the handler lowers the stop flag and releases
    the device handle, and then waits in [join()] for ever. No message is
    sent, the loop stays alive, the published snapshot and the history stay
    as they are, and no request or iteration that comes later changes
    anything. *)
Theorem stop_request_meets_loop_at_work moves i :
  let w := run_moves moves in
  live_monitor (globals w) = Some i -> joining w = None -> is_Some (polling w !! i) ->
  let w' := act w Stop_request in
  joining w' = Some i /\
  (exists self, threads (globals w') !! i = Some self /\ is_alive self = true /\
                running self = false /\ connection self <> Some Open) /\
  sent (globals w') = sent (globals w) /\
  LIVE_STATS (globals w') = LIVE_STATS (globals w) /\
  performance_history (globals w') = performance_history (globals w) /\
  forall more, fold_left act more w' = w'.
Proof.
  intros w Hl Hj Hp w'.
  pose proof (run_moves_sound moves) as Hs. fold w in Hs.
  destruct (request_meets_loop_at_work disconnect_mikrotik w i blocked_at_disconnect
              disconnect_tidy Hs Hl Hj Hp)
    as (_ & _ & Hjoin & _ & _ & Hself & Hsent & Hls & Hh & Hfix).
  repeat (split; [assumption|]). exact Hfix.
Qed.

Lemma stop_request_meets_loop_at_work_witness :
  let data := {| data_ip := "192.168.88.1"; data_username := "admin";
                 data_password := ""; data_interfaces := ["ether1"] |} in
  let k := {| router := {| get_resource := Some {| get := None;
                get_name := fun _ => Returns [{| rx_byte := IntText 3000;
                                                 tx_byte := IntText 700 |}] |} |};
              relogin := PoolError; time_stats := 100; hms := fun _ => "12:00:00";
              time_check := 100; stamp := fun _ => "2025-01-01 12:00:00";
              time_saved := 101 |} in
  let w := run_moves [Start_request data LoggedIn; Poll 0 k] in
  let w' := act w Stop_request in
  joining w' = Some 0%nat /\
  (exists self, threads (globals w') !! 0%nat = Some self /\ is_alive self = true /\
                running self = false /\ connection self <> Some Open) /\
  sent (globals w') = sent (globals w) /\
  LIVE_STATS (globals w') = LIVE_STATS (globals w) /\
  performance_history (globals w') = performance_history (globals w) /\
  forall more, fold_left act more w' = w'.
Proof.
  intros data k.
  apply (stop_request_meets_loop_at_work [Start_request data LoggedIn; Poll 0 k] 0%nat);
    [reflexivity|reflexivity|].
  eexists. reflexivity.
Defined.
